(** * Longshot: scroll-and-stitch full-page capture

    A shallow embedding of the capture pipeline of the extension:
    - the background service worker (capture planning, the capture loop with
      its retry policy around [chrome.tabs.captureVisibleTab], the session
      progress tracker, the keyboard-shortcut listener);
    - the offscreen document (canvas dimension sanitising and the stitcher).

    JavaScript numbers that the code only ever uses as integers (pixel
    heights, scroll offsets, loop counters) are [Z].  The percentage
    [Math.round((i / numCaptures) * 100)] is computed as the code computes
    it, in IEEE 754 binary64 ([SpecFloat]), where it is not always the
    nearest integer to 100 i / numCaptures.  The quotient under [Math.ceil]
    is taken in [Q]: its operands are integers, and between integers of pixel
    size the rounding of a binary64 quotient never crosses an integer.
    Asynchronous code runs as one sequential flow per
    session, so it is written in a state-and-exception monad over a [World]
    that holds the service worker's globals, the pending timers and the trace
    of calls made to the browser; the browser's answers come from an [Env].
    Where two keyboard commands can interleave, the hotkey path is also
    taken apart at its awaits and run turn by turn ([EventLoop]). *)

From Stdlib Require Import ZArith QArith Qround List String Bool Lia DecimalString.
From Stdlib Require Import SpecFloat.
Import ListNotations.

Local Open Scope string_scope.
Local Open Scope list_scope.
Local Open Scope Z_scope.

(* ------------------------------------------------------------------ *)
(** ** JavaScript helpers *)

Module Js.

(** [String.prototype.includes]. *)
Fixpoint includes (needle hay : string) : bool :=
  String.prefix needle hay ||
  match hay with
  | EmptyString => false
  | String _ rest => includes needle rest
  end.

(** [String.prototype.startsWith]. *)
Definition startsWith (scheme url : string) : bool := String.prefix scheme url.

(** Template-literal rendering of an integer. *)
Definition showZ (z : Z) : string := NilEmpty.string_of_int (Z.to_int z).

(** [Math.round]: nearest integer, ties towards +Infinity. *)
Definition mathRound (q : Q) : Z := Qfloor (q + (1 # 2)).

(** [Math.ceil]. *)
Definition mathCeil (q : Q) : Z := Qceiling q.

(** A JavaScript number is an IEEE 754 binary64 value: 53 bits of
    precision, exponents below 1024, operations rounded to nearest with ties
    to even. *)
Definition prec : Z := 53.
Definition emax : Z := 1024.

(** The number that holds an integer (exactly, up to 2^53). *)
Definition ofInteger (z : Z) : spec_float := binary_normalize prec emax z 0 false.

(** The operators [/] and [*] on numbers. *)
Definition divide (x y : spec_float) : spec_float := SFdiv prec emax x y.
Definition multiply (x y : spec_float) : spec_float := SFmul prec emax x y.

(** The exact value of a finite number, mantissa times a power of two;
    nothing for [NaN] and the infinities. *)
Definition valueOf (x : spec_float) : option Q :=
  match x with
  | S754_zero _ => Some 0%Q
  | S754_finite negative m e =>
      let magnitude :=
        if 0 <=? e then inject_Z (Z.pos m * 2 ^ e)
        else (Z.pos m # Pos.pow 2 (Z.to_pos (- e)))%Q in
      Some (if negative then Qopp magnitude else magnitude)
  | S754_infinity _ | S754_nan => None
  end.

(** [Math.round] of a number: the integer nearest to its exact value, ties
    towards +Infinity.  [NaN] and the infinities, which [Math.round] returns
    as they are, give nothing. *)
Definition mathRoundNumber (x : spec_float) : option Z :=
  option_map mathRound (valueOf x).

(** The values a canvas dimension can take when it reaches
    [sanitizeCanvasDimension]: [undefined], [null], or a number, which is
    [NaN], an infinity, or finite. *)
Inductive Value :=
| Undefined
| Null
| NaN
| Infinity (negative : bool)
| Num (q : Q).

End Js.

(* ------------------------------------------------------------------ *)
(** ** The service worker's data *)

(** [currentCaptureState], as written by [updateCaptureState]. *)
Record CaptureState := mkCaptureState {
  sessionId : string;
  status : string;
  message : string;
  progress : option Z;
  timestamp : Z
}.

(** One entry of the [captures] array of [scrollAndStitchCapture]. *)
Record Capture := mkCapture {
  blob : string;
  scrollY : Z;
  viewportHeight : Z;
  viewportWidth : Z;
  isLastCapture : bool
}.

(** An entry of [activeSessions]. *)
Record Session := mkSession {
  tabId : Z;
  startTime : Z;
  sessionStatus : string
}.

(** The [config] object. *)
Record Config := mkConfig {
  preCapture : bool;
  preCaptureMaxDuration : Z
}.

Definition DEFAULT_CONFIG : Config := mkConfig false 10000.

(** A tab as returned by [chrome.tabs.query]. *)
Record Tab := mkTab {
  tab_id : option Z;
  tab_url : option string;
  tab_title : option string
}.

(** The answer of the content script to [SCROLL_CAPTURE_INIT]. *)
Record Dims := mkDims {
  dims_success : bool;
  dims_scrollHeight : Z;
  dims_viewportHeight : Z;
  dims_viewportWidth : Z;
  dims_currentScrollY : Z
}.

(** The answer of the content script to [SCROLL_TO]: [scrollToPosition]
    resolves with the position the window reports after the scroll. *)
Record ScrollResult := mkScrollResult {
  scroll_success : bool;
  scrolledToY : Z
}.

(** The answer of the offscreen document to [STITCH_CAPTURES]. *)
Record StitchResponse := mkStitchResponse {
  stitch_success : bool;
  pngBlobUrl : string;
  stitch_error : option string
}.

(** Outcome of a promise: resolved with a value or rejected with an error
    whose [message] is kept. *)
Inductive Result (A : Type) :=
| Ok (a : A)
| Throw (msg : string).
Arguments Ok {A} a.
Arguments Throw {A} msg.

(** What the browser answers.  Calls that the code repeats ([SCROLL_TO],
    [captureVisibleTab]) are answered by the number of the call. *)
Record Env := mkEnv {
  env_sessionId : string;                      (* Math.random().toString(36).substring(7) *)
  env_tabs : list Tab;                         (* chrome.tabs.query *)
  env_ping : bool;                             (* PING answered *)
  env_inject : Result unit;                    (* chrome.scripting.executeScript *)
  env_dims : Result Dims;                      (* SCROLL_CAPTURE_INIT *)
  env_scroll : nat -> Z -> Result ScrollResult;  (* k-th SCROLL_TO, requested y *)
  env_captureVisibleTab : nat -> Result string;  (* k-th captureVisibleTab *)
  env_hasOffscreen : bool;                     (* chrome.runtime.getContexts *)
  env_createDocument : Result unit;            (* chrome.offscreen.createDocument *)
  env_stitch : list Capture -> Z -> Result (option StitchResponse);
  env_download : Result unit;                  (* chrome.downloads.download *)
  env_storedConfig : Config                    (* chrome.storage.sync.get *)
}.

(** Calls made to the browser, in order. *)
Inductive Event :=
| EvNotify (sid st msg : string) (p : option Z)   (* notifyPopup *)
| EvPing
| EvInject
| EvDims
| EvScrollTo (y : Z)
| EvSleep (ms : Z)                                (* await of a setTimeout promise *)
| EvCaptureVisibleTab
| EvCreateDocument
| EvStitch (captures : list Capture) (overlapHeight : Z)
| EvStabilize (maxDuration : Z)
| EvDownload (url : string)
| EvSetTimeout (ms : Z) (sid : string).

(** The state of the service worker. *)
Record World := mkWorld {
  currentCaptureState : option CaptureState;
  activeSessions : list (string * Session);
  clock : Z;                         (* Date.now() *)
  scrollCalls : nat;                 (* SCROLL_TO requests sent so far *)
  grabCalls : nat;                   (* captureVisibleTab invocations so far *)
  timers : list (Z * string);        (* pending state-clearing timeouts: delay, session *)
  trace : list Event
}.

Definition setCurrent (c : option CaptureState) (w : World) : World :=
  mkWorld c (activeSessions w) (clock w) (scrollCalls w) (grabCalls w)
          (timers w) (trace w).

Definition setSessions (s : list (string * Session)) (w : World) : World :=
  mkWorld (currentCaptureState w) s (clock w) (scrollCalls w) (grabCalls w)
          (timers w) (trace w).

Definition emit (e : Event) (w : World) : World :=
  mkWorld (currentCaptureState w) (activeSessions w) (clock w) (scrollCalls w)
          (grabCalls w) (timers w) (trace w ++ [e]).

Definition advance (ms : Z) (w : World) : World :=
  mkWorld (currentCaptureState w) (activeSessions w) (clock w + ms)
          (scrollCalls w) (grabCalls w) (timers w) (trace w).

Definition countScroll (w : World) : World :=
  mkWorld (currentCaptureState w) (activeSessions w) (clock w)
          (S (scrollCalls w)) (grabCalls w) (timers w) (trace w).

Definition countGrab (w : World) : World :=
  mkWorld (currentCaptureState w) (activeSessions w) (clock w)
          (scrollCalls w) (S (grabCalls w)) (timers w) (trace w).

Definition addTimer (ms : Z) (sid : string) (w : World) : World :=
  mkWorld (currentCaptureState w) (activeSessions w) (clock w)
          (scrollCalls w) (grabCalls w) (timers w ++ [(ms, sid)]) (trace w).

Definition initialWorld : World := mkWorld None [] 0 0 0 [] [].

(* ------------------------------------------------------------------ *)
(** ** The monad of the asynchronous code *)

Definition M (A : Type) : Type := World -> Result A * World.

Definition ret {A} (a : A) : M A := fun w => (Ok a, w).

Definition throw {A} (msg : string) : M A := fun w => (Throw msg, w).

Definition bind {A B} (c : M A) (k : A -> M B) : M B :=
  fun w =>
    match c w with
    | (Ok a, w') => k a w'
    | (Throw msg, w') => (Throw msg, w')
    end.

(** [try { c } catch (e) { handler e.message }]. *)
Definition tryCatch {A} (c : M A) (handler : string -> M A) : M A :=
  fun w =>
    match c w with
    | (Ok a, w') => (Ok a, w')
    | (Throw msg, w') => handler msg w'
    end.

(** [try { c } finally { f }], for a [finally] block that does not throw. *)
Definition finally {A} (c : M A) (f : World -> World) : M A :=
  fun w => let (r, w') := c w in (r, f w').

Definition modify (f : World -> World) : M unit := fun w => (Ok tt, f w).

Definition liftResult {A} (r : Result A) : M A := fun w => (r, w).

Notation "x <- c ;; k" := (bind c (fun x => k))
  (at level 61, c at next level, right associativity).
Notation "c ;;; k" := (bind c (fun _ => k))
  (at level 61, right associativity).

(* ------------------------------------------------------------------ *)
(** ** background.js *)

Module Background.

(** Configuration constants of [scrollAndStitchCapture]. *)
Definition OVERLAP_HEIGHT : Z := 75.
Definition MAX_CAPTURES : Z := 100.
Definition MAX_TOTAL_HEIGHT : Z := 32000.

(** "Calculate number of captures needed" and "Enforce limits".  A zero
    step makes the quotient [Infinity], which [Math.min] brings back to
    [MAX_CAPTURES]. *)
Definition numCapturesOf (scrollHeight viewportHeight : Z) : Z :=
  if scrollHeight >? viewportHeight then
    let scrollableHeight := scrollHeight - viewportHeight in
    if viewportHeight - OVERLAP_HEIGHT =? 0 then MAX_CAPTURES
    else
      Z.min (Js.mathCeil (inject_Z scrollableHeight /
                          inject_Z (viewportHeight - OVERLAP_HEIGHT)) + 1)
            MAX_CAPTURES
  else Z.min 1 MAX_CAPTURES.

(** [Math.round((i / numCaptures) * 100)], with the quotient and the
    product rounded to binary64 as in the code.  The loop computes it only
    for [0 <= i < numCaptures], where the product is finite; the value 0
    given for a product that is not finite is never used. *)
Definition progressOf (i numCaptures : Z) : Z :=
  match Js.mathRoundNumber
          (Js.multiply (Js.divide (Js.ofInteger i) (Js.ofInteger numCaptures))
                       (Js.ofInteger 100)) with
  | Some progress => progress
  | None => 0
  end.

(** The scroll positions the capture loop visits: [i * (viewportHeight -
    OVERLAP_HEIGHT)] for [i = 0, 1, ...] below [numCaptures], up to the first
    one that lies beyond [scrollHeight - viewportHeight], where the loop
    breaks. *)
Fixpoint offsetsFrom (fuel : nat) (i scrollHeight viewportHeight : Z) : list Z :=
  match fuel with
  | O => []
  | S fuel' =>
      let scrollY := i * (viewportHeight - OVERLAP_HEIGHT) in
      if scrollY >? scrollHeight - viewportHeight then []
      else scrollY :: offsetsFrom fuel' (i + 1) scrollHeight viewportHeight
  end.

Definition offsets (scrollHeight viewportHeight : Z) : list Z :=
  offsetsFrom (Z.to_nat (numCapturesOf scrollHeight viewportHeight)) 0
              scrollHeight viewportHeight.

(** [isCapturableUrl]. *)
Definition restrictedSchemes : list string :=
  [ "chrome://"; "chrome-extension://"; "brave://"; "edge://"; "opera://";
    "about:"; "view-source:"; "file://" ].

Definition isCapturableUrl (url : option string) : bool :=
  match url with
  | None => false
  | Some "" => false
  | Some u => negb (existsb (fun scheme => Js.startsWith scheme u) restrictedSchemes)
  end.

(** [activeSessions.set] and [activeSessions.delete]. *)
Fixpoint mapSet (k : string) (v : Session) (m : list (string * Session)) :=
  match m with
  | [] => [(k, v)]
  | (k', v') :: rest =>
      if String.eqb k' k then (k, v) :: rest else (k', v') :: mapSet k v rest
  end.

Definition mapDelete (k : string) (m : list (string * Session)) :=
  filter (fun kv => negb (String.eqb (fst kv) k)) m.

(** The callback scheduled by [startCapture] once a capture completed. *)
Definition clearIfSession (sid : string) (w : World) : World :=
  match currentCaptureState w with
  | Some cs => if String.eqb (sessionId cs) sid then setCurrent None w else w
  | None => w
  end.

(** The event loop running the oldest pending timeout. *)
Definition fireTimer (w : World) : World :=
  match timers w with
  | [] => w
  | (ms, sid) :: rest =>
      clearIfSession sid
        (mkWorld (currentCaptureState w) (activeSessions w) (clock w + ms)
                 (scrollCalls w) (grabCalls w) rest (trace w))
  end.

(** The guard of the keyboard-shortcut listener: a capture is in progress. *)
Definition captureInProgress (w : World) : bool :=
  match currentCaptureState w with
  | Some cs => negb (String.eqb (status cs) "completed") &&
               negb (String.eqb (status cs) "error")
  | None => false
  end.

Section WithBrowser.

Variable env : Env.

Definition notifyPopup (sid st msg : string) (p : option Z) : M unit :=
  modify (emit (EvNotify sid st msg p)).

(** [updateCaptureState]: overwrite the record, then notify the popup. *)
Definition updateCaptureState (sid st msg : string) (p : option Z) : M unit :=
  fun w =>
    notifyPopup sid st msg p
      (setCurrent (Some (mkCaptureState sid st msg p (clock w))) w).

(** [await new Promise(r => setTimeout(r, ms))]. *)
Definition sleep (ms : Z) : M unit :=
  modify (fun w => advance ms (emit (EvSleep ms) w)).

Definition ensureContentScript : M bool :=
  modify (emit EvPing) ;;;
  if env_ping env then ret true
  else
    modify (emit EvInject) ;;;
    match env_inject env with
    | Ok _ => sleep 100 ;;; ret true
    | Throw m => throw ("Cannot inject content script: " ++ m)
    end.

Definition getCurrentTab : M Tab :=
  match env_tabs env with
  | [] => throw "No active tab found"
  | tab :: _ => ret tab
  end.

(** [chrome.tabs.sendMessage(tabId, {type: 'SCROLL_TO', x: 0, y})]. *)
Definition sendScrollTo (y : Z) : M ScrollResult :=
  fun w => (env_scroll env (scrollCalls w) y, countScroll (emit (EvScrollTo y) w)).

(** [chrome.tabs.captureVisibleTab({format: 'png', quality: 100})]. *)
Definition captureVisibleTab : M string :=
  fun w => (env_captureVisibleTab env (grabCalls w),
            countGrab (emit EvCaptureVisibleTab w)).

(** The retry loop [while (retries > 0)] around the screenshot.  The result
    is [dataUrl]: [None] is the [undefined] it keeps when the loop body never
    ran. *)
Fixpoint captureWithRetry (retries : nat) : M (option string) :=
  match retries with
  | O => ret None
  | S retries' =>
      fun w =>
        match captureVisibleTab w with
        | (Ok dataUrl, w') => (Ok (Some dataUrl), w')
        | (Throw msg, w') =>
            if Js.includes "quota" msg && (0 <? Z.of_nat retries') then
              (sleep 1000 ;;; captureWithRetry retries') w'
            else (Throw msg, w')
        end
  end.

(** [fetch(dataUrl)] followed by [response.blob()]. *)
Definition fetchBlob (dataUrl : option string) : M string :=
  match dataUrl with
  | Some u => ret u
  | None => throw "Failed to fetch"
  end.

Section CaptureLoop.

Variables (sid : string) (scrollHeight vpHeight vpWidth numCaptures : Z).

(** Step 2, the loop [for (let i = 0; i < numCaptures; i++)]; [fuel] is
    [numCaptures - i]. *)
Fixpoint captureLoop (fuel : nat) (i : Z) (captures : list Capture)
  : M (list Capture) :=
  match fuel with
  | O => ret captures
  | S fuel' =>
      let scrollY := i * (vpHeight - OVERLAP_HEIGHT) in
      if scrollY >? scrollHeight - vpHeight then ret captures
      else
        updateCaptureState sid "capturing"
          ("Capturing viewport " ++ Js.showZ (i + 1) ++ "/" ++
           Js.showZ numCaptures ++ "...")
          (Some (progressOf i numCaptures)) ;;;
        scrollResult <- sendScrollTo scrollY ;;
        if negb (scroll_success scrollResult) then
          throw ("Failed to scroll to Y=" ++ Js.showZ scrollY)
        else
          sleep 600 ;;;
          dataUrl <- captureWithRetry 3 ;;
          blob <- fetchBlob dataUrl ;;
          captureLoop fuel' (i + 1)
            (captures ++
             [mkCapture blob scrollY vpHeight vpWidth
                        (scrollY + vpHeight >=? scrollHeight)])
  end.

End CaptureLoop.

(** Steps 0 to 2 of [scrollAndStitchCapture]: the frames collected, or the
    error thrown on the way. *)
Definition collectCaptures (sid : string) : M (list Capture * Dims) :=
  updateCaptureState sid "preparing" "Preparing page..." None ;;;
  ensureContentScript ;;;
  updateCaptureState sid "capturing" "Getting page dimensions..." None ;;;
  modify (emit EvDims) ;;;
  dims <- liftResult (env_dims env) ;;
  if negb (dims_success dims) then throw "Failed to get page dimensions"
  else
    let scrollHeight := dims_scrollHeight dims in
    let viewportHeight := dims_viewportHeight dims in
    let numCaptures := numCapturesOf scrollHeight viewportHeight in
    captures <- captureLoop sid scrollHeight viewportHeight
                  (dims_viewportWidth dims) numCaptures
                  (Z.to_nat numCaptures) 0 [] ;;
    match captures with
    | [] => throw "No captures were collected"
    | _ => ret (captures, dims)
    end.

Definition createOffscreenDocument : M unit :=
  if env_hasOffscreen env then ret tt
  else
    modify (emit EvCreateDocument) ;;;
    match env_createDocument env with
    | Ok _ => sleep 300
    | Throw m => if Js.includes "already exists" m then ret tt else throw m
    end.

(** [sendToOffscreen] of the [STITCH_CAPTURES] message. *)
Definition sendToOffscreen (captures : list Capture) (overlapHeight : Z)
  : M StitchResponse :=
  modify (emit (EvStitch captures overlapHeight)) ;;;
  response <- liftResult (env_stitch env captures overlapHeight) ;;
  match response with
  | None => throw "No response from offscreen document"
  | Some r => ret r
  end.

(** [scrollAndStitchCapture]: the collection, then steps 3 to 5.  Step 3
    re-encodes each blob as a data URL and keeps the other fields of the
    capture, so the message sent to the offscreen document carries the
    captures as collected. *)
Definition scrollAndStitchCapture (sid : string) : M StitchResponse :=
  collected <- collectCaptures sid ;;
  let (captures, dims) := collected in
  updateCaptureState sid "stitching" "Stitching captures together..." (Some 95) ;;;
  createOffscreenDocument ;;;
  stitchResult <- sendToOffscreen captures OVERLAP_HEIGHT ;;
  match stitch_error stitchResult with
  | Some (String c rest) => throw (String c rest)
  | _ =>
      (* Step 5: the scroll position is restored, failures are ignored *)
      tryCatch (sendScrollTo (dims_currentScrollY dims) ;;; ret tt)
               (fun _ => ret tt) ;;;
      ret stitchResult
  end.

(** [stabilizeDOM]: the request is sent; a failure is logged and ignored. *)
Definition stabilizeDOM (maxDuration : Z) : M unit :=
  modify (emit (EvStabilize maxDuration)).

(** [chrome.downloads.download]. *)
Definition download (url : string) : M unit :=
  modify (emit (EvDownload url)) ;;;
  liftResult (env_download env).

(** [setTimeout(() => { ... currentCaptureState = null ... }, ms)]. *)
Definition setTimeoutClear (ms : Z) (sid : string) : M unit :=
  modify (fun w => addTimer ms sid (emit (EvSetTimeout ms sid) w)).

(** [activeSessions.set(sessionId, {tabId, startTime: Date.now(), status})]. *)
Definition registerSession (sid : string) (id : Z) : M unit :=
  fun w =>
    (Ok tt, setSessions (mapSet sid (mkSession id (clock w) "started")
                                (activeSessions w)) w).

(** [activeSessions.delete(sessionId)]. *)
Definition retireSession (sid : string) (w : World) : World :=
  setSessions (mapDelete sid (activeSessions w)) w.

(** The message shown for a page that cannot be captured. *)
Definition notCapturableMessage : string :=
  let newline := String (Ascii.ascii_of_nat 10) EmptyString in
  "Cannot capture this page. Please navigate to a regular website." ++
  newline ++ newline ++
  "Browser internal pages cannot be captured for security reasons.".

(** The [try] block of [startCapture].  The file name given to the download
    (title, host name and timestamp) is left out: it is computed between
    two tracker writes and touches neither the tracker nor the captures. *)
Definition captureSession (config : Config) (sid : string) : M unit :=
  tab <- getCurrentTab ;;
  match tab_id tab with
  | None | Some 0 => throw "Tab ID not available"
  | Some id =>
      if negb (isCapturableUrl (tab_url tab)) then
        updateCaptureState sid "error" notCapturableMessage None ;;;
        throw "URL not capturable"
      else
        registerSession sid id ;;;
        updateCaptureState sid "started" "Starting capture..." None ;;;
        (if preCapture config then
           updateCaptureState sid "stabilizing" "Stabilizing DOM..." None ;;;
           stabilizeDOM (preCaptureMaxDuration config) ;;;
           sleep 500
         else ret tt) ;;;
        stitchResult <- scrollAndStitchCapture sid ;;
        updateCaptureState sid "downloading" "Downloading image..." None ;;;
        download (pngBlobUrl stitchResult) ;;;
        updateCaptureState sid "completed" "Capture complete!" (Some 100) ;;;
        setTimeoutClear 5000 sid
  end.

(** [startCapture]: [try { ... } catch (e) { ... } finally { ... }], then
    [return sessionId]. *)
Definition startCapture (config : Config) : M string :=
  let sid := env_sessionId env in
  finally
    (tryCatch (captureSession config sid)
       (fun msg =>
          updateCaptureState sid "error" ("Capture failed: " ++ msg) None))
    (retireSession sid) ;;;
  ret sid.

(** The [GET_CAPTURE_STATUS] message: what an observer reads. *)
Definition getCaptureStatus (w : World) : option CaptureState :=
  currentCaptureState w.

(** [chrome.commands.onCommand] listener.  The result tells whether a
    capture session was started. *)
Definition onCommand (command : string) : M bool :=
  if String.eqb command "capture-page" then
    fun w =>
      if captureInProgress w then (Ok false, w)
      else (startCapture (env_storedConfig env) ;;; ret true) w
  else ret false.

End WithBrowser.

End Background.

(* ------------------------------------------------------------------ *)
(** ** offscreen.js *)

Module Offscreen.

(** A decoded screenshot.  [captureVisibleTab] renders the visible area of
    the tab, so its pixels carry a colour and no transparency. *)
Record Rgb := mkRgb { red : Z; green : Z; blue : Z }.

Record Image := mkImage {
  width : Z;
  height : Z;
  pixelAt : Z -> Z -> Rgb          (* column, row *)
}.

(** A canvas pixel: colour and 8-bit alpha. *)
Record Rgba := mkRgba { color : Rgb; alpha : Z }.

Definition transparentBlack : Rgba := mkRgba (mkRgb 0 0 0) 0.

Definition opaque (c : Rgb) : Rgba := mkRgba c 255.

(** One [ctx.drawImage(img, sx, sy, sw, sh, dx, dy, dw, dh)] call, with the
    [globalAlpha] in force. *)
Record DrawCall := mkDrawCall {
  call_alpha : Q;
  call_image : Image;
  sx : Z; sy : Z; sw : Z; sh : Z;
  dx : Z; dy : Z; dw : Z; dh : Z
}.

(** An [OffscreenCanvas] with the state of its 2D context. *)
Record Canvas := mkCanvas {
  canvasWidth : Z;
  canvasHeight : Z;
  canvasAt : Z -> Z -> Rgba;
  globalAlpha : Q;
  calls : list DrawCall
}.

(** [new OffscreenCanvas(w, h)] and [getContext('2d')]: transparent black,
    [globalAlpha] 1. *)
Definition newCanvas (w h : Z) : Canvas :=
  mkCanvas w h (fun _ _ => transparentBlack) 1 [].

Definition setGlobalAlpha (a : Q) (c : Canvas) : Canvas :=
  mkCanvas (canvasWidth c) (canvasHeight c) (canvasAt c) a (calls c).

(** Source-over compositing of an opaque source pixel under a global alpha,
    in 8-bit integer arithmetic.  A draw at alpha 1 replaces the destination
    exactly; for a translucent draw the rounding is that of this model. *)
Definition sourceOver (a : Q) (src : Rgb) (dst : Rgba) : Rgba :=
  let sa := Qfloor (255 * a + (1 # 2)) in
  let oa := sa + alpha dst * (255 - sa) / 255 in
  let mix (s d : Z) :=
    if oa =? 0 then 0 else (s * sa + d * alpha dst * (255 - sa) / 255) / oa in
  mkRgba (mkRgb (mix (red src) (red (color dst)))
                (mix (green src) (green (color dst)))
                (mix (blue src) (blue (color dst))))
         oa.

(** [v] lies in the span that starts at [start] and extends by [len], in
    either direction. *)
Definition inSpan (start len v : Z) : bool :=
  ((start <=? v) && (v <? start + len)) ||
  ((start + len <=? v) && (v <? start)).

Definition inside (w h x y : Z) : bool :=
  (0 <=? x) && (x <? w) && (0 <=? y) && (y <? h).

(** [ctx.drawImage] with nine arguments.  The stitcher always passes a
    destination rectangle of the size of the source rectangle, so a
    destination pixel takes the source pixel at the same displacement; the
    source rectangle is clipped to the image and the destination to the
    canvas. *)
Definition drawImage (image : Image) (sx sy sw sh dx dy dw dh : Z) (c : Canvas)
  : Canvas :=
  mkCanvas (canvasWidth c) (canvasHeight c)
    (fun x y =>
       let u := sx + (x - dx) in
       let v := sy + (y - dy) in
       if inside (canvasWidth c) (canvasHeight c) x y &&
          inSpan dx dw x && inSpan dy dh y &&
          inSpan sx sw u && inSpan sy sh v &&
          inside (width image) (height image) u v
       then sourceOver (globalAlpha c) (pixelAt image u v) (canvasAt c x y)
       else canvasAt c x y)
    (globalAlpha c)
    (calls c ++ [mkDrawCall (globalAlpha c) image sx sy sw sh dx dy dw dh]).

(** [sanitizeCanvasDimension]. *)
Definition sanitizeCanvasDimension (value : Js.Value) (defaultValue : Z) : Z :=
  match value with
  | Js.Undefined | Js.Null => defaultValue
  | Js.NaN | Js.Infinity _ => defaultValue
  | Js.Num numValue =>
      let intValue := Qfloor numValue in
      let intValue := if intValue <? 1 then defaultValue else intValue in
      if intValue >? 32767 then 32767 else intValue
  end.

(** An entry of the [images] array: the decoded image with the metadata of
    its capture. *)
Record LoadedImage := mkLoadedImage {
  img : Image;
  capture : Capture
}.

(** "Calculate canvas dimensions": the loop over [images] from index 1. *)
Definition totalHeightOf (first : LoadedImage) (rest : list LoadedImage)
                         (overlapHeight : Z) : Z :=
  fold_left (fun totalHeight image =>
               totalHeight + (height (img image) - overlapHeight))
            rest (height (img first)).

(** "Draw images with overlap handling": the loop body for [images[i]] and
    the rest of the loop; the result is the canvas and the final
    [currentY]. *)
Fixpoint drawImages (canvasWidth overlapHeight : Z) (images : list LoadedImage)
                    (i currentY : Z) (ctx : Canvas) : Canvas * Z :=
  match images with
  | [] => (ctx, currentY)
  | image :: rest =>
      let drawHeight :=
        if i =? 0 then height (img image)
        else height (img image) - overlapHeight in
      let sourceY := if i =? 0 then 0 else overlapHeight in
      let ctx :=
        if i >? 0 then
          setGlobalAlpha 1
            (drawImage (img image)
               0 sourceY canvasWidth overlapHeight
               0 currentY canvasWidth overlapHeight
               (setGlobalAlpha (1 # 2) ctx))
        else ctx in
      let ctx :=
        drawImage (img image)
          0 sourceY canvasWidth
          (drawHeight - (if i >? 0 then overlapHeight else 0))
          0 (currentY + (if i >? 0 then overlapHeight else 0)) canvasWidth
          (drawHeight - (if i >? 0 then overlapHeight else 0))
          ctx in
      drawImages canvasWidth overlapHeight rest (i + 1) (currentY + drawHeight) ctx
  end.

(** What the offscreen document can refuse to the stitcher:
    [getContext('2d')] on a canvas of a given width and height, which gives
    a context or [null], and [convertToBlob], which resolves with the PNG of
    the canvas or rejects with an error. *)
Record CanvasHost := mkCanvasHost {
  host_getContext : Z -> Z -> bool;
  host_convertToBlob : Canvas -> Result unit
}.

Section WithDecoder.

(** [loadImageFromDataUrl]: the browser's image decoder. *)
Variable loadImageFromDataUrl : string -> Result Image.

(** "Load all images". *)
Fixpoint loadImages (captures : list Capture) : Result (list LoadedImage) :=
  match captures with
  | [] => Ok []
  | c :: rest =>
      match loadImageFromDataUrl (blob c) with
      | Throw msg => Throw msg
      | Ok image =>
          match loadImages rest with
          | Throw msg => Throw msg
          | Ok images => Ok (mkLoadedImage image c :: images)
          end
      end
  end.

(** [stitchCapturedViewports] in a document that gives the 2D context and
    encodes the PNG; the canvas stands for the PNG encoded from it.  A
    capture's [blob] field is the [dataUrl] of the message.  The function
    with the two failures of the canvas is [stitchCapturedViewportsIn]
    below. *)
Definition stitchCapturedViewports (captures : list Capture) (overlapHeight : Z)
  : Result Canvas :=
  let body :=
    match captures with
    | [] => Throw "No captures to stitch"
    | _ =>
        match loadImages captures with
        | Throw msg => Throw msg
        | Ok [] => Throw "Cannot read properties of undefined"
        | Ok (first :: rest) =>
            let canvasWidth := width (img first) in
            let totalHeight := totalHeightOf first rest overlapHeight in
            let sanitizedWidth :=
              sanitizeCanvasDimension (Js.Num (inject_Z canvasWidth)) 800 in
            let sanitizedHeight :=
              sanitizeCanvasDimension (Js.Num (inject_Z totalHeight)) 600 in
            let ctx := newCanvas sanitizedWidth sanitizedHeight in
            Ok (fst (drawImages canvasWidth overlapHeight (first :: rest) 0 0 ctx))
        end
    end in
  match body with
  | Ok canvas => Ok canvas
  | Throw msg => Throw ("Failed to stitch captures: " ++ msg)
  end.

(** [stitchCapturedViewports] in a document [host], with every [throw] of
    its [try] block: no capture, a capture that does not load, no canvas
    context, a PNG encoding that is rejected. *)
Definition stitchCapturedViewportsIn (host : CanvasHost)
    (captures : list Capture) (overlapHeight : Z) : Result Canvas :=
  let body :=
    match captures with
    | [] => Throw "No captures to stitch"
    | _ =>
        match loadImages captures with
        | Throw msg => Throw msg
        | Ok [] => Throw "Cannot read properties of undefined"
        | Ok (first :: rest) =>
            let canvasWidth := width (img first) in
            let totalHeight := totalHeightOf first rest overlapHeight in
            let sanitizedWidth :=
              sanitizeCanvasDimension (Js.Num (inject_Z canvasWidth)) 800 in
            let sanitizedHeight :=
              sanitizeCanvasDimension (Js.Num (inject_Z totalHeight)) 600 in
            if negb (host_getContext host sanitizedWidth sanitizedHeight) then
              Throw "Failed to get canvas context"
            else
              let ctx := newCanvas sanitizedWidth sanitizedHeight in
              let outputCanvas :=
                fst (drawImages canvasWidth overlapHeight (first :: rest) 0 0 ctx) in
              match host_convertToBlob host outputCanvas with
              | Throw msg => Throw msg
              | Ok _ => Ok outputCanvas
              end
        end
    end in
  match body with
  | Ok canvas => Ok canvas
  | Throw msg => Throw ("Failed to stitch captures: " ++ msg)
  end.

End WithDecoder.

End Offscreen.

(* ------------------------------------------------------------------ *)
(** ** Observations on a run *)

(** What one tracker write carries: session, status, message, progress. *)
Definition TrackerWrite : Type := (string * string * string * option Z)%type.

(** The numeric progress values written, in order. *)
Fixpoint progressWrites (evs : list Event) : list Z :=
  match evs with
  | [] => []
  | EvNotify _ _ _ (Some p) :: rest => p :: progressWrites rest
  | _ :: rest => progressWrites rest
  end.

(** The state-clearing timeouts scheduled, in order. *)
Fixpoint timersOf (evs : list Event) : list (Z * string) :=
  match evs with
  | [] => []
  | EvSetTimeout ms sid :: rest => (ms, sid) :: timersOf rest
  | _ :: rest => timersOf rest
  end.

(** The most recent tracker write among the events, if any. *)
Fixpoint lastWriteFrom (acc : option TrackerWrite) (evs : list Event) : option TrackerWrite :=
  match evs with
  | [] => acc
  | EvNotify sid st msg p :: rest => lastWriteFrom (Some (sid, st, msg, p)) rest
  | _ :: rest => lastWriteFrom acc rest
  end.

Definition lastWrite (evs : list Event) : option TrackerWrite := lastWriteFrom None evs.

(** The tracker record holds exactly the write [n]. *)
Definition holds (c : option CaptureState) (n : TrackerWrite) : Prop :=
  let '(sid, st, msg, p) := n in
  exists t, c = Some (mkCaptureState sid st msg p t).

(** How the tracker record [c'] after the events relates to the record [c]
    before them: it holds the last write, or is unchanged without one. *)
Definition tracks (c c' : option CaptureState) (evs : list Event) : Prop :=
  match lastWrite evs with
  | Some n => holds c' n
  | None => c' = c
  end.

(** [w'] is reached from [w] by the calls [evs]. *)
Definition Run (w w' : World) (evs : list Event) : Prop :=
  trace w' = trace w ++ evs /\
  timers w' = timers w ++ timersOf evs /\
  tracks (currentCaptureState w) (currentCaptureState w') evs.

(** Every run of [c] makes calls [evs] that, with the outcome, satisfy [P]. *)
Definition Does {A} (c : M A) (P : list Event -> Result A -> Prop) : Prop :=
  forall w, exists evs, Run w (snd (c w)) evs /\ P evs (fst (c w)).

(** Events that neither write the tracker nor schedule a timeout. *)
Definition quiet (e : Event) : Prop :=
  match e with
  | EvNotify _ _ _ _ | EvSetTimeout _ _ => False
  | _ => True
  end.

(** Computations that make only quiet calls. *)
Definition Quiet {A} (c : M A) : Prop := Does c (fun evs _ => Forall quiet evs).

Fixpoint nondecreasing (l : list Z) : bool :=
  match l with
  | a :: (b :: _) as rest => (a <=? b) && nondecreasing rest
  | _ => true
  end.

(** The progress values of the first [k] iterations of the capture loop. *)
Definition loopProgress (numCaptures : Z) (k : nat) : list Z :=
  map (fun i => Background.progressOf (Z.of_nat i) numCaptures) (seq 0 k).

(** The percentage as the nearest integer to the exact 100 i / numCaptures,
    ties upwards: what [Background.progressOf] is compared with. *)
Definition exactPercentage (i numCaptures : Z) : Z :=
  Js.mathRound ((inject_Z i / inject_Z numCaptures) * 100)%Q.

(** A check over every pair of a loop index and a planned count that the
    capture loop can reach: [0 <= i < numCaptures <= 100]. *)
Definition allLoopIndices (check : Z -> Z -> bool) : bool :=
  forallb (fun n => forallb (fun i => check (Z.of_nat i) (Z.of_nat n)) (seq 0 n))
          (seq 1 100).

(** The planned number of captures of a session in the browser [env]. *)
Definition plannedCount (env : Env) : Z :=
  match env_dims env with
  | Ok d => Background.numCapturesOf (dims_scrollHeight d) (dims_viewportHeight d)
  | Throw _ => 1
  end.

(** The world after one [captureVisibleTab] call. *)
Definition grabbed (w : World) : World := countGrab (emit EvCaptureVisibleTab w).

(** The world after the one-second backoff of the retry loop. *)
Definition backedOff (w : World) : World := advance 1000 (emit (EvSleep 1000) w).

(** The world in iteration [i] of the capture loop when the screenshot is
    about to be taken: the tracker was written, the page scrolled, and the
    600 ms settle delay has passed. *)
Definition settled (sid : string) (numCaptures i vpHeight : Z) (w : World) : World :=
  let msg := ("Capturing viewport " ++ Js.showZ (i + 1) ++ "/" ++
              Js.showZ numCaptures ++ "...")%string in
  let p := Some (Background.progressOf i numCaptures) in
  advance 600
    (emit (EvSleep 600)
       (countScroll
          (emit (EvScrollTo (i * (vpHeight - Background.OVERLAP_HEIGHT)))
             (emit (EvNotify sid "capturing" msg p)
                (setCurrent (Some (mkCaptureState sid "capturing" msg p (clock w)))
                            w))))).

(** What a run of the capture loop from iteration [s] with [fuel]
    iterations left does: it schedules no timeout, writes the progress of
    the [k] iterations it enters, and, when it does not throw, has recorded
    the planned scroll positions. *)
Definition loopPost (scrollHeight vpHeight numCaptures : Z) (s fuel : nat)
    (captures : list Capture) (evs : list Event) (r : Result (list Capture))
  : Prop :=
  timersOf evs = [] /\
  exists k,
    (k <= fuel)%nat /\
    progressWrites evs =
      map (fun j => Background.progressOf (Z.of_nat j) numCaptures) (seq s k) /\
    forall captures',
      r = Ok captures' ->
      map scrollY captures' =
      map scrollY captures ++
      Background.offsetsFrom fuel (Z.of_nat s) scrollHeight vpHeight.

(** What the collection (steps 0 to 2) does. *)
Definition collectPost (env : Env) (evs : list Event)
    (r : Result (list Capture * Dims)) : Prop :=
  timersOf evs = [] /\
  exists k,
    (k <= Z.to_nat (plannedCount env))%nat /\
    progressWrites evs = loopProgress (plannedCount env) k /\
    forall captures d,
      r = Ok (captures, d) ->
      env_dims env = Ok d /\ captures <> [] /\
      map scrollY captures =
      Background.offsets (dims_scrollHeight d) (dims_viewportHeight d).

(** What [scrollAndStitchCapture] does: the stitching update, 95, follows
    the loop's values and is reached whenever the function returns. *)
Definition stitchPost (env : Env) (evs : list Event)
    (r : Result StitchResponse) : Prop :=
  timersOf evs = [] /\
  exists k,
    (k <= Z.to_nat (plannedCount env))%nat /\
    match r with
    | Ok _ => progressWrites evs = loopProgress (plannedCount env) k ++ [95]
    | Throw _ =>
        progressWrites evs = loopProgress (plannedCount env) k \/
        progressWrites evs = loopProgress (plannedCount env) k ++ [95]
    end.

(** What the [try] block of [startCapture] does: when it returns, the last
    write is the completion and one clearing timeout was scheduled; when it
    throws, no timeout was scheduled. *)
Definition sessionPost (env : Env) (sid : string) (evs : list Event)
    (r : Result unit) : Prop :=
  exists k,
    (k <= Z.to_nat (plannedCount env))%nat /\
    match r with
    | Ok _ =>
        progressWrites evs = loopProgress (plannedCount env) k ++ [95; 100] /\
        timersOf evs = [(5000, sid)] /\
        lastWrite evs = Some (sid, "completed", "Capture complete!", Some 100)
    | Throw _ =>
        timersOf evs = [] /\
        (progressWrites evs = loopProgress (plannedCount env) k \/
         progressWrites evs = loopProgress (plannedCount env) k ++ [95])
    end.

(** What [startCapture] does. *)
Definition startPost (env : Env) (evs : list Event) (r : Result string) : Prop :=
  let sid := env_sessionId env in
  r = Ok sid /\
  exists k,
    (k <= Z.to_nat (plannedCount env))%nat /\
    ((progressWrites evs = loopProgress (plannedCount env) k ++ [95; 100] /\
      timersOf evs = [(5000, sid)] /\
      lastWrite evs = Some (sid, "completed", "Capture complete!", Some 100)) \/
     (exists msg,
        (progressWrites evs = loopProgress (plannedCount env) k \/
         progressWrites evs = loopProgress (plannedCount env) k ++ [95]) /\
        timersOf evs = [] /\
        lastWrite evs =
        Some (sid, "error", String.append "Capture failed: " msg, None))).

(** The sum the specification gives for the canvas height. *)
Definition specCanvasHeight (heights : list Z) (overlapHeight : Z) : Z :=
  match heights with
  | [] => 0
  | h0 :: rest => h0 + fold_right Z.add 0 (map (fun h => h - overlapHeight) rest)
  end.

(* ------------------------------------------------------------------ *)
(** ** Sample browsers and frames *)

Module Sample.

Definition tab : Tab := mkTab (Some 7) (Some "https://example.org/") (Some "Example").

Definition internalTab : Tab := mkTab (Some 8) (Some "chrome://settings") (Some "Settings").

(** A browser where every call succeeds: the page scrolls where asked (at
    most to [maxScroll]) and the k-th screenshot is ["png"] followed by k. *)
Definition browser (t : Tab) (d : Dims) (maxScroll : Z)
                   (grab : nat -> Result string) : Env :=
  mkEnv "k3x9q" [t] true (Ok tt) (Ok d)
        (fun _ y => Ok (mkScrollResult true (Z.min y maxScroll)))
        grab
        true (Ok tt)
        (fun _ _ => Ok (Some (mkStitchResponse true "blob:stitched" None)))
        (Ok tt) DEFAULT_CONFIG.

Definition grabOk (k : nat) : Result string :=
  Ok (String.append "png" (Js.showZ (Z.of_nat k))).

Definition quotaMessage : string :=
  "This request exceeds the MAX_CAPTURE_VISIBLE_TAB_CALLS_PER_SECOND quota.".

(** The first [failures] screenshots are refused for quota reasons. *)
Definition grabAfterQuota (failures : nat) (k : nat) : Result string :=
  if (k <? failures)%nat then Throw quotaMessage else grabOk k.

Definition page (scrollHeight viewportHeight : Z) : Dims :=
  mkDims true scrollHeight viewportHeight 1280 0.

(** A frame whose pixel at column [x], row [y] is [(tag, x, y)]. *)
Definition frame (tag w h : Z) : Offscreen.Image :=
  Offscreen.mkImage w h (fun x y => Offscreen.mkRgb tag x y).

(** A decoder that knows four data URLs: two frames 800 wide and 1000
    high, and two tall ones. *)
Definition decoder (dataUrl : string) : Result Offscreen.Image :=
  if String.eqb dataUrl "frameA" then Ok (frame 1 800 1000)
  else if String.eqb dataUrl "frameB" then Ok (frame 2 800 1000)
  else if String.eqb dataUrl "tallA" then Ok (frame 3 800 20000)
  else if String.eqb dataUrl "tallB" then Ok (frame 4 800 20075)
  else Throw "Failed to load image".

Definition captured (dataUrl : string) (y : Z) : Capture :=
  mkCapture dataUrl y 1000 800 false.

End Sample.


(* ------------------------------------------------------------------ *)
(** ** Further observations *)

(** A capture as the loop records it for the page dimensions [d]: the
    viewport size of the page, a position within the page, and the last-frame
    flag computed from them. *)
Definition recordedFor (d : Dims) (c : Capture) : Prop :=
  viewportHeight c = dims_viewportHeight d /\
  viewportWidth c = dims_viewportWidth d /\
  isLastCapture c =
    (scrollY c + dims_viewportHeight d >=? dims_scrollHeight d) /\
  scrollY c <= dims_scrollHeight d - dims_viewportHeight d.

(** Every run of [c] makes at most [g] screenshot calls and at most [s]
    scroll requests. *)
Definition Calls {A} (g s : nat) (c : M A) : Prop :=
  forall w,
    (grabCalls w <= grabCalls (snd (c w)) <= grabCalls w + g)%nat /\
    (scrollCalls w <= scrollCalls (snd (c w)) <= scrollCalls w + s)%nat.

(** The sessions other than [sid] registered in [w'] are those of [w]. *)
Definition sameOthers (sid : string) (w w' : World) : Prop :=
  Background.mapDelete sid (activeSessions w') =
  Background.mapDelete sid (activeSessions w).

(** Every run of [c] relates the world before to the world after by [R]. *)
Definition Keeps {A} (R : World -> World -> Prop) (c : M A) : Prop :=
  forall w, R w (snd (c w)).

(** The destination rectangles of the draw calls follow one another down
    the canvas: each starts at the row where the previous one ended, from
    row [y] to row [yEnd]. *)
Fixpoint tiled (y : Z) (cs : list Offscreen.DrawCall) (yEnd : Z) : Prop :=
  match cs with
  | [] => y = yEnd
  | c :: rest => Offscreen.dy c = y /\ tiled (y + Offscreen.dh c) rest yEnd
  end.

(** A draw call that copies without scaling from the left edge of the image
    to the left edge of the canvas, fully opaque or at half opacity. *)
Definition plainCopy (cw : Z) (c : Offscreen.DrawCall) : Prop :=
  Offscreen.dw c = Offscreen.sw c /\ Offscreen.dh c = Offscreen.sh c /\
  Offscreen.sx c = 0 /\ Offscreen.dx c = 0 /\ Offscreen.sw c = cw /\
  (Offscreen.call_alpha c = 1%Q \/ Offscreen.call_alpha c = (1 # 2)%Q).

(* ------------------------------------------------------------------ *)
(** ** background.js: file names *)

Module Filename.

(** A JavaScript string as its sequence of UTF-16 code units, which is what
    the regular expressions of [sanitizeForFilename] (no [u] flag) read. *)
Definition JsString : Type := list Z.

Definition underscore : Z := 95.

(** The class of the first replacement: the characters < > : / \ | ? and
    the double quote and the asterisk, and the control characters 0x00 to
    0x1f. *)
Definition isInvalidChar (c : Z) : bool :=
  (c =? 60) || (c =? 62) || (c =? 58) || (c =? 34) || (c =? 47) ||
  (c =? 92) || (c =? 124) || (c =? 63) || (c =? 42) ||
  ((0 <=? c) && (c <=? 31)).

(** The class of white space of regular expressions: white space and line
    terminators. *)
Definition isWhiteSpace (c : Z) : bool :=
  ((9 <=? c) && (c <=? 13)) || (c =? 32) || (c =? 160) || (c =? 5760) ||
  ((8192 <=? c) && (c <=? 8202)) || (c =? 8232) || (c =? 8233) ||
  (c =? 8239) || (c =? 8287) || (c =? 12288) || (c =? 65279).

Definition isUnderscore (c : Z) : bool := c =? underscore.

(** Removing every character of a class, as the first replacement does. *)
Definition removeAll (class : Z -> bool) (s : JsString) : JsString :=
  filter (fun c => negb (class c)) s.

(** Replacing every maximal run of characters of a class by one
    underscore, as the second and third replacements do; [inRun] tells that
    the previous character belonged to a run. *)
Fixpoint replaceRuns (class : Z -> bool) (inRun : bool) (s : JsString) : JsString :=
  match s with
  | [] => []
  | c :: rest =>
      if class c then
        if inRun then replaceRuns class true rest
        else underscore :: replaceRuns class true rest
      else c :: replaceRuns class false rest
  end.

(** An underscore at the very end is removed. *)
Fixpoint dropTrailingUnderscore (s : JsString) : JsString :=
  match s with
  | [] => []
  | [c] => if isUnderscore c then [] else [c]
  | c :: rest => c :: dropTrailingUnderscore rest
  end.

(** The fourth replacement: an underscore at the start is removed, and one
    at the end of what follows it. *)
Definition trimUnderscores (s : JsString) : JsString :=
  match s with
  | c :: rest => if isUnderscore c then dropTrailingUnderscore rest
                 else dropTrailingUnderscore (c :: rest)
  | [] => []
  end.

(** [s.substring(0, maxLength)]. *)
Definition substring0 (maxLength : Z) (s : JsString) : JsString :=
  firstn (Z.to_nat maxLength) s.

(** [sanitizeForFilename]; [None] is a missing string ([undefined] or
    [null]), which like the empty string gives the empty string. *)
Definition sanitizeForFilename (str : option JsString) (maxLength : Z) : JsString :=
  match str with
  | None | Some [] => []
  | Some s =>
      substring0 maxLength
        (trimUnderscores
           (replaceRuns isUnderscore false
              (replaceRuns isWhiteSpace false
                 (removeAll isInvalidChar s))))
  end.

(** No two underscores next to each other. *)
Fixpoint noDoubleUnderscore (s : JsString) : Prop :=
  match s with
  | a :: (b :: _) as rest =>
      ~ (a = underscore /\ b = underscore) /\ noDoubleUnderscore rest
  | _ => True
  end.

(** A name that needs no change: only safe characters, no two underscores
    in a row, no underscore at either end. *)
Definition cleanName (s : JsString) : Prop :=
  Forall (fun c => isInvalidChar c = false /\ isWhiteSpace c = false) s /\
  noDoubleUnderscore s /\
  (forall c rest, s = c :: rest -> c <> underscore) /\
  List.last s 0 <> underscore.

(** The code units of an ASCII string. *)
Fixpoint ofAscii (s : string) : JsString :=
  match s with
  | EmptyString => []
  | String c rest => Z.of_nat (Ascii.nat_of_ascii c) :: ofAscii rest
  end.

End Filename.

(* ------------------------------------------------------------------ *)
(** ** contentScript.js: expanding collapsed content *)

Module ContentScript.

(** The alternatives of [expandButtonRegex]. *)
Definition expandPatterns : list string :=
  [ "show more"; "expand"; "view more"; "load more"; "see more"; "reveal";
    "unfold" ].

(** The alternatives of the regular expression of dangerous actions. *)
Definition dangerWords : list string :=
  [ "save"; "submit"; "delete"; "remove"; "cancel"; "close"; "exit" ].

(** [regex.test(text)] for a case-insensitive alternation of lower-case
    words, on a text that was lower-cased: some word occurs in the text. *)
Definition testAny (words : list string) (text : string) : bool :=
  existsb (fun word => Js.includes word text) words.

Definition maxClicks : Z := 50.

(** An element found by [querySelectorAll]: its text as the loop reads it
    ([textContent.toLowerCase().trim()]) and whether [scrollIntoView] or
    [click] throws on it. *)
Record Element := mkElement {
  elementText : string;
  scrollThrows : bool;
  clickThrows : bool
}.

(** What the loop does to the page, by position of the element. *)
Inductive DomEvent :=
| ScrollIntoView (index : nat)
| Wait (ms : Z)
| ClickElement (index : nat).

(** The loop [for (const element of elements)] of [expandElements], from
    the element at position [index] on. *)
Fixpoint expandLoop (elements : list Element) (index : nat) (clickedCount : Z)
                    (done : list DomEvent) : Z * list DomEvent :=
  match elements with
  | [] => (clickedCount, done)
  | element :: rest =>
      if clickedCount >=? maxClicks then (clickedCount, done)
      else
        let text := elementText element in
        if testAny expandPatterns text then
          if testAny dangerWords text then
            expandLoop rest (S index) clickedCount done
          else if scrollThrows element then
            expandLoop rest (S index) clickedCount
              (done ++ [ScrollIntoView index])
          else if clickThrows element then
            expandLoop rest (S index) clickedCount
              (done ++ [ScrollIntoView index; Wait 100; ClickElement index])
          else
            expandLoop rest (S index) (clickedCount + 1)
              (done ++ [ScrollIntoView index; Wait 100; ClickElement index;
                        Wait 500])
        else expandLoop rest (S index) clickedCount done
  end.

(** [expandElements]: the number of clicks that went through, and what was
    done to the page. *)
Definition expandElements (elements : list Element) : Z * list DomEvent :=
  expandLoop elements 0 0 [].

(** The positions of the elements touched (scrolled to or clicked). *)
Definition touched (e : DomEvent) : option nat :=
  match e with
  | ScrollIntoView i | ClickElement i => Some i
  | Wait _ => None
  end.

End ContentScript.

(* ------------------------------------------------------------------ *)
(** ** background.js: installation and messages *)

Module Listeners.

(** A settings object: keys with their values, which are booleans or
    numbers. *)
Inductive SettingValue :=
| BoolValue (b : bool)
| NumberValue (z : Z).

Definition Settings : Type := list (string * SettingValue).




(** A message received by the service worker. *)
Inductive Message :=
| START_CAPTURE (config : option Config)
| GET_CAPTURE_STATUS
| GET_CONFIG
| SET_CONFIG (config : Settings)
| OtherMessage (type : string).

(** The object passed to [sendResponse]. *)
Inductive Response :=
| CaptureStarted (sessionId : string)            (* {success: true, sessionId} *)
| CaptureNotStarted (error : string)             (* {success: false, error} *)
| CaptureStatus (captureState : option CaptureState)
| ConfigAnswer (config : Settings)
| ConfigSaved                                    (* {success: true} *)
| UnknownMessageType.                            (* {error: 'Unknown message type'} *)

(** The [chrome.runtime.onMessage] listener.  [stored] is what
    [chrome.storage.sync.get(DEFAULT_CONFIG)] answers; the result is the
    response, the world afterwards, and the object written to the storage if
    any. *)
Definition onMessage (env : Env) (stored : Settings) (message : Message)
                     (w : World) : Response * World * option Settings :=
  match message with
  | START_CAPTURE config =>
      let config := match config with Some c => c | None => DEFAULT_CONFIG end in
      match Background.startCapture env config w with
      | (Ok sessionId, w') => (CaptureStarted sessionId, w', None)
      | (Throw msg, w') => (CaptureNotStarted msg, w', None)
      end
  | GET_CAPTURE_STATUS => (CaptureStatus (currentCaptureState w), w, None)
  | GET_CONFIG => (ConfigAnswer stored, w, None)
  | SET_CONFIG config => (ConfigSaved, w, Some config)
  | OtherMessage _ => (UnknownMessageType, w, None)
  end.

End Listeners.

(* ------------------------------------------------------------------ *)
(** ** offscreen.js: the message listener *)

Module OffscreenListener.

(** The answer of the offscreen document to a [STITCH_CAPTURES] message:
    the blob URL of the stitched image, or the message of the error
    ([e.message || 'Failed to stitch captures']); the failure answer has no
    [success] field, which reads as false.  [createObjectURL] names the blob
    of a canvas. *)
Definition onStitchCaptures
    (loadImageFromDataUrl : string -> Result Offscreen.Image)
    (createObjectURL : Offscreen.Canvas -> string)
    (captures : list Capture) (overlapHeight : Z) : StitchResponse :=
  match Offscreen.stitchCapturedViewports loadImageFromDataUrl captures
          overlapHeight with
  | Ok canvas => mkStitchResponse true (createObjectURL canvas) None
  | Throw msg =>
      mkStitchResponse false ""
        (Some (match msg with
               | EmptyString => "Failed to stitch captures"
               | _ => msg
               end))
  end.

End OffscreenListener.

(* ------------------------------------------------------------------ *)
(** ** background.js: the keyboard shortcut in the event loop *)

Module EventLoop.

Import Background.

(** [startCapture] is an async function: at an [await] it gives the control
    back, and other listeners of the service worker run before it goes on.
    The hotkey path is taken apart where it waits before its first tracker
    write, and once after it:
    - the command listener checks the tracker and calls
      [chrome.storage.sync.get], whose callback calls [startCapture];
    - [startCapture] waits at [await getCurrentTab()];
    - with the answer it checks the tab, registers the session and writes
      its first record, up to the first call it awaits next ([stabilizeDOM]
      or [scrollAndStitchCapture]); from that call on the session is run in
      one piece. *)

Section WithBrowser.

Variable env : Env.

(** The [try] block from the answer of the tab query to the first awaited
    call after it. *)
Definition afterTabAnswer (config : Config) (sid : string) : M unit :=
  tab <- getCurrentTab env ;;
  match tab_id tab with
  | None | Some 0 => throw "Tab ID not available"
  | Some id =>
      if negb (isCapturableUrl (tab_url tab)) then
        updateCaptureState sid "error" notCapturableMessage None ;;;
        throw "URL not capturable"
      else
        registerSession sid id ;;;
        updateCaptureState sid "started" "Starting capture..." None ;;;
        (if preCapture config then
           updateCaptureState sid "stabilizing" "Stabilizing DOM..." None
         else ret tt)
  end.

(** The [try] block from that call on. *)
Definition restOfSession (config : Config) (sid : string) : M unit :=
  (if preCapture config then
     stabilizeDOM (preCaptureMaxDuration config) ;;;
     sleep 500
   else ret tt) ;;;
  stitchResult <- scrollAndStitchCapture env sid ;;
  updateCaptureState sid "downloading" "Downloading image..." None ;;;
  download env (pngBlobUrl stitchResult) ;;;
  updateCaptureState sid "completed" "Capture complete!" (Some 100) ;;;
  setTimeoutClear 5000 sid.

End WithBrowser.

(** The [catch] and [finally] blocks of [startCapture], around a part of
    its [try] block. *)
Definition settle (sid : string) (part : M unit) : M unit :=
  finally
    (tryCatch part
       (fun msg =>
          updateCaptureState sid "error" (String.append "Capture failed: " msg)
                             None))
    (retireSession sid).

(** What the service worker is waiting for.  The [Env] is the browser as
    the session of that command sees it, with the session identifier it
    draws. *)
Inductive Pending :=
| StorageAnswer (env : Env)
| TabAnswer (env : Env) (config : Config)
| AwaitedCall (env : Env) (config : Config).

(** One turn of the event loop: a [capture-page] command is delivered to
    the command listener, or the [k]-th pending answer arrives. *)
Inductive Turn :=
| HotkeyPressed (env : Env)
| Resumes (k : nat).

Definition State : Type := (World * list Pending)%type.

(** The command listener, up to its call of [chrome.storage.sync.get]. *)
Definition pressHotkey (env : Env) (s : State) : State :=
  if captureInProgress (fst s) then s
  else (fst s, snd s ++ [StorageAnswer env]).

(** The continuation of a pending answer: the world afterwards and what
    the session waits for next, if it goes on. *)
Definition resume (p : Pending) (w : World) : World * list Pending :=
  match p with
  | StorageAnswer env => (w, [TabAnswer env (env_storedConfig env)])
  | TabAnswer env config =>
      let sid := env_sessionId env in
      match afterTabAnswer env config sid w with
      | (Ok _, w') => (w', [AwaitedCall env config])
      | (Throw msg, w') => (snd (settle sid (throw msg) w'), [])
      end
  | AwaitedCall env config =>
      let sid := env_sessionId env in
      (snd (settle sid (restOfSession env config sid) w), [])
  end.

Fixpoint removeNth {A} (k : nat) (l : list A) : list A :=
  match l, k with
  | [], _ => []
  | _ :: rest, O => rest
  | a :: rest, S k' => a :: removeNth k' rest
  end.

Definition turn (s : State) (t : Turn) : State :=
  match t with
  | HotkeyPressed env => pressHotkey env s
  | Resumes k =>
      match nth_error (snd s) k with
      | None => s
      | Some p =>
          let (w', next) := resume p (fst s) in
          (w', removeNth k (snd s) ++ next)
      end
  end.

Definition run (turns : list Turn) (s : State) : State :=
  fold_left turn turns s.

End EventLoop.
(* ------------------------------------------------------------------ *)
(** ** The capture plan *)

Section PlanFacts.

Import Background.

Lemma numCapturesOf_fits (scrollHeight viewportHeight : Z) :
  scrollHeight <= viewportHeight ->
  numCapturesOf scrollHeight viewportHeight = 1.
Proof.
  intros Hle. unfold numCapturesOf.
  destruct (scrollHeight >? viewportHeight) eqn:E; [lia | reflexivity].
Qed.

Lemma numCapturesOf_max (scrollHeight viewportHeight : Z) :
  numCapturesOf scrollHeight viewportHeight <= MAX_CAPTURES.
Proof.
  unfold numCapturesOf.
  destruct (scrollHeight >? viewportHeight);
    [destruct (viewportHeight - OVERLAP_HEIGHT =? 0)|]; lia.
Qed.

(** A page shorter than the viewport: the first position, 0, already lies
    beyond [scrollHeight - viewportHeight]. *)
Lemma offsets_shorter_page (scrollHeight viewportHeight : Z) :
  scrollHeight < viewportHeight -> offsets scrollHeight viewportHeight = [].
Proof.
  intros Hlt. unfold offsets.
  rewrite numCapturesOf_fits by lia.
  change (Z.to_nat 1) with 1%nat. cbn [offsetsFrom]. rewrite Z.mul_0_l.
  destruct (0 >? scrollHeight - viewportHeight) eqn:E; [reflexivity | lia].
Qed.

Lemma offsets_exact_page (viewportHeight : Z) :
  offsets viewportHeight viewportHeight = [0].
Proof.
  unfold offsets. rewrite numCapturesOf_fits by lia.
  change (Z.to_nat 1) with 1%nat. cbn [offsetsFrom]. rewrite Z.mul_0_l.
  destruct (0 >? viewportHeight - viewportHeight) eqn:E; [lia | reflexivity].
Qed.

End PlanFacts.

(* ------------------------------------------------------------------ *)
(** ** The stitcher *)

Section StitchFacts.

Import Offscreen.

Lemma sanitize_integer (z defaultValue : Z) :
  defaultValue <= 32767 ->
  sanitizeCanvasDimension (Js.Num (inject_Z z)) defaultValue =
  if z <? 1 then defaultValue else Z.min z 32767.
Proof.
  intros Hd. unfold sanitizeCanvasDimension. rewrite Qfloor_Z.
  destruct (z <? 1) eqn:E1.
  - destruct (defaultValue >? 32767) eqn:E2; lia.
  - destruct (z >? 32767) eqn:E2; lia.
Qed.

Lemma sanitize_range (v : Js.Value) (defaultValue : Z) :
  1 <= defaultValue <= 32767 ->
  1 <= sanitizeCanvasDimension v defaultValue <= 32767.
Proof.
  intros Hd. destruct v as [| | | b | q]; cbn; try lia.
  destruct (Qfloor q <? 1) eqn:E1.
  - destruct (defaultValue >? 32767) eqn:E2; lia.
  - destruct (Qfloor q >? 32767) eqn:E2; lia.
Qed.

Lemma sanitize_nonpositive (q : Q) (defaultValue : Z) :
  (q <= 0)%Q -> defaultValue <= 32767 ->
  sanitizeCanvasDimension (Js.Num q) defaultValue = defaultValue.
Proof.
  intros Hq Hd. unfold sanitizeCanvasDimension.
  assert (Hf : Qfloor q <= 0).
  { change 0 with (Qfloor (inject_Z 0)). now apply Qfloor_resp_le. }
  destruct (Qfloor q <? 1) eqn:E1; [|lia].
  destruct (defaultValue >? 32767) eqn:E2; lia.
Qed.

Lemma totalHeightOf_sum (first : LoadedImage) (rest : list LoadedImage) (ov : Z) :
  totalHeightOf first rest ov =
  specCanvasHeight (map (fun i => height (img i)) (first :: rest)) ov.
Proof.
  unfold totalHeightOf, specCanvasHeight. cbn [map].
  generalize (height (img first)) as acc.
  induction rest as [|im rest IH]; intros acc; cbn.
  - lia.
  - rewrite IH. lia.
Qed.

Lemma drawImage_size image a b c d e f g h ctx :
  canvasWidth (drawImage image a b c d e f g h ctx) = canvasWidth ctx /\
  canvasHeight (drawImage image a b c d e f g h ctx) = canvasHeight ctx.
Proof. split; reflexivity. Qed.

Lemma drawImages_size (cw ov : Z) (images : list LoadedImage) :
  forall i y ctx,
    canvasWidth (fst (drawImages cw ov images i y ctx)) = canvasWidth ctx /\
    canvasHeight (fst (drawImages cw ov images i y ctx)) = canvasHeight ctx.
Proof.
  induction images as [|im images IH]; intros i y ctx; cbn [drawImages].
  - split; reflexivity.
  - match goal with
    | |- context [drawImages _ _ _ ?i' ?y' ?c'] => destruct (IH i' y' c') as [Hw Hh]
    end.
    rewrite Hw, Hh. destruct (i >? 0); split; reflexivity.
Qed.

(** A draw at [globalAlpha] 1 puts the source pixel on the canvas. *)
Lemma sourceOver_opaque (src : Rgb) (dst : Rgba) :
  sourceOver 1 src dst = opaque src.
Proof.
  unfold sourceOver, opaque.
  change (Qfloor (255 * 1 + (1 # 2))) with 255.
  replace (255 - 255) with 0 by lia.
  rewrite !Z.mul_0_r. change (0 / 255) with 0. rewrite !Z.add_0_r.
  change (255 =? 0) with false. cbv iota.
  rewrite !Z.div_mul by lia. destruct src; reflexivity.
Qed.

Lemma loadImages_cons decode c rest image images :
  decode (blob c) = Ok image ->
  loadImages decode rest = Ok images ->
  loadImages decode (c :: rest) = Ok (mkLoadedImage image c :: images).
Proof. intros H1 H2. cbn. now rewrite H1, H2. Qed.

End StitchFacts.

Section StitchClaims.

Import Offscreen.

(** C2 (evaluation of the code): for two frames, the stitcher draws frame 0
    in full at y = 0; then, of frame 1, the source rows from [overlapHeight]
    to [2 * overlapHeight] at half opacity at y = height(frame 0), that is
    below the previous frame and not over its bottom rows, and the source
    rows from [overlapHeight] to [height - overlapHeight] opaquely from
    y = height(frame 0) + overlapHeight.  The first and the last
    [overlapHeight] rows of frame 1 are not drawn. *)
Theorem C2_second_frame_draw_calls
    (decode : string -> Result Image) (c0 c1 : Capture) (i0 i1 : Image)
    (overlapHeight : Z) :
  decode (blob c0) = Ok i0 ->
  decode (blob c1) = Ok i1 ->
  exists canvas,
    stitchCapturedViewports decode [c0; c1] overlapHeight = Ok canvas /\
    calls canvas =
      [ mkDrawCall 1 i0 0 0 (width i0) (height i0)
                        0 0 (width i0) (height i0);
        mkDrawCall (1 # 2) i1 0 overlapHeight (width i0) overlapHeight
                              0 (height i0) (width i0) overlapHeight;
        mkDrawCall 1 i1 0 overlapHeight (width i0)
                        (height i1 - overlapHeight - overlapHeight)
                        0 (height i0 + overlapHeight) (width i0)
                        (height i1 - overlapHeight - overlapHeight) ].
Proof.
  intros H0 H1. unfold stitchCapturedViewports.
  rewrite (loadImages_cons decode c0 [c1] i0 [mkLoadedImage i1 c1] H0)
    by (apply loadImages_cons; [exact H1 | reflexivity]).
  eexists. split; [reflexivity|].
  cbn. rewrite !Z.sub_0_r. reflexivity.
Qed.

Lemma C2_second_frame_draw_calls_witness :
  exists canvas,
    stitchCapturedViewports Sample.decoder
      [Sample.captured "frameA" 0; Sample.captured "frameB" 925] 75 = Ok canvas /\
    map (fun c => (call_alpha c, sy c, sh c, dy c)) (calls canvas) =
      [ (1%Q, 0, 1000, 0); ((1 # 2)%Q, 75, 75, 1000); (1%Q, 75, 850, 1075) ].
Proof.
  destruct (C2_second_frame_draw_calls Sample.decoder
              (Sample.captured "frameA" 0) (Sample.captured "frameB" 925)
              (Sample.frame 1 800 1000) (Sample.frame 2 800 1000) 75
              eq_refl eq_refl) as [canvas [Hs Hc]].
  exists canvas. split; [exact Hs|]. rewrite Hc. reflexivity.
Defined.

(** C3: for a non-empty list of frames that decode, stitching succeeds and
    the canvas height is the sum height(frame 0) + sum over i > 0 of
    (height(frame i) - overlapHeight), capped at 32767, or the default 600
    when the sum is below 1; it always lies in [1, 32767].  A requested
    height of 40000 gives 32767.  Undefined, null, non-finite and
    non-positive dimensions give the default (800 for the width, 600 for
    the height). *)
Theorem C3_canvas_height_clamped
    (decode : string -> Result Image) (captures : list Capture)
    (first : LoadedImage) (rest : list LoadedImage) (overlapHeight : Z) :
  loadImages decode captures = Ok (first :: rest) ->
  let total :=
    specCanvasHeight (map (fun i => height (img i)) (first :: rest))
                     overlapHeight in
  (exists canvas,
     stitchCapturedViewports decode captures overlapHeight = Ok canvas /\
     canvasHeight canvas = (if total <? 1 then 600 else Z.min total 32767) /\
     1 <= canvasHeight canvas <= 32767) /\
  sanitizeCanvasDimension (Js.Num 40000) 600 = 32767 /\
  (forall d, d = 800 \/ d = 600 ->
     sanitizeCanvasDimension Js.Undefined d = d /\
     sanitizeCanvasDimension Js.Null d = d /\
     sanitizeCanvasDimension Js.NaN d = d /\
     sanitizeCanvasDimension (Js.Infinity false) d = d /\
     sanitizeCanvasDimension (Js.Infinity true) d = d /\
     forall q, (q <= 0)%Q -> sanitizeCanvasDimension (Js.Num q) d = d).
Proof.
  intros Hload total. split; [|split].
  - unfold stitchCapturedViewports. rewrite Hload.
    destruct captures as [|c captures]; [discriminate Hload|].
    eexists. split; [reflexivity|].
    match goal with
    | |- context [drawImages ?a ?b ?l ?i ?y ?c'] =>
        destruct (drawImages_size a b l i y c') as [_ Hh]
    end.
    rewrite Hh. cbn [canvasHeight newCanvas].
    rewrite totalHeightOf_sum. fold total.
    rewrite sanitize_integer by lia.
    split; [reflexivity|]. destruct (total <? 1) eqn:E; lia.
  - reflexivity.
  - intros d Hd. repeat split; try reflexivity.
    intros q Hq. apply sanitize_nonpositive; [exact Hq | lia].
Qed.

Lemma C3_canvas_height_clamped_witness :
  exists canvas,
    stitchCapturedViewports Sample.decoder
      [Sample.captured "tallA" 0; Sample.captured "tallB" 19925] 75 = Ok canvas /\
    specCanvasHeight [20000; 20075] 75 = 40000 /\
    canvasHeight canvas = 32767.
Proof.
  destruct (C3_canvas_height_clamped Sample.decoder
              [Sample.captured "tallA" 0; Sample.captured "tallB" 19925]
              (mkLoadedImage (Sample.frame 3 800 20000) (Sample.captured "tallA" 0))
              [mkLoadedImage (Sample.frame 4 800 20075) (Sample.captured "tallB" 19925)]
              75 eq_refl) as [[canvas [Hs [Hh _]]] _].
  exists canvas. split; [exact Hs|]. split; [reflexivity|]. exact Hh.
Defined.

(** C9: a single frame whose dimensions are within [1, 32767] is stitched
    into a canvas of the frame's size by one opaque draw of the whole frame
    at (0, 0), with no translucent draw, and every canvas pixel is the
    frame's pixel. *)
Theorem C9_single_frame_identical
    (decode : string -> Result Image) (c : Capture) (image : Image)
    (overlapHeight : Z) :
  decode (blob c) = Ok image ->
  1 <= width image <= 32767 ->
  1 <= height image <= 32767 ->
  exists canvas,
    stitchCapturedViewports decode [c] overlapHeight = Ok canvas /\
    canvasWidth canvas = width image /\
    canvasHeight canvas = height image /\
    calls canvas =
      [ mkDrawCall 1 image 0 0 (width image) (height image)
                           0 0 (width image) (height image) ] /\
    forall x y,
      0 <= x < width image -> 0 <= y < height image ->
      canvasAt canvas x y = opaque (pixelAt image x y).
Proof.
  intros Hdec Hw Hh. unfold stitchCapturedViewports.
  rewrite (loadImages_cons decode c [] image [] Hdec eq_refl).
  eexists. split; [reflexivity|].
  cbn [fst drawImages img Z.eqb Z.gtb Z.compare].
  rewrite !Z.sub_0_r, !Z.add_0_r.
  cbn [canvasWidth canvasHeight calls canvasAt drawImage newCanvas globalAlpha app].
  unfold totalHeightOf. cbn [fold_left img].
  rewrite !sanitize_integer by lia.
  destruct (width image <? 1) eqn:Ew; [lia|].
  destruct (height image <? 1) eqn:Eh; [lia|].
  split; [lia|]. split; [lia|]. split; [reflexivity|].
  intros x y Hx Hy. rewrite sourceOver_opaque.
  replace (0 + (x - 0)) with x by lia. replace (0 + (y - 0)) with y by lia.
  unfold inside, inSpan.
  replace (Z.min (width image) 32767) with (width image) by lia.
  replace (Z.min (height image) 32767) with (height image) by lia.
  destruct (0 <=? x) eqn:E1; [|lia]. destruct (x <? width image) eqn:E2; [|lia].
  destruct (0 <=? y) eqn:E3; [|lia]. destruct (y <? height image) eqn:E4; [|lia].
  replace (0 + width image) with (width image) by lia.
  replace (0 + height image) with (height image) by lia.
  rewrite E2, E4. reflexivity.
Qed.

Lemma C9_single_frame_identical_witness :
  exists canvas,
    stitchCapturedViewports Sample.decoder [Sample.captured "frameA" 0] 75 = Ok canvas /\
    canvasWidth canvas = 800 /\ canvasHeight canvas = 1000 /\
    canvasAt canvas 799 999 = opaque (mkRgb 1 799 999).
Proof.
  destruct (C9_single_frame_identical Sample.decoder
              (Sample.captured "frameA" 0) (Sample.frame 1 800 1000) 75
              eq_refl ltac:(cbn; lia) ltac:(cbn; lia))
    as [canvas [Hs [Hw [Hh [_ Hpx]]]]].
  exists canvas. split; [exact Hs|]. split; [exact Hw|]. split; [exact Hh|].
  apply (Hpx 799 999); cbn; lia.
Defined.

End StitchClaims.

(* ------------------------------------------------------------------ *)
(** ** The retry policy of the screenshot *)

Section RetryFacts.

Import Background.

Variable env : Env.

Lemma captureWithRetry_success (retries : nat) (w : World) (dataUrl : string) :
  env_captureVisibleTab env (grabCalls w) = Ok dataUrl ->
  captureWithRetry env (S retries) w = (Ok (Some dataUrl), grabbed w).
Proof. intros H. cbn. unfold captureVisibleTab. now rewrite H. Qed.

Lemma captureWithRetry_quota (retries : nat) (w : World) (msg : string) :
  env_captureVisibleTab env (grabCalls w) = Throw msg ->
  Js.includes "quota" msg = true ->
  captureWithRetry env (S (S retries)) w =
  captureWithRetry env (S retries) (backedOff (grabbed w)).
Proof.
  intros H Hq. cbn [captureWithRetry]. unfold captureVisibleTab at 1.
  rewrite H, Hq. reflexivity.
Qed.

Lemma captureWithRetry_exhausted (w : World) (msg : string) :
  env_captureVisibleTab env (grabCalls w) = Throw msg ->
  captureWithRetry env 1 w = (Throw msg, grabbed w).
Proof.
  intros H. cbn. unfold captureVisibleTab. rewrite H.
  now rewrite andb_false_r.
Qed.

Lemma captureWithRetry_other (retries : nat) (w : World) (msg : string) :
  env_captureVisibleTab env (grabCalls w) = Throw msg ->
  Js.includes "quota" msg = false ->
  captureWithRetry env (S retries) w = (Throw msg, grabbed w).
Proof.
  intros H Hq. cbn [captureWithRetry]. unfold captureVisibleTab.
  rewrite H, Hq. reflexivity.
Qed.

(** The retry loop makes at least one and at most [retries] calls. *)
Lemma captureWithRetry_calls (retries : nat) :
  forall w,
    (grabCalls w + 1 <= grabCalls (snd (captureWithRetry env (S retries) w))
     <= grabCalls w + S retries)%nat.
Proof.
  induction retries as [|r IH]; intros w.
  - destruct (env_captureVisibleTab env (grabCalls w)) as [u|m] eqn:E.
    + rewrite (captureWithRetry_success _ _ _ E). cbn. lia.
    + rewrite (captureWithRetry_exhausted _ _ E). cbn. lia.
  - destruct (env_captureVisibleTab env (grabCalls w)) as [u|m] eqn:E.
    + rewrite (captureWithRetry_success _ _ _ E). cbn. lia.
    + destruct (Js.includes "quota" m) eqn:Eq.
      * rewrite (captureWithRetry_quota _ _ _ E Eq).
        specialize (IH (backedOff (grabbed w))). cbn in IH |- *. lia.
      * rewrite (captureWithRetry_other _ _ _ E Eq). cbn. lia.
Qed.

End RetryFacts.

Section LoopFacts.

Import Background.

Variable env : Env.
Variables (sid : string) (scrollHeight vpHeight vpWidth numCaptures : Z).

(** One iteration of the capture loop whose scroll request succeeds. *)
Lemma captureLoop_step (fuel : nat) (i : Z) (captures : list Capture)
                       (w : World) (sr : ScrollResult) :
  i * (vpHeight - OVERLAP_HEIGHT) <= scrollHeight - vpHeight ->
  env_scroll env (scrollCalls w) (i * (vpHeight - OVERLAP_HEIGHT)) = Ok sr ->
  scroll_success sr = true ->
  captureLoop env sid scrollHeight vpHeight vpWidth numCaptures (S fuel) i captures w =
  match captureWithRetry env 3 (settled sid numCaptures i vpHeight w) with
  | (Ok (Some dataUrl), w') =>
      captureLoop env sid scrollHeight vpHeight vpWidth numCaptures fuel (i + 1)
        (captures ++
         [mkCapture dataUrl (i * (vpHeight - OVERLAP_HEIGHT)) vpHeight vpWidth
            (i * (vpHeight - OVERLAP_HEIGHT) + vpHeight >=? scrollHeight)]) w'
  | (Ok None, w') => (Throw "Failed to fetch", w')
  | (Throw msg, w') => (Throw msg, w')
  end.
Proof.
  intros Hguard Hscroll Hok. cbn [captureLoop].
  destruct (i * (vpHeight - OVERLAP_HEIGHT) >? scrollHeight - vpHeight) eqn:E; [lia|].
  unfold bind at 1. unfold updateCaptureState at 1. unfold notifyPopup, modify.
  unfold bind at 1. unfold sendScrollTo at 1. cbn [scrollCalls emit setCurrent].
  rewrite Hscroll, Hok. cbn [negb].
  unfold bind at 1. unfold sleep at 1. unfold modify.
  unfold bind at 1. fold (settled sid numCaptures i vpHeight w).
  destruct (captureWithRetry env 3 (settled sid numCaptures i vpHeight w))
    as [[[u|]|m] w'] eqn:Eg; try reflexivity.
Qed.

End LoopFacts.

Section RetryClaim.

Import Background.

(** C5: the screenshot of one loop iteration is tried at most 3 times.  With
    two quota failures followed by a success, [captureVisibleTab] is invoked
    exactly 3 times, a one-second backoff follows each of the two failures,
    and the frame is appended to the captures; a third failure in a row
    makes the loop, and so the whole collection, throw; a quota failure with
    retries left is followed by the one-second backoff and another attempt;
    a failure that is not a quota failure is thrown at once. *)
Theorem C5_retry_policy
    (env : Env) (sid : string)
    (scrollHeight vpHeight vpWidth numCaptures : Z)
    (fuel : nat) (i : Z) (captures : list Capture)
    (w0 : World) (sr : ScrollResult) :
  i * (vpHeight - OVERLAP_HEIGHT) <= scrollHeight - vpHeight ->
  env_scroll env (scrollCalls w0) (i * (vpHeight - OVERLAP_HEIGHT)) = Ok sr ->
  scroll_success sr = true ->
  let w := settled sid numCaptures i vpHeight w0 in
  let g := grabCalls w0 in
  let grab := env_captureVisibleTab env in
  let quota := fun r => exists m, r = Throw m /\ Js.includes "quota" m = true in
  let loop := captureLoop env sid scrollHeight vpHeight vpWidth numCaptures in
  let w3 := grabbed (backedOff (grabbed (backedOff (grabbed w)))) in
  (g + 1 <= grabCalls (snd (captureWithRetry env 3 w)) <= g + 3)%nat /\
  grabCalls w3 = (g + 3)%nat /\
  trace w3 = trace w ++ [EvCaptureVisibleTab; EvSleep 1000;
                         EvCaptureVisibleTab; EvSleep 1000;
                         EvCaptureVisibleTab] /\
  (forall dataUrl,
     quota (grab g) -> quota (grab (S g)) -> grab (S (S g)) = Ok dataUrl ->
     captureWithRetry env 3 w = (Ok (Some dataUrl), w3) /\
     loop (S fuel) i captures w0 =
     loop fuel (i + 1)
       (captures ++
        [mkCapture dataUrl (i * (vpHeight - OVERLAP_HEIGHT)) vpHeight vpWidth
           (i * (vpHeight - OVERLAP_HEIGHT) + vpHeight >=? scrollHeight)]) w3) /\
  (forall msg,
     quota (grab g) -> quota (grab (S g)) -> grab (S (S g)) = Throw msg ->
     captureWithRetry env 3 w = (Throw msg, w3) /\
     loop (S fuel) i captures w0 = (Throw msg, w3)) /\
  (forall retries wk msg,
     grab (grabCalls wk) = Throw msg -> Js.includes "quota" msg = true ->
     captureWithRetry env (S (S retries)) wk =
     captureWithRetry env (S retries) (backedOff (grabbed wk))) /\
  (forall retries wk msg,
     grab (grabCalls wk) = Throw msg -> Js.includes "quota" msg = false ->
     captureWithRetry env (S retries) wk = (Throw msg, grabbed wk)) /\
  (forall msg,
     grab g = Throw msg -> Js.includes "quota" msg = false ->
     loop (S fuel) i captures w0 = (Throw msg, grabbed w)).
Proof.
  intros Hguard Hscroll Hok w g grab quota loop w3.
  assert (Hg : grabCalls w = g) by reflexivity.
  assert (Hthree : forall r,
            quota (grab g) -> quota (grab (S g)) -> grab (S (S g)) = r ->
            captureWithRetry env 3 w =
            (match r with Ok u => Ok (Some u) | Throw m => Throw m end, w3)).
  { intros r [m1 [E1 Q1]] [m2 [E2 Q2]] E3.
    rewrite (captureWithRetry_quota env 1 w m1) by (rewrite ?Hg; assumption).
    rewrite (captureWithRetry_quota env 0 _ m2) by (cbn; assumption).
    destruct r as [u|m].
    - now rewrite (captureWithRetry_success env 0 _ u) by (cbn; assumption).
    - now rewrite (captureWithRetry_exhausted env _ m) by (cbn; assumption). }
  split; [|split; [|split; [|split; [|split; [|split; [|split]]]]]].
  - pose proof (captureWithRetry_calls env 2 w) as H. rewrite Hg in H. exact H.
  - cbn. lia.
  - cbn. rewrite <- !app_assoc. reflexivity.
  - intros u Q1 Q2 E3. pose proof (Hthree _ Q1 Q2 E3) as H. split; [exact H|].
    unfold loop. rewrite (captureLoop_step env sid _ _ _ _ fuel i captures w0 sr)
      by assumption.
    fold w. rewrite H. reflexivity.
  - intros m Q1 Q2 E3. pose proof (Hthree _ Q1 Q2 E3) as H. split; [exact H|].
    unfold loop. rewrite (captureLoop_step env sid _ _ _ _ fuel i captures w0 sr)
      by assumption.
    fold w. rewrite H. reflexivity.
  - intros retries wk m E Q. now apply (captureWithRetry_quota env retries wk m).
  - intros retries wk m E Q. now apply (captureWithRetry_other env retries wk m).
  - intros m E Q. unfold loop.
    rewrite (captureLoop_step env sid _ _ _ _ fuel i captures w0 sr) by assumption.
    fold w. rewrite (captureWithRetry_other env 2 w m) by (rewrite ?Hg; assumption).
    reflexivity.
Qed.

Lemma C5_retry_policy_witness :
  let env := Sample.browser Sample.tab (Sample.page 3000 1000) 2000
                            (Sample.grabAfterQuota 2) in
  let w := settled "s" 4 0 1000 initialWorld in
  captureWithRetry env 3 w =
    (Ok (Some "png2"), grabbed (backedOff (grabbed (backedOff (grabbed w))))) /\
  grabCalls (snd (captureWithRetry env 3 w)) = 3%nat.
Proof.
  intros env w.
  destruct (C5_retry_policy env "s" 3000 1000 1280 4 3 0 [] initialWorld
              (mkScrollResult true 0)
              ltac:(cbn; lia) eq_refl eq_refl)
    as [_ [Hcount [_ [Htwo _]]]].
  destruct (Htwo "png2") as [Hrun _].
  - exists Sample.quotaMessage. split; reflexivity.
  - exists Sample.quotaMessage. split; reflexivity.
  - reflexivity.
  - split; [exact Hrun|]. fold w in Hrun. rewrite Hrun. exact Hcount.
Defined.

End RetryClaim.

(* ------------------------------------------------------------------ *)
(** ** Reasoning about runs *)

Section RunFacts.

Lemma progressWrites_app (a b : list Event) :
  progressWrites (a ++ b) = progressWrites a ++ progressWrites b.
Proof.
  induction a as [|e a IH]; [reflexivity|].
  destruct e as [sid st msg [p|]| | | | | | | | | | |]; cbn; now rewrite ?IH.
Qed.

Lemma timersOf_app (a b : list Event) :
  timersOf (a ++ b) = timersOf a ++ timersOf b.
Proof.
  induction a as [|e a IH]; [reflexivity|].
  destruct e; cbn; now rewrite ?IH.
Qed.

Lemma lastWriteFrom_app (a b : list Event) :
  forall acc, lastWriteFrom acc (a ++ b) = lastWriteFrom (lastWriteFrom acc a) b.
Proof.
  induction a as [|e a IH]; intros acc; [reflexivity|].
  destruct e; cbn; apply IH.
Qed.

Lemma lastWriteFrom_acc (b : list Event) :
  forall acc,
    lastWriteFrom acc b =
    match lastWrite b with Some n => Some n | None => acc end.
Proof.
  unfold lastWrite. induction b as [|e b IH]; intros acc; [reflexivity|].
  destruct e; cbn; try apply IH.
  rewrite IH.
  destruct (lastWriteFrom None b); reflexivity.
Qed.

Lemma lastWrite_app (a b : list Event) :
  lastWrite (a ++ b) =
  match lastWrite b with Some n => Some n | None => lastWrite a end.
Proof.
  unfold lastWrite at 1. rewrite lastWriteFrom_app. apply lastWriteFrom_acc.
Qed.

Lemma quiet_progressWrites (evs : list Event) :
  Forall quiet evs -> progressWrites evs = [].
Proof.
  induction 1 as [|e evs He _ IH]; [reflexivity|].
  destruct e; cbn in *; try contradiction; exact IH.
Qed.

Lemma quiet_timersOf (evs : list Event) :
  Forall quiet evs -> timersOf evs = [].
Proof.
  induction 1 as [|e evs He _ IH]; [reflexivity|].
  destruct e; cbn in *; try contradiction; exact IH.
Qed.

Lemma quiet_lastWrite (evs : list Event) :
  Forall quiet evs -> lastWrite evs = None.
Proof.
  unfold lastWrite. induction 1 as [|e evs He _ IH]; [reflexivity|].
  destruct e; cbn in *; try contradiction; exact IH.
Qed.

Lemma tracks_trans (c0 c1 c2 : option CaptureState) (e1 e2 : list Event) :
  tracks c0 c1 e1 -> tracks c1 c2 e2 -> tracks c0 c2 (e1 ++ e2).
Proof.
  unfold tracks. rewrite lastWrite_app.
  destruct (lastWrite e2) as [n2|]; [tauto|].
  intros H1 H2. subst c2. exact H1.
Qed.

Lemma Run_refl (w : World) : Run w w [].
Proof.
  unfold Run, tracks. cbn. rewrite !app_nil_r. auto.
Qed.

Lemma Run_trans (w0 w1 w2 : World) (e1 e2 : list Event) :
  Run w0 w1 e1 -> Run w1 w2 e2 -> Run w0 w2 (e1 ++ e2).
Proof.
  intros [T1 [M1 S1]] [T2 [M2 S2]]. unfold Run.
  rewrite T2, T1, M2, M1, timersOf_app, !app_assoc.
  repeat split. eapply tracks_trans; eassumption.
Qed.

(** A quiet call. *)
Lemma Run_emit (e : Event) (w : World) : quiet e -> Run w (emit e w) [e].
Proof.
  intros Hq. unfold Run, tracks.
  rewrite quiet_timersOf, quiet_lastWrite by (constructor; [exact Hq | constructor]).
  cbn. rewrite app_nil_r. auto.
Qed.

Lemma Run_same (w w' : World) :
  trace w' = trace w -> timers w' = timers w ->
  currentCaptureState w' = currentCaptureState w -> Run w w' [].
Proof.
  intros H1 H2 H3. unfold Run, tracks. cbn. rewrite !app_nil_r. auto.
Qed.

End RunFacts.

Section DoesRules.

Context {A B : Type}.

Lemma Does_conseq (c : M A) (P Q : list Event -> Result A -> Prop) :
  Does c P -> (forall evs r, P evs r -> Q evs r) -> Does c Q.
Proof.
  intros H HPQ w. destruct (H w) as [evs [HR HP]]. exists evs. auto.
Qed.

Lemma Does_ret (a : A) : Does (ret a) (fun evs r => evs = [] /\ r = Ok a).
Proof. intros w. exists []. cbn. auto using Run_refl. Qed.

Lemma Does_throw (msg : string) :
  Does (@throw A msg) (fun evs r => evs = [] /\ r = Throw msg).
Proof. intros w. exists []. cbn. auto using Run_refl. Qed.

Lemma Does_liftResult (x : Result A) :
  Does (liftResult x) (fun evs r => evs = [] /\ r = x).
Proof. intros w. exists []. cbn. auto using Run_refl. Qed.

Lemma Does_bind (c : M A) (k : A -> M B)
    (P : list Event -> Result A -> Prop)
    (Q : A -> list Event -> Result B -> Prop) :
  Does c P -> (forall a, Does (k a) (Q a)) ->
  Does (bind c k)
    (fun evs r =>
       (exists msg, r = Throw msg /\ P evs (Throw msg)) \/
       (exists a e1 e2, evs = e1 ++ e2 /\ P e1 (Ok a) /\ Q a e2 r)).
Proof.
  intros Hc Hk w. unfold bind.
  destruct (Hc w) as [e1 [R1 P1]].
  destruct (c w) as [[a|msg] w1] eqn:E; cbn in R1, P1.
  - destruct (Hk a w1) as [e2 [R2 Q2]].
    exists (e1 ++ e2). split; [eapply Run_trans; eassumption|].
    right. exists a, e1, e2. auto.
  - exists e1. cbn. split; [exact R1|]. left. exists msg. auto.
Qed.

Lemma Does_tryCatch (c : M A) (handler : string -> M A)
    (P : list Event -> Result A -> Prop)
    (Q : string -> list Event -> Result A -> Prop) :
  Does c P -> (forall msg, Does (handler msg) (Q msg)) ->
  Does (tryCatch c handler)
    (fun evs r =>
       (exists a, r = Ok a /\ P evs (Ok a)) \/
       (exists msg e1 e2, evs = e1 ++ e2 /\ P e1 (Throw msg) /\ Q msg e2 r)).
Proof.
  intros Hc Hh w. unfold tryCatch.
  destruct (Hc w) as [e1 [R1 P1]].
  destruct (c w) as [[a|msg] w1] eqn:E; cbn in R1, P1.
  - exists e1. cbn. split; [exact R1|]. left. exists a. auto.
  - destruct (Hh msg w1) as [e2 [R2 Q2]].
    exists (e1 ++ e2). split; [eapply Run_trans; eassumption|].
    right. exists msg, e1, e2. auto.
Qed.

Lemma Does_finally (c : M A) (f : World -> World)
    (P : list Event -> Result A -> Prop) :
  Does c P -> (forall w, Run w (f w) []) -> Does (finally c f) P.
Proof.
  intros Hc Hf w. unfold finally.
  destruct (Hc w) as [e1 [R1 P1]].
  destruct (c w) as [r w1] eqn:E; cbn in R1, P1 |- *.
  exists e1. split; [|exact P1].
  rewrite <- (app_nil_r e1). eapply Run_trans; [exact R1 | apply Hf].
Qed.

End DoesRules.

Section QuietRules.

Context {A B : Type}.

Lemma Quiet_ret (a : A) : Quiet (ret a).
Proof. eapply Does_conseq; [apply Does_ret|]. intros evs r [-> _]. constructor. Qed.

Lemma Quiet_throw (msg : string) : Quiet (@throw A msg).
Proof. eapply Does_conseq; [apply Does_throw|]. intros evs r [-> _]. constructor. Qed.

Lemma Quiet_liftResult (x : Result A) : Quiet (liftResult x).
Proof.
  eapply Does_conseq; [apply Does_liftResult|]. intros evs r [-> _]. constructor.
Qed.

Lemma Quiet_bind (c : M A) (k : A -> M B) :
  Quiet c -> (forall a, Quiet (k a)) -> Quiet (bind c k).
Proof.
  intros Hc Hk. eapply Does_conseq;
    [apply (Does_bind c k _ (fun _ evs _ => Forall quiet evs) Hc Hk)|].
  intros evs r [[msg [_ H]] | [a [e1 [e2 [-> [H1 H2]]]]]]; cbn in *.
  - exact H.
  - apply Forall_app. auto.
Qed.

Lemma Quiet_tryCatch (c : M A) (handler : string -> M A) :
  Quiet c -> (forall msg, Quiet (handler msg)) -> Quiet (tryCatch c handler).
Proof.
  intros Hc Hh. eapply Does_conseq;
    [apply (Does_tryCatch c handler _ (fun _ evs _ => Forall quiet evs) Hc Hh)|].
  intros evs r [[a [_ H]] | [msg [e1 [e2 [-> [H1 H2]]]]]]; cbn in *.
  - exact H.
  - apply Forall_app. auto.
Qed.

End QuietRules.

Section Primitives.

Import Background.

Variable env : Env.

Lemma Quiet_emit (e : Event) : quiet e -> Quiet (modify (emit e)).
Proof.
  intros Hq w. exists [e]. split; [now apply Run_emit|].
  constructor; [exact Hq | constructor].
Qed.

Lemma Quiet_sleep (ms : Z) : Quiet (sleep ms).
Proof.
  intros w. exists [EvSleep ms]. split.
  - apply (Run_emit (EvSleep ms) w I).
  - repeat constructor.
Qed.

Lemma Quiet_sendScrollTo (y : Z) : Quiet (sendScrollTo env y).
Proof.
  intros w. exists [EvScrollTo y]. split.
  - apply (Run_emit (EvScrollTo y) w I).
  - repeat constructor.
Qed.

Lemma Quiet_captureVisibleTab : Quiet (captureVisibleTab env).
Proof.
  intros w. exists [EvCaptureVisibleTab]. split.
  - apply (Run_emit EvCaptureVisibleTab w I).
  - repeat constructor.
Qed.

Lemma Quiet_captureWithRetry (retries : nat) : Quiet (captureWithRetry env retries).
Proof.
  induction retries as [|r IH]; [apply Quiet_ret|].
  intros w. cbn [captureWithRetry].
  destruct (Quiet_captureVisibleTab w) as [e1 [R1 Q1]].
  destruct (captureVisibleTab env w) as [[u|m] w1]; cbn in R1.
  - exists e1. auto.
  - destruct (Js.includes "quota" m && (0 <? Z.of_nat r)).
    + destruct (Quiet_bind (sleep 1000) (fun _ => captureWithRetry env r)
                  (Quiet_sleep 1000) (fun _ => IH) w1) as [e2 [R2 Q2]].
      exists (e1 ++ e2). split; [eapply Run_trans; eassumption|].
      apply Forall_app. auto.
    + exists e1. auto.
Qed.

Lemma Quiet_fetchBlob (d : option string) : Quiet (fetchBlob d).
Proof. destruct d; [apply Quiet_ret | apply Quiet_throw]. Qed.

Lemma Quiet_ensureContentScript : Quiet (ensureContentScript env).
Proof.
  unfold ensureContentScript.
  apply Quiet_bind; [apply Quiet_emit; exact I|]. intros _.
  destruct (env_ping env); [apply Quiet_ret|].
  apply Quiet_bind; [apply Quiet_emit; exact I|]. intros _.
  destruct (env_inject env); [|apply Quiet_throw].
  apply Quiet_bind; [apply Quiet_sleep|]. intros _. apply Quiet_ret.
Qed.

Lemma Quiet_getCurrentTab : Quiet (getCurrentTab env).
Proof.
  unfold getCurrentTab. destruct (env_tabs env); [apply Quiet_throw | apply Quiet_ret].
Qed.

Lemma Quiet_createOffscreenDocument : Quiet (createOffscreenDocument env).
Proof.
  unfold createOffscreenDocument.
  destruct (env_hasOffscreen env); [apply Quiet_ret|].
  apply Quiet_bind; [apply Quiet_emit; exact I|]. intros _.
  destruct (env_createDocument env) as [|m]; [apply Quiet_sleep|].
  destruct (Js.includes "already exists" m); [apply Quiet_ret | apply Quiet_throw].
Qed.

Lemma Quiet_sendToOffscreen (captures : list Capture) (ov : Z) :
  Quiet (sendToOffscreen env captures ov).
Proof.
  unfold sendToOffscreen.
  apply Quiet_bind; [apply Quiet_emit; exact I|]. intros _.
  apply Quiet_bind; [apply Quiet_liftResult|]. intros [r|];
    [apply Quiet_ret | apply Quiet_throw].
Qed.

Lemma Quiet_stabilizeDOM (maxDuration : Z) : Quiet (stabilizeDOM maxDuration).
Proof. apply Quiet_emit. exact I. Qed.

Lemma Quiet_download (url : string) : Quiet (download env url).
Proof.
  unfold download. apply Quiet_bind; [apply Quiet_emit; exact I|].
  intros _. apply Quiet_liftResult.
Qed.

(** A tracker write. *)
Lemma Does_updateCaptureState (sid st msg : string) (p : option Z) :
  Does (updateCaptureState sid st msg p)
       (fun evs r => evs = [EvNotify sid st msg p] /\ r = Ok tt).
Proof.
  intros w. exists [EvNotify sid st msg p]. split; [|auto].
  unfold Run, tracks. cbn. rewrite app_nil_r. repeat split.
  exists (clock w). reflexivity.
Qed.

Lemma Does_setTimeoutClear (ms : Z) (sid : string) :
  Does (setTimeoutClear ms sid)
       (fun evs r => evs = [EvSetTimeout ms sid] /\ r = Ok tt).
Proof.
  intros w. exists [EvSetTimeout ms sid]. split; [|auto].
  unfold Run, tracks. cbn. auto.
Qed.

End Primitives.

(* ------------------------------------------------------------------ *)
(** ** Progress arithmetic *)

Section ProgressFacts.

Import Background.

(** A check that passes on every reachable pair holds at each of them. *)
Lemma allLoopIndices_at (check : Z -> Z -> bool) :
  allLoopIndices check = true ->
  forall i n, 0 <= i < n -> n <= MAX_CAPTURES -> check i n = true.
Proof.
  unfold allLoopIndices, MAX_CAPTURES. intros H i n Hi Hn.
  rewrite forallb_forall in H.
  specialize (H (Z.to_nat n)). rewrite in_seq in H.
  specialize (H ltac:(lia)). rewrite forallb_forall in H.
  specialize (H (Z.to_nat i)). rewrite in_seq in H.
  specialize (H ltac:(lia)). rewrite !Z2Nat.id in H by lia. exact H.
Qed.

(** The percentage rounded from the exact quotient, by integer division. *)
Lemma exactPercentage_div (i n : Z) :
  0 < n -> exactPercentage i n = (200 * i + n) / (2 * n).
Proof.
  intros Hn. unfold exactPercentage, Js.mathRound.
  rewrite Zdiv_Qdiv. apply Qfloor_comp.
  rewrite inject_Z_plus, !inject_Z_mult.
  assert (Hnz : ~ (inject_Z n == 0)%Q).
  { intros H. unfold Qeq in H. cbn in H. lia. }
  field. exact Hnz.
Qed.

(** The binary64 product can fall just below a half that the exact
    percentage reaches: 23 of 40 is 57.5, the code computes
    57.49999999999999 and writes 57. *)
Lemma progressOf_23_of_40 :
  progressOf 23 40 = 57 /\ exactPercentage 23 40 = 58 /\
  progressOf 46 80 = 57 /\ exactPercentage 46 80 = 58.
Proof. vm_compute. repeat split; reflexivity. Qed.

(** Within the loop's range the value written is the exact percentage or
    one below it. *)
Lemma progressOf_near_exact (i n : Z) :
  0 <= i < n -> n <= MAX_CAPTURES ->
  exactPercentage i n - 1 <= progressOf i n <= exactPercentage i n.
Proof.
  intros Hi Hn.
  assert (H : allLoopIndices
                (fun i n => (exactPercentage i n - 1 <=? progressOf i n) &&
                            (progressOf i n <=? exactPercentage i n)) = true)
    by (vm_compute; reflexivity).
  apply (allLoopIndices_at _ H i n Hi) in Hn.
  apply andb_true_iff in Hn. destruct Hn as [H1 H2].
  apply Z.leb_le in H1, H2. lia.
Qed.

Lemma progressOf_step (i n : Z) :
  0 <= i -> i + 1 < n -> n <= MAX_CAPTURES ->
  progressOf i n <= progressOf (i + 1) n.
Proof.
  intros Hi Hlt Hn.
  assert (H : allLoopIndices
                (fun i n => (n <=? i + 1) ||
                            (progressOf i n <=? progressOf (i + 1) n)) = true)
    by (vm_compute; reflexivity).
  apply (allLoopIndices_at _ H i n ltac:(lia)) in Hn.
  apply orb_true_iff in Hn. destruct Hn as [Hn | Hn].
  - apply Z.leb_le in Hn. lia.
  - apply Z.leb_le in Hn. exact Hn.
Qed.

Lemma progressOf_mono (i j n : Z) :
  0 <= i <= j -> j < n -> n <= MAX_CAPTURES ->
  progressOf i n <= progressOf j n.
Proof.
  intros Hij Hj Hn.
  replace j with (i + Z.of_nat (Z.to_nat (j - i))) in * by lia.
  induction (Z.to_nat (j - i)) as [|d IH].
  - replace (i + Z.of_nat 0) with i by lia. lia.
  - rewrite Nat2Z.inj_succ in *.
    replace (i + Z.succ (Z.of_nat d)) with (i + Z.of_nat d + 1) in * by lia.
    specialize (IH ltac:(lia) ltac:(lia)).
    pose proof (progressOf_step (i + Z.of_nat d) n ltac:(lia) ltac:(lia) Hn).
    lia.
Qed.

Lemma progressOf_below_100 (i n : Z) :
  0 <= i < n -> n <= MAX_CAPTURES -> 0 <= progressOf i n <= 99.
Proof.
  intros Hi Hn.
  assert (H : allLoopIndices
                (fun i n => (0 <=? progressOf i n) && (progressOf i n <=? 99))
              = true)
    by (vm_compute; reflexivity).
  apply (allLoopIndices_at _ H i n Hi) in Hn.
  apply andb_true_iff in Hn. destruct Hn as [H1 H2].
  apply Z.leb_le in H1, H2. lia.
Qed.

Lemma progressOf_upto_95 (i n : Z) :
  0 <= i < n -> n <= 22 -> progressOf i n <= 95.
Proof.
  intros Hi Hn.
  assert (H : allLoopIndices
                (fun i n => (22 <? n) || (progressOf i n <=? 95)) = true)
    by (vm_compute; reflexivity).
  pose proof (allLoopIndices_at _ H i n Hi ltac:(unfold MAX_CAPTURES; lia))
    as Hat.
  apply orb_true_iff in Hat. destruct Hat as [Hat | Hat].
  - apply Z.ltb_lt in Hat. lia.
  - apply Z.leb_le in Hat. exact Hat.
Qed.

End ProgressFacts.

Section SortedFacts.

Lemma nondecreasing_cons (a : Z) (l : list Z) :
  (forall b, In b l -> a <= b) -> nondecreasing l = true ->
  nondecreasing (a :: l) = true.
Proof.
  intros Hle Hl. destruct l as [|b l]; [reflexivity|].
  change (nondecreasing (a :: b :: l))
    with ((a <=? b) && nondecreasing (b :: l)).
  rewrite Hl, andb_true_r. apply Z.leb_le, Hle. now left.
Qed.

Lemma nondecreasing_tail (a : Z) (l : list Z) :
  nondecreasing (a :: l) = true -> nondecreasing l = true.
Proof.
  destruct l as [|b l]; [reflexivity|].
  change (nondecreasing (a :: b :: l))
    with ((a <=? b) && nondecreasing (b :: l)).
  intros H. apply andb_true_iff in H. tauto.
Qed.

Lemma nondecreasing_app (l1 l2 : list Z) :
  nondecreasing l1 = true -> nondecreasing l2 = true ->
  (forall a b, In a l1 -> In b l2 -> a <= b) ->
  nondecreasing (l1 ++ l2) = true.
Proof.
  induction l1 as [|a l1 IH]; intros H1 H2 Hle; [exact H2|].
  cbn [app]. apply nondecreasing_cons.
  - intros b Hb. apply in_app_or in Hb. destruct Hb as [Hb|Hb].
    + clear IH Hle H2. revert a H1 Hb.
      induction l1 as [|c l1 IH']; intros a H1 Hb; [contradiction|].
      change (nondecreasing (a :: c :: l1))
        with ((a <=? c) && nondecreasing (c :: l1)) in H1.
      apply andb_true_iff in H1.
      destruct H1 as [Hac Hrest]. apply Z.leb_le in Hac.
      destruct Hb as [<-|Hb]; [exact Hac|].
      specialize (IH' c Hrest Hb). lia.
    + apply Hle; [now left | exact Hb].
  - apply IH; [eapply nondecreasing_tail; exact H1 | exact H2 |].
    intros x y Hx Hy. apply Hle; [now right | exact Hy].
Qed.

Lemma nondecreasing_map_seq (f : nat -> Z) (k : nat) :
  forall s,
    (forall i j, (s <= i <= j)%nat -> (j < s + k)%nat -> f i <= f j) ->
    nondecreasing (map f (seq s k)) = true.
Proof.
  induction k as [|k IH]; intros s Hf; [reflexivity|].
  cbn [seq map]. apply nondecreasing_cons.
  - intros b Hb. apply in_map_iff in Hb. destruct Hb as [j [<- Hj]].
    apply in_seq in Hj. apply Hf; lia.
  - apply IH. intros i j Hij Hj. apply Hf; lia.
Qed.

End SortedFacts.

Section LoopProgressFacts.

Import Background.

Lemma loopProgress_bounds (n : Z) (k : nat) (p : Z) :
  Z.of_nat k <= n -> n <= MAX_CAPTURES -> In p (loopProgress n k) ->
  0 <= p <= 99.
Proof.
  intros Hk Hn Hp. unfold loopProgress in Hp.
  apply in_map_iff in Hp. destruct Hp as [i [<- Hi]]. apply in_seq in Hi.
  apply progressOf_below_100; lia.
Qed.

Lemma loopProgress_upto_95 (n : Z) (k : nat) (p : Z) :
  Z.of_nat k <= n -> n <= 22 -> In p (loopProgress n k) -> p <= 95.
Proof.
  intros Hk Hn Hp. unfold loopProgress in Hp.
  apply in_map_iff in Hp. destruct Hp as [i [<- Hi]]. apply in_seq in Hi.
  apply progressOf_upto_95; lia.
Qed.

Lemma loopProgress_nondecreasing (n : Z) (k : nat) :
  Z.of_nat k <= n -> n <= MAX_CAPTURES ->
  nondecreasing (loopProgress n k) = true.
Proof.
  intros Hk Hn. unfold loopProgress. apply nondecreasing_map_seq.
  intros i j Hij Hj. apply progressOf_mono; lia.
Qed.

End LoopProgressFacts.

(* ------------------------------------------------------------------ *)
(** ** The capture loop and the session, call by call *)

Section Sequencing.

Context {A B : Type}.

(** Sequencing, towards a given postcondition [R]. *)
Lemma Does_bind_wp (c : M A) (k : A -> M B)
    (P : list Event -> Result A -> Prop)
    (R : list Event -> Result B -> Prop) :
  Does c P ->
  (forall msg e, P e (Throw msg) -> R e (Throw msg)) ->
  (forall a, Does (k a) (fun e2 r => forall e1, P e1 (Ok a) -> R (e1 ++ e2) r)) ->
  Does (bind c k) R.
Proof.
  intros Hc Hthrow Hk.
  eapply Does_conseq; [apply (Does_bind c k P _ Hc Hk)|].
  intros evs r [[msg [-> HP]] | [a [e1 [e2 [-> [HP HQ]]]]]]; cbn in *; auto.
Qed.

End Sequencing.

Create HintDb posts.
#[local] Hint Unfold loopPost collectPost stitchPost sessionPost startPost : posts.

Ltac quiet_facts :=
  repeat match goal with
  | H : Forall quiet ?e |- _ =>
      try rewrite (quiet_timersOf e H);
      try rewrite (quiet_progressWrites e H);
      try rewrite (quiet_lastWrite e H);
      clear H
  end.

Ltac unfold_events :=
  intros; cbv beta in *;
  repeat match goal with
  | H : _ /\ _ |- _ => destruct H
  end;
  subst; autounfold with posts;
  rewrite ?timersOf_app, ?progressWrites_app;
  quiet_facts; cbn [timersOf progressWrites app].

Ltac after_update :=
  eapply Does_bind_wp;
  [ apply Does_updateCaptureState
  | let H := fresh in intros ? ? [_ H]; discriminate H
  | intros [] ].

Ltac after_quiet lemma :=
  eapply Does_bind_wp; [ apply lemma | | ].

Section LoopRun.

Import Background.

Variable env : Env.
Variables (sid : string) (scrollHeight vpHeight vpWidth numCaptures : Z).

Lemma captureLoop_does (fuel : nat) :
  forall (s : nat) (captures : list Capture),
    Does (captureLoop env sid scrollHeight vpHeight vpWidth numCaptures
            fuel (Z.of_nat s) captures)
         (loopPost scrollHeight vpHeight numCaptures s fuel captures).
Proof.
  induction fuel as [|fuel IH]; intros s captures.
  - eapply Does_conseq; [apply Does_ret|]. intros evs r [-> ->].
    split; [reflexivity|]. exists 0%nat. repeat split; [lia|].
    intros c' Hc. injection Hc as <-. cbn. now rewrite app_nil_r.
  - cbn [captureLoop offsetsFrom].
    destruct (Z.of_nat s * (vpHeight - OVERLAP_HEIGHT) >? scrollHeight - vpHeight)
      eqn:Eguard.
    + eapply Does_conseq; [apply Does_ret|]. intros evs r [-> ->].
      split; [reflexivity|]. exists 0%nat. repeat split; [lia|].
      intros c' Hc. injection Hc as <-. cbn [offsetsFrom]. rewrite Eguard.
      now rewrite app_nil_r.
    + after_update.
      after_quiet (Quiet_sendScrollTo env (Z.of_nat s * (vpHeight - OVERLAP_HEIGHT))).
      { unfold_events. split; [reflexivity|]. exists 1%nat.
        repeat split; [lia | discriminate]. }
      intros sr. destruct (negb (scroll_success sr)).
      { eapply Does_conseq; [apply Does_throw|]. intros evs r [-> ->].
        unfold_events. split; [reflexivity|]. exists 1%nat.
        repeat split; [lia | discriminate]. }
      after_quiet (Quiet_sleep 600).
      { unfold_events. split; [reflexivity|]. exists 1%nat.
        repeat split; [lia | discriminate]. }
      intros []. after_quiet (Quiet_captureWithRetry env 3).
      { unfold_events. split; [reflexivity|]. exists 1%nat.
        repeat split; [lia | discriminate]. }
      intros dataUrl. after_quiet (Quiet_fetchBlob dataUrl).
      { unfold_events. split; [reflexivity|]. exists 1%nat.
        repeat split; [lia | discriminate]. }
      intros blob.
      replace (Z.of_nat s + 1) with (Z.of_nat (S s)) by lia.
      eapply Does_conseq; [apply IH|].
      intros evs r [Ht [k [Hk [Hp Hc]]]]. unfold_events.
      rewrite Ht, Hp. split; [reflexivity|]. exists (S k).
      split; [lia|]. split; [reflexivity|].
      intros c' Hr. rewrite (Hc c' Hr), map_app, <- app_assoc.
      cbn [offsetsFrom]. rewrite Eguard.
      replace (Z.of_nat s + 1) with (Z.of_nat (S s)) by lia. reflexivity.
Qed.

End LoopRun.

Ltac stopped k :=
  split; [reflexivity|]; exists k;
  split; [lia|]; split; [reflexivity|]; intros; discriminate.

Section SessionRun.

Import Background.

Variable env : Env.

Lemma plannedCount_dims (d : Dims) :
  env_dims env = Ok d ->
  plannedCount env = numCapturesOf (dims_scrollHeight d) (dims_viewportHeight d).
Proof. intros H. unfold plannedCount. now rewrite H. Qed.

Lemma collectCaptures_does (sid : string) :
  Does (collectCaptures env sid) (collectPost env).
Proof.
  unfold collectCaptures.
  after_update.
  after_quiet (Quiet_ensureContentScript env).
  { unfold_events. stopped 0%nat. }
  intros b. after_update.
  after_quiet (Quiet_emit EvDims I).
  { unfold_events. stopped 0%nat. }
  intros [].
  eapply Does_bind_wp; [apply Does_liftResult | | ].
  { unfold_events. stopped 0%nat. }
  intros dims. destruct (negb (dims_success dims)).
  { eapply Does_conseq; [apply Does_throw|]. intros evs r [-> ->].
    unfold_events. stopped 0%nat. }
  eapply Does_bind_wp;
    [ apply (captureLoop_does env sid (dims_scrollHeight dims)
               (dims_viewportHeight dims) (dims_viewportWidth dims)
               (numCapturesOf (dims_scrollHeight dims) (dims_viewportHeight dims))
               (Z.to_nat (numCapturesOf (dims_scrollHeight dims)
                                        (dims_viewportHeight dims)))
               0%nat [])
    | | ].
  - intros msg e [Ht [k [Hk [Hp _]]]]. unfold_events.
    match goal with H : Ok dims = env_dims env |- _ => symmetry in H;
      rewrite (plannedCount_dims dims H) end.
    rewrite Ht, Hp, ?app_nil_r. split; [reflexivity|]. exists k.
    split; [exact Hk|]. split; [reflexivity|]. intros; discriminate.
  - intros captures.
    eapply Does_conseq.
    { instantiate (1 := fun evs r =>
        evs = [] /\
        r = match captures with
            | [] => Throw "No captures were collected"
            | _ => Ok (captures, dims)
            end).
      destruct captures; [apply Does_throw | apply Does_ret]. }
    intros evs r [-> Hr] e1 [Ht [k [Hk [Hp Hc]]]]. unfold_events.
    match goal with H : Ok dims = env_dims env |- _ => symmetry in H;
      rewrite (plannedCount_dims dims H); rename H into Hd end.
    rewrite Ht, Hp, ?app_nil_r. split; [reflexivity|]. exists k.
    split; [exact Hk|]. split; [reflexivity|].
    intros c d Hcd. destruct captures as [|c0 cs]; [discriminate|].
    injection Hcd as <- <-. split; [exact Hd|]. split; [discriminate|].
    rewrite (Hc _ eq_refl). reflexivity.
Qed.


Lemma Quiet_restoreScroll (y : Z) :
  Quiet (tryCatch (sendScrollTo env y ;;; ret tt) (fun _ => ret tt)).
Proof.
  apply Quiet_tryCatch; [|intros _; apply Quiet_ret].
  apply Quiet_bind; [apply Quiet_sendScrollTo | intros _; apply Quiet_ret].
Qed.

Lemma scrollAndStitchCapture_does (sid : string) :
  Does (scrollAndStitchCapture env sid) (stitchPost env).
Proof.
  unfold scrollAndStitchCapture.
  eapply Does_bind_wp; [apply (collectCaptures_does sid) | | ].
  { intros msg e [Ht [k [Hk [Hp _]]]]. split; [exact Ht|]. exists k.
    split; [exact Hk|]. left. exact Hp. }
  intros [captures dims].
  assert (Hstop : forall (e : list Event) (r : Result StitchResponse) msg,
            Forall quiet e -> r = Throw msg ->
            forall e1,
              e1 = [EvNotify sid "stitching" "Stitching captures together..."
                             (Some 95)] /\ Ok tt = Ok tt ->
              forall e2, collectPost env e2 (Ok (captures, dims)) ->
              stitchPost env (e2 ++ e1 ++ e) r).
  { intros e r msg Hq -> e1 [-> _] e2 [Ht [k [Hk [Hp _]]]].
    unfold stitchPost. rewrite ?timersOf_app, ?progressWrites_app. quiet_facts.
    cbn [timersOf progressWrites app]. rewrite Ht, Hp, ?app_nil_r.
    split; [reflexivity|]. exists k. split; [exact Hk|]. right. reflexivity. }
  after_update.
  after_quiet (Quiet_createOffscreenDocument env).
  { intros msg e Hq e1 H1 e2 H2. eapply Hstop; eauto. }
  intros [].
  after_quiet (Quiet_sendToOffscreen env captures OVERLAP_HEIGHT).
  { intros msg e Hq e0 Hq0 e1 H1 e2 H2. rewrite app_assoc.
    rewrite <- (app_assoc e2). eapply Hstop; eauto.
    apply Forall_app; auto. }
  intros stitchResult.
  destruct (stitch_error stitchResult) as [[|c rest]|].
  - after_quiet (Quiet_restoreScroll (dims_currentScrollY dims)).
    { intros msg e Hq e3 Hq3 e0 Hq0 e1 H1 e2 H2.
      replace (e2 ++ (e1 ++ e0) ++ e3 ++ e) with (e2 ++ e1 ++ (e0 ++ e3 ++ e))
        by now rewrite <- !app_assoc.
      eapply Hstop; eauto. repeat (apply Forall_app; split); auto. }
    intros []. eapply Does_conseq; [apply Does_ret|].
    intros evs r [-> ->] e4 Hq4 e3 Hq3 e0 Hq0 e1 [-> _] e2 [Ht [k [Hk [Hp _]]]].
    unfold stitchPost. rewrite ?timersOf_app, ?progressWrites_app. quiet_facts.
    cbn [timersOf progressWrites app]. rewrite Ht, Hp, ?app_nil_r.
    split; [reflexivity|]. exists k. split; [exact Hk|]. reflexivity.
  - eapply Does_conseq; [apply Does_throw|].
    intros evs r [-> ->] e3 Hq3 e0 Hq0 e1 [-> _] e2 [Ht [k [Hk [Hp _]]]].
    unfold stitchPost. rewrite ?timersOf_app, ?progressWrites_app. quiet_facts.
    cbn [timersOf progressWrites app]. rewrite Ht, Hp, ?app_nil_r.
    split; [reflexivity|]. exists k. split; [exact Hk|]. right. reflexivity.
  - after_quiet (Quiet_restoreScroll (dims_currentScrollY dims)).
    { intros msg e Hq e3 Hq3 e0 Hq0 e1 H1 e2 H2.
      replace (e2 ++ (e1 ++ e0) ++ e3 ++ e) with (e2 ++ e1 ++ (e0 ++ e3 ++ e))
        by now rewrite <- !app_assoc.
      eapply Hstop; eauto. repeat (apply Forall_app; split); auto. }
    intros []. eapply Does_conseq; [apply Does_ret|].
    intros evs r [-> ->] e4 Hq4 e3 Hq3 e0 Hq0 e1 [-> _] e2 [Ht [k [Hk [Hp _]]]].
    unfold stitchPost. rewrite ?timersOf_app, ?progressWrites_app. quiet_facts.
    cbn [timersOf progressWrites app]. rewrite Ht, Hp, ?app_nil_r.
    split; [reflexivity|]. exists k. split; [exact Hk|]. reflexivity.
Qed.


Lemma Quiet_registerSession (sid : string) (id : Z) :
  Quiet (registerSession sid id).
Proof.
  intros w. exists []. split; [|constructor].
  apply Run_same; reflexivity.
Qed.

Lemma retireSession_run (sid : string) (w : World) :
  Run w (retireSession sid w) [].
Proof. apply Run_same; reflexivity. Qed.

Lemma Quiet_stabilize (config : Config) (sid : string) :
  Does (if preCapture config
        then updateCaptureState sid "stabilizing" "Stabilizing DOM..." None ;;;
             stabilizeDOM (preCaptureMaxDuration config) ;;; sleep 500
        else ret tt)
       (fun evs _ => timersOf evs = [] /\ progressWrites evs = []).
Proof.
  destruct (preCapture config).
  - after_update.
    after_quiet (Quiet_stabilizeDOM (preCaptureMaxDuration config)).
    { unfold_events. auto. }
    intros []. eapply Does_conseq; [apply Quiet_sleep|].
    unfold_events. auto.
  - eapply Does_conseq; [apply Does_ret|]. intros evs r [-> _]. auto.
Qed.

Lemma captureSession_does (config : Config) (sid : string) :
  Does (captureSession env config sid) (sessionPost env sid).
Proof.
  unfold captureSession.
  after_quiet (Quiet_getCurrentTab env).
  { unfold_events. exists 0%nat. split; [lia|]. auto. }
  intros tab.
  assert (Hno : Does (@throw unit "Tab ID not available")
                  (fun e2 r => forall e1, Forall quiet e1 ->
                                          sessionPost env sid (e1 ++ e2) r)).
  { eapply Does_conseq; [apply Does_throw|]. intros evs r [-> ->].
    unfold_events. exists 0%nat. split; [lia|]. auto. }
  destruct (tab_id tab) as [[|id|id]|]; try exact Hno;
    (destruct (negb (isCapturableUrl (tab_url tab)));
     [ after_update; eapply Does_conseq; [apply Does_throw|];
       intros evs r [-> ->]; unfold_events; exists 0%nat; split; [lia|]; auto
     | ]).
  all: after_quiet (Quiet_registerSession sid (Z.pos id)) ||
       after_quiet (Quiet_registerSession sid (Z.neg id)).
  all: try (unfold_events; exists 0%nat; split; [lia|]; auto; fail).
  all: intros []; after_update.
  all: eapply Does_bind_wp; [apply (Quiet_stabilize config sid) | | ].
  all: try (intros msg e [Ht Hp]; unfold_events; rewrite Ht, Hp;
            exists 0%nat; split; [lia|]; auto; fail).
  all: intros []; eapply Does_bind_wp; [apply (scrollAndStitchCapture_does sid) | | ].
  all: try (intros msg e [Ht [k [Hk Hp]]] e1 [Ht1 Hp1]; unfold_events;
            rewrite Ht, Ht1, Hp1; exists k; split; [exact Hk|];
            split; [reflexivity|]; cbn [app]; exact Hp).
  all: intros stitchResult; after_update.
  all: after_quiet (Quiet_download env (pngBlobUrl stitchResult)).
  all: try (intros msg e Hq e0 H0 e1 [Ht [k [Hk Hp]]] e2 [Ht2 Hp2]; unfold_events;
            rewrite Ht, Ht2, Hp, Hp2; exists k; split; [exact Hk|];
            split; [reflexivity|]; right; rewrite app_nil_r; reflexivity).
  all: intros []; after_update.
  all: eapply Does_conseq; [apply Does_setTimeoutClear|].
  all: intros evs r [-> ->] e3 H3 e4 Hq e0 H0 e1 [Ht [k [Hk Hp]]] e2 [Ht2 Hp2] e5 H5
              e6 Hq6 e7 Hq7.
  all: destruct H3 as [-> _]; destruct H0 as [-> _]; destruct H5 as [-> _].
  all: exists k; split; [exact Hk|].
  all: rewrite ?timersOf_app, ?progressWrites_app, ?lastWrite_app.
  all: rewrite Ht, Ht2, Hp, Hp2; quiet_facts.
  all: cbn [timersOf progressWrites app lastWrite lastWriteFrom].
  all: rewrite <- ?app_assoc; cbn [app]; auto.
Qed.

Lemma startCapture_does (config : Config) :
  Does (startCapture env config) (startPost env).
Proof.
  unfold startCapture.
  eapply Does_bind_wp.
  - apply Does_finally; [|apply retireSession_run].
    apply Does_tryCatch; [apply captureSession_does|].
    intros msg. apply Does_updateCaptureState.
  - intros msg e [[a [H _]] | [m [e1 [e2 [_ [_ [_ H]]]]]]]; discriminate H.
  - intros []. eapply Does_conseq; [apply Does_ret|].
    intros evs r [-> ->] e1 H. split; [reflexivity|]. rewrite app_nil_r.
    destruct H as [[a [_ [k [Hk [Hp [Ht Hl]]]]]] |
                   [m [e2 [e3 [-> [[k [Hk [Ht Hp]]] [-> _]]]]]]].
    + exists k. split; [exact Hk|]. left. auto.
    + exists k. split; [exact Hk|]. right. exists m.
      rewrite progressWrites_app, timersOf_app, lastWrite_app, Ht.
      cbn [timersOf progressWrites app lastWrite lastWriteFrom].
      rewrite app_nil_r. auto.
Qed.

End SessionRun.

(* ------------------------------------------------------------------ *)
(** ** The claims about the plan and the collector *)

Section PlanClaims.

Import Background.

(** The k-th position the loop visits from iteration [s] on. *)
Lemma offsetsFrom_nth (scrollHeight vpHeight : Z) (fuel : nat) :
  forall (s k : nat) (y : Z),
    nth_error (offsetsFrom fuel (Z.of_nat s) scrollHeight vpHeight) k = Some y ->
    y = Z.of_nat (s + k) * (vpHeight - OVERLAP_HEIGHT).
Proof.
  induction fuel as [|fuel IH]; intros s k y H; cbn [offsetsFrom] in H.
  - destruct k; discriminate H.
  - destruct (Z.of_nat s * (vpHeight - OVERLAP_HEIGHT) >? scrollHeight - vpHeight).
    + destruct k; discriminate H.
    + destruct k as [|k]; cbn [nth_error] in H.
      * injection H as <-. now rewrite Nat.add_0_r.
      * replace (Z.of_nat s + 1) with (Z.of_nat (S s)) in H by lia.
        rewrite (IH (S s) k y H). f_equal. lia.
Qed.

(** C1 (as the code has it): for scrollHeight 3000 and viewportHeight 1000
    (overlap 75) the planned count is 4 and the positions visited are 0,
    925 and 1850: the fourth candidate, 2775, lies beyond
    scrollHeight - viewportHeight = 2000 and ends the loop; no position is
    capped.  A collection in a browser where every call succeeds records
    exactly these three positions. *)
Theorem C1_plan_3000_1000 :
  numCapturesOf 3000 1000 = 4 /\
  offsets 3000 1000 = [0; 925; 1850] /\
  3 * (1000 - OVERLAP_HEIGHT) = 2775 /\
  (2775 >? 3000 - 1000) = true /\
  match fst (collectCaptures
               (Sample.browser Sample.tab (Sample.page 3000 1000) 2000 Sample.grabOk)
               "s" initialWorld) with
  | Ok (captures, _) => map scrollY captures = [0; 925; 1850]
  | Throw _ => False
  end.
Proof. vm_compute. repeat split; reflexivity. Qed.

Lemma C1_offsets_not_capped :
  ~ (List.length (offsets 3000 1000) = 4%nat /\
     offsets 3000 1000 = [0; 925; 1850; 2000]).
Proof. vm_compute. intros [H _]. discriminate H. Qed.

(** On a page shorter than the viewport the collection never returns
    frames, whatever the browser answers. *)
Lemma collectCaptures_shorter_page
    (env : Env) (sid : string) (w : World) (d : Dims) :
  env_dims env = Ok d ->
  dims_scrollHeight d < dims_viewportHeight d ->
  exists msg, fst (collectCaptures env sid w) = Throw msg.
Proof.
  intros Hd Hlt.
  destruct (collectCaptures_does env sid w) as [evs [_ [_ [k [_ [_ Hc]]]]]].
  destruct (fst (collectCaptures env sid w)) as [[captures d']|msg];
    [|exists msg; reflexivity].
  destruct (Hc captures d' eq_refl) as [Hd' [Hne Hoff]].
  rewrite Hd in Hd'. injection Hd' as <-.
  rewrite offsets_shorter_page in Hoff by exact Hlt.
  destruct captures; [contradiction | discriminate Hoff].
Qed.

(** C4 (evaluation of the code): on a page shorter than the viewport,
    scrollHeight 900 and viewportHeight 1000, one capture is planned but the
    loop breaks at position 0, because 0 > 900 - 1000; no screenshot is
    taken and the collection throws "No captures were collected". *)
Theorem C4_shorter_page_yields_no_frame :
  let env := Sample.browser Sample.tab (Sample.page 900 1000) 0 Sample.grabOk in
  numCapturesOf 900 1000 = 1 /\
  offsets 900 1000 = [] /\
  fst (collectCaptures env "s" initialWorld) = Throw "No captures were collected" /\
  grabCalls (snd (collectCaptures env "s" initialWorld)) = 0%nat /\
  offsets 1000 1000 = [0].
Proof. vm_compute. repeat split; reflexivity. Qed.

(** C6 (as the code has it): every frame the collector returns records the
    requested position, [k * (viewportHeight - 75)] for the k-th frame, which
    is the planned offset; the position the content script reports back is
    not used. *)
Theorem C6_recorded_scrollY_is_requested
    (env : Env) (sid : string) (w w' : World)
    (captures : list Capture) (dims : Dims) :
  collectCaptures env sid w = (Ok (captures, dims), w') ->
  map scrollY captures =
    offsets (dims_scrollHeight dims) (dims_viewportHeight dims) /\
  forall k c,
    nth_error captures k = Some c ->
    scrollY c = Z.of_nat k * (dims_viewportHeight dims - OVERLAP_HEIGHT).
Proof.
  intros Hrun.
  destruct (collectCaptures_does env sid w) as [evs [_ [_ [k [_ [_ Hc]]]]]].
  rewrite Hrun in Hc. cbn [fst] in Hc.
  destruct (Hc captures dims eq_refl) as [_ [_ Hoff]].
  split; [exact Hoff|].
  intros j c Hj.
  assert (Hn : nth_error (map scrollY captures) j = Some (scrollY c))
    by (rewrite nth_error_map, Hj; reflexivity).
  rewrite Hoff in Hn. unfold offsets in Hn.
  apply (offsetsFrom_nth _ _ _ 0%nat j) in Hn. exact Hn.
Qed.

Lemma C6_recorded_scrollY_is_requested_witness :
  let env := Sample.browser Sample.tab (Sample.page 2000 1000) 900 Sample.grabOk in
  exists captures,
    fst (collectCaptures env "s" initialWorld) =
      Ok (captures, Sample.page 2000 1000) /\
    map scrollY captures = [0; 925].
Proof.
  intros env.
  destruct (collectCaptures env "s" initialWorld) as [[[captures dims]|m] w'] eqn:E;
    [|discriminate (f_equal (fun p => match fst p with Ok _ => true | _ => false end) E)].
  assert (Hd : dims = Sample.page 2000 1000).
  { apply (f_equal (fun p => match fst p with Ok (_, d) => d | _ => dims end)) in E.
    vm_compute in E. symmetry. exact E. }
  subst dims. exists captures. split; [reflexivity|].
  destruct (C6_recorded_scrollY_is_requested env "s" initialWorld w' captures
              (Sample.page 2000 1000) E) as [H _].
  rewrite H. reflexivity.
Defined.

Lemma C6_recorded_scrollY_not_landed :
  let env := Sample.browser Sample.tab (Sample.page 2000 1000) 900 Sample.grabOk in
  ~ (forall captures dims k c r,
       fst (collectCaptures env "s" initialWorld) = Ok (captures, dims) ->
       nth_error captures k = Some c ->
       env_scroll env k (scrollY c) = Ok r ->
       scrollY c = scrolledToY r).
Proof.
  intros env H.
  specialize (H [mkCapture "png0" 0 1000 1280 false;
                 mkCapture "png1" 925 1000 1280 false]
                (Sample.page 2000 1000) 1%nat
                (mkCapture "png1" 925 1000 1280 false)
                (mkScrollResult true 900) eq_refl eq_refl eq_refl).
  discriminate H.
Qed.

End PlanClaims.

(* ------------------------------------------------------------------ *)
(** ** The claims about the session tracker *)

Section TrackerClaims.

Import Background.

Lemma plannedCount_max (env : Env) : plannedCount env <= MAX_CAPTURES.
Proof.
  unfold plannedCount. destruct (env_dims env); [apply numCapturesOf_max|].
  unfold MAX_CAPTURES. lia.
Qed.

Lemma loopProgress_in (n : Z) (k : nat) (p : Z) :
  (k <= Z.to_nat n)%nat -> In p (loopProgress n k) ->
  exists i, p = progressOf i n /\ 0 <= i < n.
Proof.
  intros Hk Hp. unfold loopProgress in Hp.
  apply in_map_iff in Hp. destruct Hp as [i [<- Hi]]. apply in_seq in Hi.
  exists (Z.of_nat i). split; [reflexivity | lia].
Qed.

Lemma loopProgress_sorted (n : Z) (k : nat) :
  (k <= Z.to_nat n)%nat -> n <= MAX_CAPTURES ->
  nondecreasing (loopProgress n k) = true.
Proof.
  intros Hk Hn. destruct k as [|k]; [reflexivity|].
  apply loopProgress_nondecreasing; lia.
Qed.

(** C7 (as the code has it): the numeric progress values a session writes
    are the capture-loop values [Math.round((i / plannedCount) * 100)] for
    i = 0, 1, ..., computed in binary64 as the code computes them, which are
    non-decreasing and lie in [0, 99], then 95 when stitching is reached,
    then 100 on completion.  The whole sequence is non-decreasing when at
    most 22 captures are planned; in any case no value exceeds 100.  When the
    session ends the tracker holds its most recent write, and every single
    update leaves the tracker equal to the record just written.  Each loop
    value is the nearest integer to 100 i / plannedCount or one below it; it
    is one below for capture 24 of 40, where the code writes 57 and not 58. *)
Theorem C7_progress_writes (env : Env) (config : Config) (w : World) :
  let n := plannedCount env in
  let w' := snd (startCapture env config w) in
  (exists evs k tail,
     trace w' = trace w ++ evs /\
     progressWrites evs = loopProgress n k ++ tail /\
     (tail = [] \/ tail = [95] \/ tail = [95; 100]) /\
     nondecreasing (loopProgress n k) = true /\
     (forall p, In p (loopProgress n k) -> 0 <= p <= 99) /\
     (forall p, In p (progressWrites evs) -> p <= 100) /\
     (n <= 22 -> nondecreasing (progressWrites evs) = true) /\
     exists last,
       lastWrite evs = Some last /\ holds (currentCaptureState w') last) /\
  (forall sid st msg p w0,
     currentCaptureState (snd (updateCaptureState sid st msg p w0)) =
     Some (mkCaptureState sid st msg p (clock w0))) /\
  (forall i, 0 <= i < n ->
     exactPercentage i n - 1 <= progressOf i n <= exactPercentage i n) /\
  (progressOf 23 40 = 57 /\ exactPercentage 23 40 = 58).
Proof.
  intros n w'.
  split; [|split; [reflexivity|split]];
    [|intros i Hi; apply progressOf_near_exact;
      [exact Hi | apply plannedCount_max]
     |split; vm_compute; reflexivity].
  destruct (startCapture_does env config w) as [evs [[Htr [_ Hst]] Hpost]].
  fold w' in Htr, Hst.
  destruct Hpost as [_ [k [Hk Hcases]]]. fold n in Hk, Hcases.
  assert (Hsorted := loopProgress_sorted n k Hk (plannedCount_max env)).
  assert (Hrange : forall p, In p (loopProgress n k) -> 0 <= p <= 99).
  { intros p Hp. destruct (loopProgress_in n k p Hk Hp) as [i [-> Hi]].
    apply progressOf_below_100; [exact Hi | apply plannedCount_max]. }
  assert (Hsmall : n <= 22 -> forall p, In p (loopProgress n k) -> p <= 95).
  { intros Hn p Hp. destruct (loopProgress_in n k p Hk Hp) as [i [-> Hi]].
    apply progressOf_upto_95; assumption. }
  assert (Htail : forall tail,
            tail = [] \/ tail = [95] \/ tail = [95; 100] ->
            (forall p, In p (loopProgress n k ++ tail) -> p <= 100) /\
            (n <= 22 -> nondecreasing (loopProgress n k ++ tail) = true)).
  { intros tail Ht. split.
    - intros p Hp. apply in_app_or in Hp. destruct Hp as [Hp|Hp].
      + specialize (Hrange p Hp). lia.
      + destruct Ht as [-> | [-> | ->]]; cbn in Hp; lia.
    - intros Hn. apply nondecreasing_app; [exact Hsorted | |].
      + destruct Ht as [-> | [-> | ->]]; reflexivity.
      + intros a b Ha Hb. specialize (Hsmall Hn a Ha).
        destruct Ht as [-> | [-> | ->]]; cbn in Hb; lia. }
  assert (Hfin : forall tail last,
            progressWrites evs = loopProgress n k ++ tail ->
            tail = [] \/ tail = [95] \/ tail = [95; 100] ->
            lastWrite evs = Some last ->
            exists evs0 k0 tail0,
              trace w' = trace w ++ evs0 /\
              progressWrites evs0 = loopProgress n k0 ++ tail0 /\
              (tail0 = [] \/ tail0 = [95] \/ tail0 = [95; 100]) /\
              nondecreasing (loopProgress n k0) = true /\
              (forall p, In p (loopProgress n k0) -> 0 <= p <= 99) /\
              (forall p, In p (progressWrites evs0) -> p <= 100) /\
              (n <= 22 -> nondecreasing (progressWrites evs0) = true) /\
              exists last0,
                lastWrite evs0 = Some last0 /\
                holds (currentCaptureState w') last0).
  { intros tail last Hp Ht Hl. exists evs, k, tail.
    destruct (Htail tail Ht) as [H100 Hmono]. rewrite Hp.
    split; [exact Htr|]. split; [reflexivity|]. split; [exact Ht|].
    split; [exact Hsorted|]. split; [exact Hrange|]. split; [exact H100|].
    split; [exact Hmono|]. exists last. split; [exact Hl|].
    unfold tracks in Hst. now rewrite Hl in Hst. }
  destruct Hcases as [[Hp [_ Hl]] | [msg [[Hp|Hp] [_ Hl]]]].
  - eapply (Hfin [95; 100]); [exact Hp | auto | exact Hl].
  - eapply (Hfin []); [rewrite app_nil_r; exact Hp | auto | exact Hl].
  - eapply (Hfin [95]); [exact Hp | auto | exact Hl].
Qed.

Lemma C7_progress_drops_at_stitching :
  let env := Sample.browser Sample.tab (Sample.page 41700 1000) 40700 Sample.grabOk in
  let w' := snd (startCapture env DEFAULT_CONFIG initialWorld) in
  plannedCount env = 45 /\
  skipn 44 (progressWrites (trace w')) = [98; 95; 100] /\
  nondecreasing (progressWrites (trace w')) = false.
Proof. vm_compute. repeat split; reflexivity. Qed.

(** A page of 37075 pixels in a viewport of 1000 plans 40 captures; the
    write of capture 24 carries 57. *)
Lemma progress_of_capture_24_of_40 :
  let env := Sample.browser Sample.tab (Sample.page 37075 1000) 36075 Sample.grabOk in
  let w' := snd (startCapture env DEFAULT_CONFIG initialWorld) in
  plannedCount env = 40 /\
  firstn 3 (skipn 22 (progressWrites (trace w'))) = [55; 57; 60].
Proof. vm_compute. split; reflexivity. Qed.

(** C8 (as the code has it): when [startCapture] returns, the tracker holds
    a record of this session whose status is "completed" or "error".  After
    "completed" one timeout of 5000 ms is pending; until it runs the record
    is readable, and when it runs the record is cleared, provided it still
    belongs to this session.  After "error" no timeout is scheduled and the
    record stays. *)
Theorem C8_terminal_state_retention (env : Env) (config : Config) (w : World) :
  let sid := env_sessionId env in
  let w' := snd (startCapture env config w) in
  exists cs,
    getCaptureStatus w' = Some cs /\
    sessionId cs = sid /\
    ((status cs = "completed" /\
      timers w' = timers w ++ [(5000, sid)] /\
      getCaptureStatus (clearIfSession sid w') = None /\
      (timers w = [] -> getCaptureStatus (fireTimer w') = None)) \/
     (status cs = "error" /\
      timers w' = timers w /\
      (timers w = [] -> fireTimer w' = w'))).
Proof.
  intros sid w'.
  destruct (startCapture_does env config w) as [evs [[_ [Htm Hst]] Hpost]].
  fold w' in Htm, Hst. unfold tracks in Hst.
  destruct Hpost as [_ [k [_ [[_ [Ht Hl]] | [msg [_ [Ht Hl]]]]]]];
    fold sid in Ht, Hl; rewrite Hl in Hst; destruct Hst as [t Hcs];
    rewrite Ht in Htm.
  - eexists. split; [exact Hcs|]. split; [reflexivity|]. left.
    split; [reflexivity|]. split; [exact Htm|].
    assert (Hclear : getCaptureStatus (clearIfSession sid w') = None).
    { unfold clearIfSession. rewrite Hcs. cbn [sessionId].
      rewrite String.eqb_refl. reflexivity. }
    split; [exact Hclear|].
    intros Hnone. unfold fireTimer. rewrite Htm, Hnone. cbn [app].
    unfold clearIfSession, getCaptureStatus. cbn [currentCaptureState].
    rewrite Hcs. cbn [sessionId]. rewrite String.eqb_refl. reflexivity.
  - eexists. split; [exact Hcs|]. split; [reflexivity|]. right.
    split; [reflexivity|]. rewrite app_nil_r in Htm. split; [exact Htm|].
    intros Hnone. unfold fireTimer. now rewrite Htm, Hnone.
Qed.

Lemma C8_error_state_is_not_cleared :
  let env := Sample.browser Sample.internalTab (Sample.page 3000 1000) 2000
                            Sample.grabOk in
  let w' := snd (startCapture env DEFAULT_CONFIG initialWorld) in
  getCaptureStatus w' =
    Some (mkCaptureState "k3x9q" "error" "Capture failed: URL not capturable"
                         None 0) /\
  timers w' = [] /\
  getCaptureStatus (fireTimer w') = getCaptureStatus w'.
Proof. vm_compute. repeat split; reflexivity. Qed.

(** The guard of the command listener: while the tracker holds a record
    whose status is neither "completed" nor "error", the listener returns
    without starting a session and leaves the service worker's state
    untouched; it starts a session only when the tracker is empty or holds a
    terminal record. *)
Lemma onCommand_ignored_while_capturing
    (env : Env) (w : World) (cs : CaptureState) :
  currentCaptureState w = Some cs ->
  status cs <> "completed" ->
  status cs <> "error" ->
  onCommand env "capture-page" w = (Ok false, w) /\
  forall w0,
    fst (onCommand env "capture-page" w0) = Ok true ->
    currentCaptureState w0 = None \/
    exists cs0, currentCaptureState w0 = Some cs0 /\
                (status cs0 = "completed" \/ status cs0 = "error").
Proof.
  intros Hcs Hc He. split.
  - unfold onCommand. cbn [String.eqb Ascii.eqb Bool.eqb].
    unfold captureInProgress. rewrite Hcs.
    apply String.eqb_neq in Hc, He. rewrite Hc, He. reflexivity.
  - intros w0. unfold onCommand. cbn [String.eqb Ascii.eqb Bool.eqb].
    unfold captureInProgress.
    destruct (currentCaptureState w0) as [cs0|]; [|auto].
    destruct (String.eqb (status cs0) "completed") eqn:E1.
    + apply String.eqb_eq in E1. intros _. right. eauto.
    + destruct (String.eqb (status cs0) "error") eqn:E2.
      * apply String.eqb_eq in E2. intros _. right. eauto.
      * cbn. discriminate.
Qed.

End TrackerClaims.

(* ------------------------------------------------------------------ *)
(** ** The keyboard shortcut in the event loop *)

Section HotkeyRace.

Import Background EventLoop.

(** The two parts of the [try] block, one after the other, are the [try]
    block. *)
Lemma captureSession_parts (env : Env) (config : Config) (sid : string) (w : World) :
  captureSession env config sid w =
  (afterTabAnswer env config sid ;;; restOfSession env config sid) w.
Proof.
  unfold captureSession, afterTabAnswer, restOfSession, getCurrentTab.
  unfold bind, ret, throw.
  destruct (env_tabs env) as [|tab others]; [reflexivity|].
  destruct (tab_id tab) as [[|id|id]|]; try reflexivity;
    destruct (isCapturableUrl (tab_url tab)); try reflexivity;
    destruct (preCapture config); reflexivity.
Qed.

(** [catch] and [finally] go with the part of the [try] block that is
    running when the error is thrown. *)
Lemma settle_parts (sid : string) (a b : M unit) (w : World) :
  settle sid (a ;;; b) w =
  match a w with
  | (Ok _, w') => settle sid b w'
  | (Throw msg, w') => settle sid (throw msg) w'
  end.
Proof.
  unfold settle, finally, tryCatch, bind, throw.
  destruct (a w) as [[[]|msg] w']; reflexivity.
Qed.

Lemma startCapture_settle (env : Env) (config : Config) (w : World) :
  snd (startCapture env config w) =
  snd (settle (env_sessionId env)
         (afterTabAnswer env config (env_sessionId env) ;;;
          restOfSession env config (env_sessionId env)) w).
Proof.
  unfold startCapture, settle, finally, tryCatch.
  unfold bind at 1. unfold ret at 1.
  rewrite captureSession_parts.
  match goal with
  | |- context [(?a ;;; ?b) w] => destruct ((a ;;; b) w) as [[[]|msg] w']
  end; cbn [snd]; [reflexivity|].
  match goal with
  | |- context [updateCaptureState ?a ?b ?c ?d w'] =>
      destruct (updateCaptureState a b c d w') as [[[]|m] w'']
  end; reflexivity.
Qed.

(** A hotkey press that is alone in the event loop does what the listener
    does when it runs in one piece. *)
Lemma run_alone (env : Env) (w : World) :
  run [HotkeyPressed env; Resumes 0; Resumes 0; Resumes 0] (w, []) =
  (snd (onCommand env "capture-page" w), []).
Proof.
  unfold onCommand. cbn [String.eqb Ascii.eqb Bool.eqb].
  unfold run. cbn [fold_left turn]. unfold pressHotkey. cbn [fst snd].
  destruct (captureInProgress w); [reflexivity|].
  cbn [app nth_error fst snd resume removeNth].
  assert (Hstart :
    snd ((startCapture env (env_storedConfig env) ;;; ret true) w) =
    snd (startCapture env (env_storedConfig env) w)).
  { unfold bind at 1.
    destruct (startCapture env (env_storedConfig env) w) as [[sid|m] w'];
      reflexivity. }
  rewrite Hstart, startCapture_settle, settle_parts.
  destruct (afterTabAnswer env (env_storedConfig env) (env_sessionId env) w)
    as [[[]|msg] w'];
    cbn [app nth_error fst snd resume removeNth]; reflexivity.
Qed.

Lemma mapSet_has (k : string) (v : Session) (m : list (string * Session)) :
  In k (map fst (mapSet k v m)).
Proof.
  induction m as [|[k' v'] m IH]; cbn [mapSet]; [now left|].
  destruct (String.eqb k' k); cbn [map fst In]; auto.
Qed.

Lemma mapSet_keeps (k k' : string) (v : Session) (m : list (string * Session)) :
  In k' (map fst m) -> In k' (map fst (mapSet k v m)).
Proof.
  induction m as [|[k0 v0] m IH]; cbn [mapSet map fst In]; [contradiction|].
  intros [<- | Hin].
  - destruct (String.eqb k0 k) eqn:E; cbn [map fst In]; [|now left].
    apply String.eqb_eq in E. now left.
  - destruct (String.eqb k0 k); cbn [map fst In]; auto.
Qed.

Lemma two_keys (a b : string) (m : list (string * Session)) :
  a <> b -> In a (map fst m) -> In b (map fst m) -> (2 <= List.length m)%nat.
Proof.
  intros Hab Ha Hb. destruct m as [|[k1 v1] [|[k2 v2] m]]; cbn in *.
  - contradiction.
  - destruct Ha as [<- | []], Hb as [<- | []]. congruence.
  - lia.
Qed.

(** With a capturable active tab the part that follows the tab query
    registers the session and writes its first record: from then on the
    guard of the command listener is closed. *)
Lemma afterTabAnswer_admits
    (env : Env) (config : Config) (sid : string) (w : World)
    (tab : Tab) (others : list Tab) (id : Z) :
  env_tabs env = tab :: others ->
  tab_id tab = Some id ->
  id <> 0 ->
  isCapturableUrl (tab_url tab) = true ->
  exists w',
    afterTabAnswer env config sid w = (Ok tt, w') /\
    activeSessions w' =
      mapSet sid (mkSession id (clock w) "started") (activeSessions w) /\
    captureInProgress w' = true.
Proof.
  intros Htabs Hid Hnz Hurl.
  unfold afterTabAnswer, getCurrentTab. rewrite Htabs.
  unfold bind at 1. unfold ret at 1. rewrite Hid, Hurl.
  destruct id as [|id|id]; [contradiction| |];
    destruct (preCapture config); eexists;
    (split; [reflexivity|]); split; reflexivity.
Qed.

(** C10: the guard of the command listener reads a tracker that a starting
    session has not written yet.  A second [capture-page] command that
    arrives before the first session's tab query has answered is accepted
    like the first; when the active tab is capturable both sessions are
    then registered in [activeSessions] at the same time, each waiting on
    its own capture, and only from there on is the guard closed. *)
Theorem C10_second_hotkey_starts_second_session
    (envA envB : Env) (w : World)
    (tabA tabB : Tab) (othersA othersB : list Tab) (idA idB : Z) :
  captureInProgress w = false ->
  env_sessionId envA <> env_sessionId envB ->
  env_tabs envA = tabA :: othersA ->
  tab_id tabA = Some idA -> idA <> 0 ->
  isCapturableUrl (tab_url tabA) = true ->
  env_tabs envB = tabB :: othersB ->
  tab_id tabB = Some idB -> idB <> 0 ->
  isCapturableUrl (tab_url tabB) = true ->
  let accepted := run [HotkeyPressed envA; HotkeyPressed envB] (w, []) in
  let both := run [Resumes 0; Resumes 0; Resumes 0; Resumes 0] accepted in
  accepted = (w, [StorageAnswer envA; StorageAnswer envB]) /\
  snd both = [AwaitedCall envA (env_storedConfig envA);
              AwaitedCall envB (env_storedConfig envB)] /\
  In (env_sessionId envA) (map fst (activeSessions (fst both))) /\
  In (env_sessionId envB) (map fst (activeSessions (fst both))) /\
  (2 <= List.length (activeSessions (fst both)))%nat /\
  captureInProgress (fst both) = true.
Proof.
  intros Hidle Hsids HtabsA HidA HnzA HurlA HtabsB HidB HnzB HurlB accepted both.
  assert (Haccepted : accepted = (w, [StorageAnswer envA; StorageAnswer envB])).
  { subst accepted. unfold run. cbn [fold_left turn]. unfold pressHotkey.
    cbn [fst snd]. rewrite Hidle. cbn [fst snd app]. rewrite Hidle. reflexivity. }
  split; [exact Haccepted|].
  subst both. rewrite Haccepted. unfold run.
  cbn [fold_left turn nth_error fst snd resume removeNth app].
  destruct (afterTabAnswer_admits envA (env_storedConfig envA) (env_sessionId envA)
              w tabA othersA idA HtabsA HidA HnzA HurlA)
    as [wA [HrunA [HsessA _]]].
  rewrite HrunA. cbn [fold_left turn nth_error fst snd resume removeNth app].
  destruct (afterTabAnswer_admits envB (env_storedConfig envB) (env_sessionId envB)
              wA tabB othersB idB HtabsB HidB HnzB HurlB)
    as [wB [HrunB [HsessB HguardB]]].
  rewrite HrunB. cbn [fold_left turn nth_error fst snd resume removeNth app].
  assert (HinA : In (env_sessionId envA) (map fst (activeSessions wB))).
  { rewrite HsessB, HsessA. apply mapSet_keeps, mapSet_has. }
  assert (HinB : In (env_sessionId envB) (map fst (activeSessions wB))).
  { rewrite HsessB. apply mapSet_has. }
  split; [reflexivity|]. split; [exact HinA|]. split; [exact HinB|].
  split; [exact (two_keys _ _ _ Hsids HinA HinB) | exact HguardB].
Qed.

Lemma C10_second_hotkey_starts_second_session_witness :
  let envA := Sample.browser Sample.tab (Sample.page 3000 1000) 2000 Sample.grabOk in
  let envB := mkEnv "p7m2c" [Sample.tab] true (Ok tt) (Ok (Sample.page 3000 1000))
                    (fun _ y => Ok (mkScrollResult true (Z.min y 2000)))
                    Sample.grabOk true (Ok tt)
                    (fun _ _ => Ok (Some (mkStitchResponse true "blob:2" None)))
                    (Ok tt) DEFAULT_CONFIG in
  let accepted := run [HotkeyPressed envA; HotkeyPressed envB] (initialWorld, []) in
  let both := run [Resumes 0; Resumes 0; Resumes 0; Resumes 0] accepted in
  let finished := run [Resumes 0; Resumes 0] both in
  accepted = (initialWorld, [StorageAnswer envA; StorageAnswer envB]) /\
  map fst (activeSessions (fst both)) = ["k3x9q"; "p7m2c"] /\
  (2 <= List.length (activeSessions (fst both)))%nat /\
  snd finished = [] /\
  grabCalls (fst finished) = 6%nat.
Proof.
  intros envA envB accepted both finished.
  destruct (C10_second_hotkey_starts_second_session envA envB initialWorld
              Sample.tab Sample.tab [] [] 7 7)
    as [Haccepted [_ [_ [_ [Htwo _]]]]];
    try reflexivity; try discriminate.
  split; [exact Haccepted|].
  split; [vm_compute; reflexivity|].
  split; [exact Htwo|].
  split; vm_compute; reflexivity.
Defined.

End HotkeyRace.

(* ------------------------------------------------------------------ *)
(** ** More on the capture plan *)

Section PlanShape.

Import Background.

Lemma offsetsFrom_length (scrollHeight vpHeight : Z) (fuel : nat) :
  forall i, (List.length (offsetsFrom fuel i scrollHeight vpHeight) <= fuel)%nat.
Proof.
  induction fuel as [|fuel IH]; intros i; cbn [offsetsFrom]; [cbn; lia|].
  destruct (i * (vpHeight - OVERLAP_HEIGHT) >? scrollHeight - vpHeight); cbn.
  - lia.
  - specialize (IH (i + 1)). lia.
Qed.

Lemma offsetsFrom_progression (scrollHeight vpHeight : Z) (fuel : nat) :
  forall s : nat,
    offsetsFrom fuel (Z.of_nat s) scrollHeight vpHeight =
    map (fun k => Z.of_nat k * (vpHeight - OVERLAP_HEIGHT))
        (seq s (List.length (offsetsFrom fuel (Z.of_nat s) scrollHeight vpHeight))).
Proof.
  induction fuel as [|fuel IH]; intros s; cbn [offsetsFrom]; [reflexivity|].
  destruct (Z.of_nat s * (vpHeight - OVERLAP_HEIGHT) >? scrollHeight - vpHeight);
    [reflexivity|].
  replace (Z.of_nat s + 1) with (Z.of_nat (S s)) by lia.
  cbn [List.length seq map]. f_equal. apply IH.
Qed.

Lemma offsetsFrom_within (scrollHeight vpHeight : Z) (fuel : nat) :
  forall i y,
    In y (offsetsFrom fuel i scrollHeight vpHeight) -> y <= scrollHeight - vpHeight.
Proof.
  induction fuel as [|fuel IH]; intros i y Hy; cbn [offsetsFrom] in Hy;
    [contradiction|].
  destruct (i * (vpHeight - OVERLAP_HEIGHT) >? scrollHeight - vpHeight) eqn:E;
    [contradiction|].
  destruct Hy as [<-|Hy]; [lia | eapply IH; exact Hy].
Qed.

(** X1: the plan never holds more than [MAX_CAPTURES] = 100 positions,
    whatever the page geometry. *)
Theorem X1_offsets_at_most_max_captures (scrollHeight vpHeight : Z) :
  Z.of_nat (List.length (offsets scrollHeight vpHeight)) <= MAX_CAPTURES.
Proof.
  unfold offsets.
  pose proof (offsetsFrom_length scrollHeight vpHeight
                (Z.to_nat (numCapturesOf scrollHeight vpHeight)) 0) as H.
  pose proof (numCapturesOf_max scrollHeight vpHeight) as Hmax.
  unfold MAX_CAPTURES in *. lia.
Qed.

Lemma offsets_progression (scrollHeight vpHeight : Z) :
  offsets scrollHeight vpHeight =
    map (fun k => Z.of_nat k * (vpHeight - OVERLAP_HEIGHT))
        (seq 0 (List.length (offsets scrollHeight vpHeight))).
Proof. unfold offsets. apply (offsetsFrom_progression _ _ _ 0%nat). Qed.

(** X2: the k-th position of the plan is [k * (viewportHeight - 75)], so a
    non-empty plan starts at 0 and advances by a fixed step that leaves 75
    pixels of overlap, and no position lies beyond
    [scrollHeight - viewportHeight]: the page is never asked to scroll past
    its bottom. *)
Theorem X2_offsets_progression_within_page (scrollHeight vpHeight : Z) :
  offsets scrollHeight vpHeight =
    map (fun k => Z.of_nat k * (vpHeight - OVERLAP_HEIGHT))
        (seq 0 (List.length (offsets scrollHeight vpHeight))) /\
  forall y, In y (offsets scrollHeight vpHeight) -> y <= scrollHeight - vpHeight.
Proof.
  split; [apply offsets_progression|].
  intros y Hy. unfold offsets in Hy. eapply offsetsFrom_within. exact Hy.
Qed.

(** [Math.ceil] of a quotient of integers, by integer division. *)
Lemma mathCeil_div (a b : Z) :
  Js.mathCeil (inject_Z a / inject_Z b) = - ((- a) / b).
Proof.
  unfold Js.mathCeil, Qceiling. f_equal.
  rewrite Zdiv_Qdiv. apply Qfloor_comp.
  rewrite inject_Z_opp. unfold Qdiv. ring.
Qed.

Lemma guard_by_quotient (i S step : Z) :
  0 < step -> (i * step >? S) = (i >? S / step).
Proof.
  intros Hstep.
  destruct (i * step >? S) eqn:E1; destruct (i >? S / step) eqn:E2;
    try reflexivity; exfalso.
  - assert (i * step <= S); [|lia].
    assert (i <= S / step) by lia.
    pose proof (Z.mul_div_le S step Hstep). nia.
  - assert (i <= S / step); [|lia].
    apply Z.div_le_lower_bound; lia.
Qed.

Lemma offsetsFrom_count (scrollHeight vpHeight : Z) (fuel : nat) :
  OVERLAP_HEIGHT < vpHeight ->
  forall s : nat,
    Z.of_nat s <= (scrollHeight - vpHeight) / (vpHeight - OVERLAP_HEIGHT) + 1 ->
    Z.of_nat (List.length (offsetsFrom fuel (Z.of_nat s) scrollHeight vpHeight)) =
    Z.min (Z.of_nat fuel)
          ((scrollHeight - vpHeight) / (vpHeight - OVERLAP_HEIGHT) + 1 - Z.of_nat s).
Proof.
  intros Hstep. induction fuel as [|fuel IH]; intros s Hs; cbn [offsetsFrom].
  - cbn [List.length]. lia.
  - rewrite guard_by_quotient by lia.
    destruct (Z.of_nat s >? (scrollHeight - vpHeight) / (vpHeight - OVERLAP_HEIGHT))
      eqn:E.
    + cbn [List.length]. lia.
    + replace (Z.of_nat s + 1) with (Z.of_nat (S s)) by lia.
      cbn [List.length]. rewrite Nat2Z.inj_succ, IH by lia. lia.
Qed.

Lemma numCapturesOf_quotient (scrollHeight vpHeight : Z) :
  OVERLAP_HEIGHT < vpHeight -> vpHeight <= scrollHeight ->
  Z.min ((scrollHeight - vpHeight) / (vpHeight - OVERLAP_HEIGHT) + 1) 100 <=
  numCapturesOf scrollHeight vpHeight <= 100.
Proof.
  intros Hstep Hsh. unfold numCapturesOf, MAX_CAPTURES.
  destruct (scrollHeight >? vpHeight) eqn:E.
  - destruct (vpHeight - OVERLAP_HEIGHT =? 0) eqn:E0; [lia|].
    rewrite mathCeil_div.
    set (S := scrollHeight - vpHeight). set (step := vpHeight - OVERLAP_HEIGHT).
    assert (S / step <= - (- S / step)).
    { assert (0 < step) by (unfold step; lia).
      pose proof (Z.mul_div_le S step H).
      pose proof (Z.mul_div_le (- S) step H).
      pose proof (Z.mul_succ_div_gt S step H).
      pose proof (Z.mul_succ_div_gt (- S) step H). nia. }
    lia.
  - assert (scrollHeight = vpHeight) by lia. subst.
    rewrite Z.sub_diag, Z.div_0_l by lia. lia.
Qed.

Lemma offsets_count (scrollHeight vpHeight : Z) :
  OVERLAP_HEIGHT < vpHeight ->
  vpHeight <= scrollHeight ->
  Z.of_nat (List.length (offsets scrollHeight vpHeight)) =
  Z.min ((scrollHeight - vpHeight) / (vpHeight - OVERLAP_HEIGHT) + 1) 100.
Proof.
  intros Hstep Hsh. unfold offsets.
  assert (Hq : 0 <= (scrollHeight - vpHeight) / (vpHeight - OVERLAP_HEIGHT))
    by (apply Z.div_pos; lia).
  rewrite (offsetsFrom_count scrollHeight vpHeight _ Hstep 0%nat) by (cbn; lia).
  pose proof (numCapturesOf_quotient scrollHeight vpHeight Hstep Hsh).
  cbn [Z.of_nat]. lia.
Qed.

(** X3: for a viewport taller than the overlap and a page at least as tall
    as the viewport, the number of positions visited is
    min(floor((scrollHeight - viewportHeight) / (viewportHeight - 75)) + 1, 100). *)
Theorem X3_offsets_count (scrollHeight vpHeight : Z) :
  OVERLAP_HEIGHT < vpHeight ->
  vpHeight <= scrollHeight ->
  Z.of_nat (List.length (offsets scrollHeight vpHeight)) =
  Z.min ((scrollHeight - vpHeight) / (vpHeight - OVERLAP_HEIGHT) + 1) 100.
Proof. exact (offsets_count scrollHeight vpHeight). Qed.

Lemma X3_offsets_count_witness :
  Z.of_nat (List.length (offsets 3000 1000)) = Z.min (2000 / 925 + 1) 100.
Proof. apply (X3_offsets_count 3000 1000); unfold OVERLAP_HEIGHT; lia. Defined.

(** X4: when the ceiling of 100 captures is not reached, the bottom edge of
    the last frame lies less than one step above the bottom of the page, and
    it reaches the bottom exactly when the step divides the scrollable
    height. *)
Theorem X4_last_frame_near_bottom (scrollHeight vpHeight : Z) :
  OVERLAP_HEIGHT < vpHeight ->
  vpHeight <= scrollHeight ->
  (scrollHeight - vpHeight) / (vpHeight - OVERLAP_HEIGHT) + 1 <= 100 ->
  let y := List.last (offsets scrollHeight vpHeight) 0 in
  In y (offsets scrollHeight vpHeight) /\
  scrollHeight - (vpHeight - OVERLAP_HEIGHT) < y + vpHeight <= scrollHeight /\
  (y + vpHeight = scrollHeight <->
   (scrollHeight - vpHeight) mod (vpHeight - OVERLAP_HEIGHT) = 0).
Proof.
  intros Hstep Hsh Hceil y.
  pose proof (offsets_progression scrollHeight vpHeight) as Hmap.
  pose proof (offsets_count scrollHeight vpHeight Hstep Hsh) as Hlen.
  set (S := scrollHeight - vpHeight) in *.
  set (step := vpHeight - OVERLAP_HEIGHT) in *.
  assert (Hpos : 0 < step) by (unfold step; lia).
  assert (Hq : 0 <= S / step) by (apply Z.div_pos; unfold S; lia).
  rewrite Z.min_l in Hlen by lia.
  destruct (List.length (offsets scrollHeight vpHeight)) as [|n] eqn:En; [lia|].
  assert (Hy : y = Z.of_nat n * step).
  { unfold y. rewrite Hmap, seq_S, map_app. cbn [map]. rewrite last_last.
    reflexivity. }
  assert (Hn : Z.of_nat n = S / step) by lia.
  split.
  - rewrite Hy, Hmap. apply in_map_iff. exists n.
    split; [reflexivity|]. apply in_seq. lia.
  - pose proof (Z.div_mod S step ltac:(lia)) as Hdm.
    pose proof (Z.mod_pos_bound S step Hpos) as Hmod.
    rewrite Hy, Hn. unfold S in *. split; [nia|]. split; intros H; nia.
Qed.

Lemma X4_last_frame_near_bottom_witness :
  let y := List.last (offsets 3000 1000) 0 in
  In y (offsets 3000 1000) /\
  3000 - (1000 - OVERLAP_HEIGHT) < y + 1000 <= 3000 /\
  (y + 1000 = 3000 <-> (3000 - 1000) mod (1000 - OVERLAP_HEIGHT) = 0).
Proof.
  apply (X4_last_frame_near_bottom 3000 1000); unfold OVERLAP_HEIGHT; cbn; lia.
Defined.

End PlanShape.

(* ------------------------------------------------------------------ *)
(** ** More on the collector *)

Section BindInversion.

Context {A B : Type}.

Lemma bind_ok (c : M A) (k : A -> M B) (w w' : World) (b : B) :
  bind c k w = (Ok b, w') ->
  exists a w1, c w = (Ok a, w1) /\ k a w1 = (Ok b, w').
Proof.
  unfold bind. destruct (c w) as [[a|msg] w1]; [eauto | discriminate].
Qed.

End BindInversion.

Section CollectorFields.

Import Background.

Variable env : Env.

Lemma captureLoop_fields (sid : string) (d : Dims) (numCaptures : Z) (fuel : nat) :
  forall i captures w captures' w',
    captureLoop env sid (dims_scrollHeight d) (dims_viewportHeight d)
      (dims_viewportWidth d) numCaptures fuel i captures w = (Ok captures', w') ->
    Forall (recordedFor d) captures ->
    Forall (recordedFor d) captures'.
Proof.
  induction fuel as [|fuel IH]; intros i captures w captures' w' Hrun Hall;
    cbn [captureLoop] in Hrun.
  - injection Hrun as <- _. exact Hall.
  - destruct (i * (dims_viewportHeight d - OVERLAP_HEIGHT) >?
              dims_scrollHeight d - dims_viewportHeight d) eqn:Eguard.
    + injection Hrun as <- _. exact Hall.
    + apply bind_ok in Hrun. destruct Hrun as [_ [w1 [_ Hrun]]].
      apply bind_ok in Hrun. destruct Hrun as [sr [w2 [_ Hrun]]].
      destruct (negb (scroll_success sr)); [discriminate Hrun|].
      apply bind_ok in Hrun. destruct Hrun as [_ [w3 [_ Hrun]]].
      apply bind_ok in Hrun. destruct Hrun as [dataUrl [w4 [_ Hrun]]].
      apply bind_ok in Hrun. destruct Hrun as [blob [w5 [_ Hrun]]].
      apply (IH _ _ _ _ _ Hrun). apply Forall_app. split; [exact Hall|].
      constructor; [|constructor]. unfold recordedFor. cbn.
      repeat split. lia.
Qed.

(** X5: every frame the collector returns carries the viewport height and
    width the page reported and a position within the page, and it is flagged
    as the last capture exactly when its position is
    [scrollHeight - viewportHeight], that is when its bottom edge is the
    bottom of the page. *)
Theorem X5_collected_frames_metadata
    (sid : string) (w w' : World) (captures : list Capture) (d : Dims) :
  collectCaptures env sid w = (Ok (captures, d), w') ->
  forall c,
    In c captures ->
    viewportHeight c = dims_viewportHeight d /\
    viewportWidth c = dims_viewportWidth d /\
    scrollY c <= dims_scrollHeight d - dims_viewportHeight d /\
    (isLastCapture c = true <->
     scrollY c = dims_scrollHeight d - dims_viewportHeight d).
Proof.
  intros Hrun c Hc. unfold collectCaptures in Hrun.
  apply bind_ok in Hrun. destruct Hrun as [_ [w1 [_ Hrun]]].
  apply bind_ok in Hrun. destruct Hrun as [_ [w2 [_ Hrun]]].
  apply bind_ok in Hrun. destruct Hrun as [_ [w3 [_ Hrun]]].
  apply bind_ok in Hrun. destruct Hrun as [_ [w4 [_ Hrun]]].
  apply bind_ok in Hrun. destruct Hrun as [dims [w5 [_ Hrun]]].
  destruct (negb (dims_success dims)); [discriminate Hrun|].
  apply bind_ok in Hrun. destruct Hrun as [caps [w6 [Hloop Hrun]]].
  destruct caps as [|c0 cs]; [discriminate Hrun|].
  injection Hrun as <- <- _.
  pose proof (captureLoop_fields sid dims _ _ _ _ _ _ _ Hloop (Forall_nil _)) as Hall.
  rewrite Forall_forall in Hall. destruct (Hall c Hc) as [H1 [H2 [H3 H4]]].
  split; [exact H1|]. split; [exact H2|]. split; [exact H4|].
  rewrite H3. split; intros H; lia.
Qed.

End CollectorFields.

Lemma X5_collected_frames_metadata_witness :
  fst (Background.collectCaptures
         (Sample.browser Sample.tab (Sample.page 2850 1000) 1850 Sample.grabOk)
         "s" initialWorld) =
    Ok ([mkCapture "png0" 0 1000 1280 false;
         mkCapture "png1" 925 1000 1280 false;
         mkCapture "png2" 1850 1000 1280 true],
        Sample.page 2850 1000) /\
  viewportHeight (mkCapture "png2" 1850 1000 1280 true) = 1000 /\
  viewportWidth (mkCapture "png2" 1850 1000 1280 true) = 1280 /\
  scrollY (mkCapture "png2" 1850 1000 1280 true) <= 2850 - 1000 /\
  (isLastCapture (mkCapture "png2" 1850 1000 1280 true) = true <->
   scrollY (mkCapture "png2" 1850 1000 1280 true) = 2850 - 1000).
Proof.
  split; [vm_compute; reflexivity|].
  apply (X5_collected_frames_metadata
           (Sample.browser Sample.tab (Sample.page 2850 1000) 1850 Sample.grabOk)
           "s" initialWorld
           (snd (Background.collectCaptures
                   (Sample.browser Sample.tab (Sample.page 2850 1000) 1850
                                   Sample.grabOk)
                   "s" initialWorld))
           [mkCapture "png0" 0 1000 1280 false;
            mkCapture "png1" 925 1000 1280 false;
            mkCapture "png2" 1850 1000 1280 true]
           (Sample.page 2850 1000)).
  - vm_compute. reflexivity.
  - cbn. auto.
Defined.

(* ------------------------------------------------------------------ *)
(** ** Counting the calls to the browser *)

Section CallRules.

Context {A B : Type}.

Lemma Calls_weaken (g s g' s' : nat) (c : M A) :
  Calls g s c -> (g <= g')%nat -> (s <= s')%nat -> Calls g' s' c.
Proof. intros H Hg Hs w. specialize (H w). lia. Qed.

Lemma Calls_ret (a : A) : Calls 0 0 (ret a).
Proof. intros w. cbn. lia. Qed.

Lemma Calls_throw (msg : string) : Calls 0 0 (@throw A msg).
Proof. intros w. cbn. lia. Qed.

Lemma Calls_liftResult (x : Result A) : Calls 0 0 (liftResult x).
Proof. intros w. cbn. lia. Qed.

Lemma Calls_bind (g1 s1 g2 s2 : nat) (c : M A) (k : A -> M B) :
  Calls g1 s1 c -> (forall a, Calls g2 s2 (k a)) ->
  Calls (g1 + g2) (s1 + s2) (bind c k).
Proof.
  intros Hc Hk w. unfold bind. specialize (Hc w).
  destruct (c w) as [[a|msg] w1]; cbn [snd] in *.
  - specialize (Hk a w1). lia.
  - lia.
Qed.

Lemma Calls_tryCatch (g1 s1 g2 s2 : nat) (c : M A) (handler : string -> M A) :
  Calls g1 s1 c -> (forall msg, Calls g2 s2 (handler msg)) ->
  Calls (g1 + g2) (s1 + s2) (tryCatch c handler).
Proof.
  intros Hc Hh w. unfold tryCatch. specialize (Hc w).
  destruct (c w) as [[a|msg] w1]; cbn [snd] in *.
  - lia.
  - specialize (Hh msg w1). lia.
Qed.

End CallRules.

Section CallCounts.

Import Background.

Variable env : Env.

Lemma Calls_modify (f : World -> World) :
  (forall w, grabCalls (f w) = grabCalls w /\ scrollCalls (f w) = scrollCalls w) ->
  Calls 0 0 (modify f).
Proof. intros H w. cbn. destruct (H w) as [-> ->]. lia. Qed.

Lemma Calls_emit (e : Event) : Calls 0 0 (modify (emit e)).
Proof. apply Calls_modify. intros w. split; reflexivity. Qed.

Lemma Calls_updateCaptureState (sid st msg : string) (p : option Z) :
  Calls 0 0 (updateCaptureState sid st msg p).
Proof. intros w. cbn. lia. Qed.

Lemma Calls_sleep (ms : Z) : Calls 0 0 (sleep ms).
Proof. intros w. cbn. lia. Qed.

Lemma Calls_sendScrollTo (y : Z) : Calls 0 1 (sendScrollTo env y).
Proof. intros w. cbn. lia. Qed.

Lemma Calls_captureVisibleTab : Calls 1 0 (captureVisibleTab env).
Proof. intros w. cbn. lia. Qed.

Lemma Calls_captureWithRetry (retries : nat) :
  Calls retries 0 (captureWithRetry env retries).
Proof.
  induction retries as [|r IH]; [apply Calls_ret|].
  intros w. cbn [captureWithRetry].
  pose proof (Calls_captureVisibleTab w) as H1.
  destruct (captureVisibleTab env w) as [[u|m] w1]; cbn [snd] in *; [lia|].
  destruct (Js.includes "quota" m && (0 <? Z.of_nat r)); cbn [snd]; [|lia].
  pose proof (Calls_bind 0 0 r 0 (sleep 1000) (fun _ => captureWithRetry env r)
                (Calls_sleep 1000) (fun _ => IH) w1) as H2.
  cbn [Nat.add] in H2. lia.
Qed.

Lemma Calls_fetchBlob (dataUrl : option string) : Calls 0 0 (fetchBlob dataUrl).
Proof. destruct dataUrl; [apply Calls_ret | apply Calls_throw]. Qed.

Lemma Calls_captureLoop (sid : string) (sh vh vw n : Z) (fuel : nat) :
  forall i captures,
    Calls (3 * fuel) fuel (captureLoop env sid sh vh vw n fuel i captures).
Proof.
  induction fuel as [|fuel IH]; intros i captures; [apply Calls_ret|].
  cbn [captureLoop].
  destruct (i * (vh - OVERLAP_HEIGHT) >? sh - vh).
  { eapply Calls_weaken; [apply Calls_ret| |]; lia. }
  eapply Calls_weaken.
  - apply Calls_bind; [apply Calls_updateCaptureState|]. intros _.
    apply Calls_bind; [apply Calls_sendScrollTo|]. intros sr.
    instantiate (1 := fuel). instantiate (1 := (3 + 3 * fuel)%nat).
    destruct (negb (scroll_success sr)).
    + eapply Calls_weaken; [apply Calls_throw| |]; lia.
    + change (3 + 3 * fuel)%nat with (0 + (3 + (0 + 3 * fuel)))%nat.
      change fuel with (0 + (0 + (0 + fuel)))%nat at 2.
      apply Calls_bind; [apply Calls_sleep|]. intros _.
      apply Calls_bind; [apply Calls_captureWithRetry|]. intros dataUrl.
      apply Calls_bind; [apply Calls_fetchBlob|]. intros blob.
      apply IH.
  - lia.
  - lia.
Qed.

Lemma Calls_ensureContentScript : Calls 0 0 (ensureContentScript env).
Proof.
  unfold ensureContentScript.
  apply (Calls_bind 0 0 0 0); [apply Calls_emit|]. intros _.
  destruct (env_ping env); [apply Calls_ret|].
  apply (Calls_bind 0 0 0 0); [apply Calls_emit|]. intros _.
  destruct (env_inject env); [|apply Calls_throw].
  apply (Calls_bind 0 0 0 0); [apply Calls_sleep|]. intros _. apply Calls_ret.
Qed.

Lemma Calls_collectCaptures (sid : string) :
  Calls 300 100 (collectCaptures env sid).
Proof.
  unfold collectCaptures.
  apply (Calls_bind 0 0 300 100); [apply Calls_updateCaptureState|]. intros _.
  apply (Calls_bind 0 0 300 100); [apply Calls_ensureContentScript|]. intros _.
  apply (Calls_bind 0 0 300 100); [apply Calls_updateCaptureState|]. intros _.
  apply (Calls_bind 0 0 300 100); [apply Calls_emit|]. intros _.
  apply (Calls_bind 0 0 300 100); [apply Calls_liftResult|]. intros dims.
  destruct (negb (dims_success dims)).
  { eapply Calls_weaken; [apply Calls_throw| |]; lia. }
  pose proof (numCapturesOf_max (dims_scrollHeight dims) (dims_viewportHeight dims))
    as Hmax. unfold MAX_CAPTURES in Hmax.
  eapply Calls_weaken.
  - apply Calls_bind; [apply Calls_captureLoop|]. intros captures.
    instantiate (1 := 0%nat). instantiate (1 := 0%nat).
    destruct captures; [apply Calls_throw | apply Calls_ret].
  - lia.
  - lia.
Qed.

Lemma Calls_createOffscreenDocument : Calls 0 0 (createOffscreenDocument env).
Proof.
  unfold createOffscreenDocument.
  destruct (env_hasOffscreen env); [apply Calls_ret|].
  apply (Calls_bind 0 0 0 0); [apply Calls_emit|]. intros _.
  destruct (env_createDocument env) as [|m]; [apply Calls_sleep|].
  destruct (Js.includes "already exists" m); [apply Calls_ret | apply Calls_throw].
Qed.

Lemma Calls_sendToOffscreen (captures : list Capture) (ov : Z) :
  Calls 0 0 (sendToOffscreen env captures ov).
Proof.
  unfold sendToOffscreen.
  apply (Calls_bind 0 0 0 0); [apply Calls_emit|]. intros _.
  apply (Calls_bind 0 0 0 0); [apply Calls_liftResult|].
  intros [r|]; [apply Calls_ret | apply Calls_throw].
Qed.

Lemma Calls_scrollAndStitchCapture (sid : string) :
  Calls 300 101 (scrollAndStitchCapture env sid).
Proof.
  unfold scrollAndStitchCapture.
  apply (Calls_bind 300 100 0 1); [apply Calls_collectCaptures|].
  intros [captures dims].
  apply (Calls_bind 0 0 0 1); [apply Calls_updateCaptureState|]. intros _.
  apply (Calls_bind 0 0 0 1); [apply Calls_createOffscreenDocument|]. intros _.
  apply (Calls_bind 0 0 0 1); [apply Calls_sendToOffscreen|]. intros stitchResult.
  assert (Hrestore :
            Calls 0 1 (tryCatch (sendScrollTo env (dims_currentScrollY dims) ;;; ret tt)
                                (fun _ => ret tt) ;;; ret stitchResult)).
  { apply (Calls_bind 0 1 0 0); [|intros _; apply Calls_ret].
    apply (Calls_tryCatch 0 1 0 0); [|intros _; apply Calls_ret].
    apply (Calls_bind 0 1 0 0); [apply Calls_sendScrollTo|].
    intros _. apply Calls_ret. }
  destruct (stitch_error stitchResult) as [[|c rest]|]; try exact Hrestore.
  eapply Calls_weaken; [apply Calls_throw| |]; lia.
Qed.

Lemma Calls_captureSession (config : Config) (sid : string) :
  Calls 300 101 (captureSession env config sid).
Proof.
  unfold captureSession.
  apply (Calls_bind 0 0 300 101).
  { unfold getCurrentTab. destruct (env_tabs env); [apply Calls_throw | apply Calls_ret]. }
  intros tab.
  assert (Hthrow : forall msg, Calls 300 101 (@throw unit msg)).
  { intros msg. eapply Calls_weaken; [apply Calls_throw| |]; lia. }
  destruct (tab_id tab) as [[|id|id]|]; try apply Hthrow;
    (destruct (negb (isCapturableUrl (tab_url tab)));
     [ apply (Calls_bind 0 0 300 101); [apply Calls_updateCaptureState|];
       intros _; apply Hthrow
     | ]).
  all: apply (Calls_bind 0 0 300 101); [intros w; cbn; lia|]; intros _.
  all: apply (Calls_bind 0 0 300 101); [apply Calls_updateCaptureState|]; intros _.
  all: apply (Calls_bind 0 0 300 101);
    [ destruct (preCapture config); [|apply Calls_ret];
      apply (Calls_bind 0 0 0 0); [apply Calls_updateCaptureState|]; intros _;
      apply (Calls_bind 0 0 0 0); [apply Calls_emit|]; intros _; apply Calls_sleep
    | intros _ ].
  all: apply (Calls_bind 300 101 0 0); [apply Calls_scrollAndStitchCapture|];
    intros stitchResult.
  all: apply (Calls_bind 0 0 0 0); [apply Calls_updateCaptureState|]; intros _.
  all: apply (Calls_bind 0 0 0 0);
    [ apply (Calls_bind 0 0 0 0); [apply Calls_emit|]; intros _; apply Calls_liftResult
    | intros _ ].
  all: apply (Calls_bind 0 0 0 0); [apply Calls_updateCaptureState|]; intros _.
  all: intros w; cbn; lia.
Qed.

(** X6: one capture session makes at most 300 screenshot calls (3 attempts
    for each of at most 100 positions) and at most 101 scroll requests (one
    per position and one to restore the original position), whatever the
    browser answers. *)
Theorem X6_session_call_budget (config : Config) (w : World) :
  let w' := snd (startCapture env config w) in
  (grabCalls w <= grabCalls w' <= grabCalls w + 300)%nat /\
  (scrollCalls w <= scrollCalls w' <= scrollCalls w + 101)%nat.
Proof.
  intros w'.
  assert (H : Calls 300 101 (startCapture env config)).
  { unfold startCapture.
    apply (Calls_bind 300 101 0 0); [|intros _; apply Calls_ret].
    intros w0. unfold finally.
    pose proof (Calls_tryCatch 300 101 0 0
                  (captureSession env config (env_sessionId env))
                  (fun msg => updateCaptureState (env_sessionId env) "error"
                                ("Capture failed: " ++ msg) None)
                  (Calls_captureSession config (env_sessionId env))
                  (fun msg => Calls_updateCaptureState _ _ _ _) w0) as H.
    destruct (tryCatch _ _ w0) as [r w1]. cbn [snd] in *. cbn. lia. }
  exact (H w).
Qed.

End CallCounts.

(* ------------------------------------------------------------------ *)
(** ** More on the retry loop and the session *)

Section RetryTime.

Import Background.

Variable env : Env.

(** X7: with at least one attempt allowed, the retry loop never yields an
    undefined screenshot, and the waiting it adds is exactly one second for
    each attempt after the first. *)
Theorem X7_retry_backoff_time (retries : nat) :
  forall w,
    let res := captureWithRetry env (S retries) w in
    fst res <> Ok None /\
    clock (snd res) - clock w =
    1000 * (Z.of_nat (grabCalls (snd res)) - Z.of_nat (grabCalls w) - 1).
Proof.
  assert (Hone : forall w,
            clock (grabbed w) = clock w /\
            grabCalls (grabbed w) = S (grabCalls w)) by (intros; split; reflexivity).
  assert (Hwait : forall w,
            clock (backedOff w) = clock w + 1000 /\
            grabCalls (backedOff w) = grabCalls w) by (intros; split; reflexivity).
  induction retries as [|r IH]; intros w res; subst res.
  - destruct (Hone w) as [Hc Hg].
    destruct (env_captureVisibleTab env (grabCalls w)) as [u|m] eqn:E.
    + rewrite (captureWithRetry_success env 0 w u E). cbn [fst snd].
      split; [discriminate|lia].
    + rewrite (captureWithRetry_exhausted env w m E). cbn [fst snd].
      split; [discriminate|lia].
  - destruct (Hone w) as [Hc Hg].
    destruct (env_captureVisibleTab env (grabCalls w)) as [u|m] eqn:E.
    + rewrite (captureWithRetry_success env (S r) w u E). cbn [fst snd].
      split; [discriminate|lia].
    + destruct (Js.includes "quota" m) eqn:Eq.
      * rewrite (captureWithRetry_quota env r w m E Eq).
        destruct (IH (backedOff (grabbed w))) as [Hn Hk].
        destruct (Hwait (grabbed w)) as [Hc' Hg'].
        split; [exact Hn|]. lia.
      * rewrite (captureWithRetry_other env (S r) w m E Eq). cbn [fst snd].
        split; [discriminate|lia].
Qed.

End RetryTime.

Section KeepsRules.

Context {A B : Type}.
Variable R : World -> World -> Prop.
Hypothesis R_refl : forall w, R w w.
Hypothesis R_trans : forall w1 w2 w3, R w1 w2 -> R w2 w3 -> R w1 w3.

Lemma Keeps_ret (a : A) : Keeps R (ret a).
Proof. intros w. apply R_refl. Qed.

Lemma Keeps_throw (msg : string) : Keeps R (@throw A msg).
Proof. intros w. apply R_refl. Qed.

Lemma Keeps_liftResult (x : Result A) : Keeps R (liftResult x).
Proof. intros w. apply R_refl. Qed.

Lemma Keeps_bind (c : M A) (k : A -> M B) :
  Keeps R c -> (forall a, Keeps R (k a)) -> Keeps R (bind c k).
Proof.
  intros Hc Hk w. unfold bind. specialize (Hc w).
  destruct (c w) as [[a|msg] w1]; cbn [snd] in *; [|exact Hc].
  eapply R_trans; [exact Hc | apply Hk].
Qed.

Lemma Keeps_tryCatch (c : M A) (handler : string -> M A) :
  Keeps R c -> (forall msg, Keeps R (handler msg)) -> Keeps R (tryCatch c handler).
Proof.
  intros Hc Hh w. unfold tryCatch. specialize (Hc w).
  destruct (c w) as [[a|msg] w1]; cbn [snd] in *; [exact Hc|].
  eapply R_trans; [exact Hc | apply Hh].
Qed.

End KeepsRules.

Section SessionTable.

Import Background.

Variable env : Env.
Variable sid : string.

Lemma sameOthers_refl (w : World) : sameOthers sid w w.
Proof. reflexivity. Qed.

Lemma sameOthers_trans (w1 w2 w3 : World) :
  sameOthers sid w1 w2 -> sameOthers sid w2 w3 -> sameOthers sid w1 w3.
Proof. unfold sameOthers. intros H1 H2. now rewrite H2. Qed.

Lemma mapDelete_mapSet (v : Session) (m : list (string * Session)) :
  mapDelete sid (mapSet sid v m) = mapDelete sid m.
Proof.
  unfold mapDelete. induction m as [|[k' v'] m IH]; cbn.
  - now rewrite String.eqb_refl.
  - destruct (String.eqb k' sid) eqn:E; cbn.
    + now rewrite String.eqb_refl.
    + rewrite E. cbn. now rewrite IH.
Qed.

Lemma mapDelete_absent (m : list (string * Session)) :
  ~ In sid (map fst (mapDelete sid m)).
Proof.
  unfold mapDelete. intros H. apply in_map_iff in H.
  destruct H as [[k v] [Hk Hin]]. apply filter_In in Hin.
  destruct Hin as [_ Hneq]. cbn in Hk, Hneq. subst k.
  now rewrite String.eqb_refl in Hneq.
Qed.

Lemma mapDelete_others (m : list (string * Session)) (k : string) (v : Session) :
  k <> sid -> (In (k, v) (mapDelete sid m) <-> In (k, v) m).
Proof.
  intros Hk. unfold mapDelete. rewrite filter_In. cbn.
  apply String.eqb_neq in Hk. rewrite Hk. cbn. tauto.
Qed.

Ltac same_bind :=
  apply (Keeps_bind _ sameOthers_trans).

Lemma Same_untouched {A} (c : M A) :
  (forall w, activeSessions (snd (c w)) = activeSessions w) ->
  Keeps (sameOthers sid) c.
Proof. intros H w. unfold sameOthers. now rewrite H. Qed.

Lemma Same_updateCaptureState (s st msg : string) (p : option Z) :
  Keeps (sameOthers sid) (updateCaptureState s st msg p).
Proof. apply Same_untouched. reflexivity. Qed.

Lemma Same_emit (e : Event) : Keeps (sameOthers sid) (modify (emit e)).
Proof. apply Same_untouched. reflexivity. Qed.

Lemma Same_sleep (ms : Z) : Keeps (sameOthers sid) (sleep ms).
Proof. apply Same_untouched. reflexivity. Qed.

Lemma Same_sendScrollTo (y : Z) : Keeps (sameOthers sid) (sendScrollTo env y).
Proof. apply Same_untouched. reflexivity. Qed.

Lemma Same_captureWithRetry (retries : nat) : Keeps (sameOthers sid) (captureWithRetry env retries).
Proof.
  induction retries as [|r IH]; [apply Keeps_ret, sameOthers_refl|].
  intros w. cbn [captureWithRetry]. unfold captureVisibleTab.
  destruct (env_captureVisibleTab env (grabCalls w)) as [u|m]; cbn [snd];
    [reflexivity|].
  destruct (Js.includes "quota" m && (0 <? Z.of_nat r)); cbn [snd]; [|reflexivity].
  eapply sameOthers_trans; [|apply (Keeps_bind _ sameOthers_trans
                                      (sleep 1000) (fun _ => captureWithRetry env r)
                                      (Same_sleep 1000) (fun _ => IH))].
  reflexivity.
Qed.

Lemma Same_captureLoop (sh vh vw n : Z) (s : string) (fuel : nat) :
  forall i captures, Keeps (sameOthers sid) (captureLoop env s sh vh vw n fuel i captures).
Proof.
  induction fuel as [|fuel IH]; intros i captures;
    [apply Keeps_ret, sameOthers_refl|].
  cbn [captureLoop].
  destruct (i * (vh - OVERLAP_HEIGHT) >? sh - vh);
    [apply Keeps_ret, sameOthers_refl|].
  same_bind; [apply Same_updateCaptureState|]. intros _.
  same_bind; [apply Same_sendScrollTo|]. intros sr.
  destruct (negb (scroll_success sr)); [apply Keeps_throw, sameOthers_refl|].
  same_bind; [apply Same_sleep|]. intros _.
  same_bind; [apply Same_captureWithRetry|]. intros dataUrl.
  same_bind; [destruct dataUrl;
              [apply Keeps_ret | apply Keeps_throw]; apply sameOthers_refl|].
  intros blob. apply IH.
Qed.

Lemma Same_scrollAndStitchCapture (s : string) : Keeps (sameOthers sid) (scrollAndStitchCapture env s).
Proof.
  unfold scrollAndStitchCapture, collectCaptures.
  same_bind.
  { same_bind; [apply Same_updateCaptureState|]. intros _.
    same_bind.
    { unfold ensureContentScript. same_bind; [apply Same_emit|]. intros _.
      destruct (env_ping env); [apply Keeps_ret, sameOthers_refl|].
      same_bind; [apply Same_emit|]. intros _.
      destruct (env_inject env); [|apply Keeps_throw, sameOthers_refl].
      same_bind; [apply Same_sleep|]. intros _. apply Keeps_ret, sameOthers_refl. }
    intros _. same_bind; [apply Same_updateCaptureState|]. intros _.
    same_bind; [apply Same_emit|]. intros _.
    same_bind; [apply Keeps_liftResult, sameOthers_refl|]. intros dims.
    destruct (negb (dims_success dims)); [apply Keeps_throw, sameOthers_refl|].
    same_bind; [apply Same_captureLoop|]. intros captures.
    destruct captures; [apply Keeps_throw | apply Keeps_ret]; apply sameOthers_refl. }
  intros [captures dims].
  same_bind; [apply Same_updateCaptureState|]. intros _.
  same_bind.
  { unfold createOffscreenDocument.
    destruct (env_hasOffscreen env); [apply Keeps_ret, sameOthers_refl|].
    same_bind; [apply Same_emit|]. intros _.
    destruct (env_createDocument env) as [|m]; [apply Same_sleep|].
    destruct (Js.includes "already exists" m);
      [apply Keeps_ret | apply Keeps_throw]; apply sameOthers_refl. }
  intros _. same_bind.
  { unfold sendToOffscreen. same_bind; [apply Same_emit|]. intros _.
    same_bind; [apply Keeps_liftResult, sameOthers_refl|].
    intros [r|]; [apply Keeps_ret | apply Keeps_throw]; apply sameOthers_refl. }
  intros stitchResult.
  assert (Hrestore :
            Keeps (sameOthers sid) (tryCatch (sendScrollTo env (dims_currentScrollY dims) ;;; ret tt)
                           (fun _ => ret tt) ;;; ret stitchResult)).
  { same_bind; [|intros _; apply Keeps_ret, sameOthers_refl].
    apply (Keeps_tryCatch _ sameOthers_trans);
      [|intros _; apply Keeps_ret, sameOthers_refl].
    same_bind; [apply Same_sendScrollTo|]. intros _.
    apply Keeps_ret, sameOthers_refl. }
  destruct (stitch_error stitchResult) as [[|c rest]|]; try exact Hrestore.
  apply Keeps_throw, sameOthers_refl.
Qed.

Lemma Same_captureSession (config : Config) : Keeps (sameOthers sid) (captureSession env config sid).
Proof.
  unfold captureSession.
  same_bind.
  { unfold getCurrentTab.
    destruct (env_tabs env); [apply Keeps_throw | apply Keeps_ret];
      apply sameOthers_refl. }
  intros tab.
  destruct (tab_id tab) as [[|id|id]|]; try (apply Keeps_throw, sameOthers_refl);
    (destruct (negb (isCapturableUrl (tab_url tab)));
     [ same_bind; [apply Same_updateCaptureState|]; intros _;
       apply Keeps_throw, sameOthers_refl
     | ]).
  all: same_bind;
    [ intros w; unfold sameOthers, registerSession; cbn; apply mapDelete_mapSet
    | intros _ ].
  all: same_bind; [apply Same_updateCaptureState|]; intros _.
  all: same_bind;
    [ destruct (preCapture config); [|apply Keeps_ret, sameOthers_refl];
      same_bind; [apply Same_updateCaptureState|]; intros _;
      same_bind; [apply Same_emit|]; intros _; apply Same_sleep
    | intros _ ].
  all: same_bind; [apply Same_scrollAndStitchCapture|]; intros stitchResult.
  all: same_bind; [apply Same_updateCaptureState|]; intros _.
  all: same_bind;
    [ unfold download; same_bind; [apply Same_emit|]; intros _;
      apply Keeps_liftResult, sameOthers_refl
    | intros _ ].
  all: same_bind; [apply Same_updateCaptureState|]; intros _.
  all: apply Same_untouched; reflexivity.
Qed.

End SessionTable.

Section SessionOutcome.

Import Background.

Variable env : Env.

(** X8: when [startCapture] returns, its session is no longer in
    [activeSessions], on the success path and on every failure path alike,
    and the entries of all other sessions are exactly those present before. *)
Theorem X8_session_retired (config : Config) (w : World) :
  let sid := env_sessionId env in
  let w' := snd (startCapture env config w) in
  activeSessions w' = mapDelete sid (activeSessions w) /\
  ~ In sid (map fst (activeSessions w')) /\
  forall k v, k <> sid -> (In (k, v) (activeSessions w') <-> In (k, v) (activeSessions w)).
Proof.
  intros sid w'.
  assert (H : activeSessions w' = mapDelete sid (activeSessions w)).
  { unfold w', startCapture, bind, finally.
    pose proof (Keeps_tryCatch _ (sameOthers_trans sid)
                  (captureSession env config sid)
                  (fun msg => updateCaptureState sid "error"
                                ("Capture failed: " ++ msg) None)
                  (Same_captureSession env sid config)
                  (fun msg => Same_updateCaptureState sid _ _ _ _) w) as Hk.
    fold sid. destruct (tryCatch _ _ w) as [r w1]. cbn [snd] in Hk.
    destruct r; cbn; exact Hk. }
  rewrite H. split; [reflexivity|]. split; [apply mapDelete_absent|].
  intros k v Hk. now apply mapDelete_others.
Qed.

(** X9: [startCapture] never throws: it returns the session identifier,
    and the tracker then holds the completion record when the capture went
    through, or an error record whose message is "Capture failed: " followed
    by the message of the error that stopped it. *)
Theorem X9_failures_become_error_records (config : Config) (w : World) :
  let sid := env_sessionId env in
  let w' := snd (startCapture env config w) in
  fst (startCapture env config w) = Ok sid /\
  match fst (captureSession env config sid w) with
  | Ok _ =>
      holds (currentCaptureState w') (sid, "completed", "Capture complete!", Some 100)
  | Throw msg =>
      holds (currentCaptureState w')
            (sid, "error", String.append "Capture failed: " msg, None)
  end.
Proof.
  intros sid w'. unfold w', startCapture, bind, finally, tryCatch. fold sid.
  destruct (captureSession_does env config sid w) as [evs [[_ [_ Hst]] Hpost]].
  destruct (captureSession env config sid w) as [[[]|msg] w1]; cbn [fst snd] in *.
  - split; [reflexivity|].
    destruct Hpost as [k [_ [_ [_ Hl]]]]. unfold tracks in Hst. rewrite Hl in Hst.
    exact Hst.
  - split; [reflexivity|]. cbn. exists (clock w1). reflexivity.
Qed.

(** X10: a finished session never leaves the keyboard shortcut blocked:
    whatever happened, the tracker ends in a terminal status, so the next
    capture command starts a new session. *)
Theorem X10_hotkey_free_after_session (env2 : Env) (config : Config) (w : World) :
  let w' := snd (startCapture env config w) in
  captureInProgress w' = false /\
  fst (onCommand env2 "capture-page" w') = Ok true.
Proof.
  intros w'.
  assert (H : captureInProgress w' = false).
  { destruct (startCapture_does env config w) as [evs [[_ [_ Hst]] Hpost]].
    fold w' in Hst. unfold tracks in Hst.
    destruct Hpost as [_ [k [_ [[_ [_ Hl]] | [msg [_ [_ Hl]]]]]]];
      rewrite Hl in Hst; destruct Hst as [t Hcs];
      unfold captureInProgress; rewrite Hcs; reflexivity. }
  split; [exact H|].
  unfold onCommand. cbn [String.eqb Ascii.eqb Bool.eqb]. rewrite H.
  unfold bind. 
  destruct (startCapture_does env2 (env_storedConfig env2) w') as [_ [_ [Hr _]]].
  destruct (startCapture env2 (env_storedConfig env2) w') as [r w2].
  cbn [fst] in Hr. subst r. reflexivity.
Qed.

(** X11: the clearing timeout of a completed session only clears the record
    of that session: once a later session with another identifier has run,
    the earlier session's timeout leaves the later session's record in
    place. *)
Theorem X11_timeout_spares_later_session
    (envB : Env) (configA configB : Config) (w : World) :
  env_sessionId envB <> env_sessionId env ->
  let wA := snd (startCapture env configA w) in
  let wB := snd (startCapture envB configB wA) in
  getCaptureStatus wB <> None /\
  getCaptureStatus (clearIfSession (env_sessionId env) wB) = getCaptureStatus wB.
Proof.
  intros Hneq wA wB. apply String.eqb_neq in Hneq.
  destruct (startCapture_does envB configB wA) as [evs [[_ [_ Hst]] Hpost]].
  fold wB in Hst. unfold tracks in Hst.
  assert (Hcs : exists cs, currentCaptureState wB = Some cs /\
                           sessionId cs = env_sessionId envB).
  { destruct Hpost as [_ [k [_ [[_ [_ Hl]] | [msg [_ [_ Hl]]]]]]];
      rewrite Hl in Hst; destruct Hst as [t Hcs]; eexists; split;
      try exact Hcs; reflexivity. }
  destruct Hcs as [cs [Hcs Hsid]].
  unfold getCaptureStatus, clearIfSession. rewrite Hcs, Hsid, Hneq.
  split; [discriminate | exact Hcs].
Qed.

End SessionOutcome.

Lemma X11_timeout_spares_later_session_witness :
  let envA := Sample.browser Sample.tab (Sample.page 1000 1000) 0 Sample.grabOk in
  let envB := mkEnv "p7m2c" [Sample.tab] true (Ok tt) (Ok (Sample.page 1000 1000))
                    (fun _ y => Ok (mkScrollResult true y)) Sample.grabOk true (Ok tt)
                    (fun _ _ => Ok (Some (mkStitchResponse true "blob:2" None)))
                    (Ok tt) DEFAULT_CONFIG in
  let wA := snd (Background.startCapture envA DEFAULT_CONFIG initialWorld) in
  let wB := snd (Background.startCapture envB DEFAULT_CONFIG wA) in
  Background.getCaptureStatus wB <> None /\
  Background.getCaptureStatus (Background.clearIfSession "k3x9q" wB) =
  Background.getCaptureStatus wB.
Proof.
  intros envA envB wA wB.
  apply (X11_timeout_spares_later_session envA envB DEFAULT_CONFIG DEFAULT_CONFIG
           initialWorld).
  cbn. discriminate.
Defined.

(* ------------------------------------------------------------------ *)
(** ** Pages that cannot be captured *)

Section RestrictedPages.

Import Background.

Lemma prefix_append (s rest : string) :
  String.prefix s (String.append s rest) = true.
Proof.
  induction s as [|c s IH]; cbn.
  - destruct rest; reflexivity.
  - destruct (Ascii.ascii_dec c c) as [_|Hneq]; [exact IH | contradiction].
Qed.

(** X12: a missing or empty URL is not capturable, and neither is any URL
    that starts with one of the restricted schemes (chrome://,
    chrome-extension://, brave://, edge://, opera://, about:, view-source:,
    file://); every URL that starts with http:// or https:// is capturable. *)
Theorem X12_restricted_urls_rejected :
  isCapturableUrl None = false /\
  isCapturableUrl (Some "") = false /\
  (forall scheme rest,
     In scheme restrictedSchemes ->
     isCapturableUrl (Some (String.append scheme rest)) = false) /\
  (forall rest,
     isCapturableUrl (Some (String.append "https://" rest)) = true /\
     isCapturableUrl (Some (String.append "http://" rest)) = true).
Proof.
  split; [reflexivity|]. split; [reflexivity|]. split.
  - intros scheme rest Hin.
    assert (Hex : existsb (fun s => Js.startsWith s (String.append scheme rest))
                          restrictedSchemes = true).
    { apply existsb_exists. exists scheme. split; [exact Hin|].
      apply prefix_append. }
    unfold isCapturableUrl.
    destruct (String.append scheme rest) eqn:E.
    + reflexivity.
    + rewrite Hex. reflexivity.
  - intros rest. split; reflexivity.
Qed.

(** X13: on a tab whose URL is not capturable the session stops before
    anything is asked of the page: the only calls are the two error
    notifications, no screenshot or scroll request is made, no timeout is
    scheduled and no session is registered; the tracker ends with the error
    "Capture failed: URL not capturable". *)
Theorem X13_restricted_page_untouched
    (env : Env) (config : Config) (w : World)
    (tab : Tab) (others : list Tab) (id : Z) :
  env_tabs env = tab :: others ->
  tab_id tab = Some id ->
  id <> 0 ->
  isCapturableUrl (tab_url tab) = false ->
  let sid := env_sessionId env in
  let w' := snd (startCapture env config w) in
  trace w' = trace w ++
    [EvNotify sid "error" notCapturableMessage None;
     EvNotify sid "error" "Capture failed: URL not capturable" None] /\
  grabCalls w' = grabCalls w /\
  scrollCalls w' = scrollCalls w /\
  timers w' = timers w /\
  activeSessions w' = mapDelete sid (activeSessions w) /\
  currentCaptureState w' =
    Some (mkCaptureState sid "error" "Capture failed: URL not capturable" None
                         (clock w)).
Proof.
  intros Htabs Hid Hnz Hurl sid w'.
  unfold w', startCapture, bind, finally, tryCatch, captureSession, bind,
    getCurrentTab.
  rewrite Htabs. cbn [ret]. rewrite Hid.
  destruct id as [|p|p]; [contradiction| |]; rewrite Hurl; cbn;
    rewrite <- app_assoc; repeat split; reflexivity.
Qed.

Lemma X13_restricted_page_untouched_witness :
  let env := Sample.browser Sample.internalTab (Sample.page 3000 1000) 2000
                            Sample.grabOk in
  let w' := snd (startCapture env DEFAULT_CONFIG initialWorld) in
  trace w' =
    [EvNotify "k3x9q" "error" notCapturableMessage None;
     EvNotify "k3x9q" "error" "Capture failed: URL not capturable" None] /\
  grabCalls w' = 0%nat /\ scrollCalls w' = 0%nat.
Proof.
  intros env w'.
  destruct (X13_restricted_page_untouched env DEFAULT_CONFIG initialWorld
              Sample.internalTab [] 8 eq_refl eq_refl ltac:(discriminate) eq_refl)
    as [Ht [Hg [Hs _]]].
  split; [exact Ht|]. split; [exact Hg | exact Hs].
Defined.

End RestrictedPages.

(* ------------------------------------------------------------------ *)
(** ** More on the stitcher *)

Section StitchOutcome.

Import Offscreen.

Variable decode : string -> Result Image.

Lemma loadImages_outcome (captures : list Capture) :
  match loadImages decode captures with
  | Ok images =>
      List.length images = List.length captures /\
      Forall (fun c => exists im, decode (blob c) = Ok im) captures
  | Throw msg =>
      exists before c after,
        captures = before ++ c :: after /\
        Forall (fun c => exists im, decode (blob c) = Ok im) before /\
        decode (blob c) = Throw msg
  end.
Proof.
  induction captures as [|c rest IH]; cbn [loadImages].
  - split; [reflexivity | constructor].
  - destruct (decode (blob c)) as [im|msg] eqn:E.
    + destruct (loadImages decode rest) as [images|msg].
      * destruct IH as [Hlen Hall]. split; [cbn; now rewrite Hlen|].
        constructor; [eauto | exact Hall].
      * destruct IH as [before [c' [after [-> [Hall Hc']]]]].
        exists (c :: before), c', after. split; [reflexivity|].
        split; [constructor; eauto | exact Hc'].
    + exists [], c, rest. split; [reflexivity|]. split; [constructor | exact E].
Qed.

(** In a document that gives the context and encodes the PNG, the stitcher
    with the failures of the canvas is the stitcher. *)
Lemma stitchCapturedViewportsIn_ready
    (host : CanvasHost) (captures : list Capture) (overlapHeight : Z) :
  (forall w h, host_getContext host w h = true) ->
  (forall canvas, host_convertToBlob host canvas = Ok tt) ->
  stitchCapturedViewportsIn decode host captures overlapHeight =
  stitchCapturedViewports decode captures overlapHeight.
Proof.
  intros Hctx Hblob. unfold stitchCapturedViewportsIn, stitchCapturedViewports.
  destruct captures as [|c0 rest]; [reflexivity|].
  destruct (loadImages decode (c0 :: rest)) as [[|first others]|m];
    try reflexivity.
  rewrite Hctx, Hblob. reflexivity.
Qed.

(** X14: the stitcher fails exactly when there is no capture, when a
    capture does not decode, when the canvas gives no 2D context, or when
    the PNG encoding is rejected, in this order of precedence; the error is
    "Failed to stitch captures: " followed by "No captures to stitch", by
    the decoder's message for the first capture that fails, by "Failed to
    get canvas context", or by the message of the encoder.  In every other
    case it returns the canvas that the draw calls produce. *)
Theorem X14_stitch_outcome
    (host : CanvasHost) (captures : list Capture) (overlapHeight : Z) :
  match stitchCapturedViewportsIn decode host captures overlapHeight with
  | Ok canvas =>
      captures <> [] /\
      Forall (fun c => exists im, decode (blob c) = Ok im) captures /\
      stitchCapturedViewports decode captures overlapHeight = Ok canvas /\
      host_getContext host (canvasWidth canvas) (canvasHeight canvas) = true /\
      exists done, host_convertToBlob host canvas = Ok done
  | Throw msg =>
      (captures = [] /\
       msg = "Failed to stitch captures: No captures to stitch") \/
      (exists before c after m,
         captures = before ++ c :: after /\
         Forall (fun c => exists im, decode (blob c) = Ok im) before /\
         decode (blob c) = Throw m /\
         msg = String.append "Failed to stitch captures: " m) \/
      (exists canvas,
         stitchCapturedViewports decode captures overlapHeight = Ok canvas /\
         ((host_getContext host (canvasWidth canvas) (canvasHeight canvas) = false /\
           msg = "Failed to stitch captures: Failed to get canvas context") \/
          (host_getContext host (canvasWidth canvas) (canvasHeight canvas) = true /\
           exists m,
             host_convertToBlob host canvas = Throw m /\
             msg = String.append "Failed to stitch captures: " m)))
  end.
Proof.
  unfold stitchCapturedViewportsIn, stitchCapturedViewports.
  destruct captures as [|c0 rest]; [left; split; reflexivity|].
  pose proof (loadImages_outcome (c0 :: rest)) as H.
  destruct (loadImages decode (c0 :: rest)) as [[|first others]|m].
  - destruct H as [Hlen _]. discriminate Hlen.
  - destruct H as [_ Hall].
    match goal with
    | |- context [drawImages ?a ?b ?l ?i ?y ?c'] =>
        destruct (drawImages_size a b l i y c') as [Hw Hh];
        remember (fst (drawImages a b l i y c')) as out eqn:Eout
    end.
    cbn [canvasWidth canvasHeight newCanvas] in Hw, Hh.
    rewrite <- Hw, <- Hh.
    destruct (host_getContext host (canvasWidth out) (canvasHeight out)) eqn:Ectx;
      cbn [negb].
    + destruct (host_convertToBlob host out) as [done|m] eqn:Eblob.
      * split; [discriminate|]. split; [exact Hall|]. split; [reflexivity|].
        split; [exact Ectx | eauto].
      * right. right. exists out. split; [reflexivity|]. right.
        split; [exact Ectx|]. exists m. split; [exact Eblob | reflexivity].
    + right. right. exists out. split; [reflexivity|]. left.
      split; [exact Ectx | reflexivity].
  - destruct H as [before [c [after [Heq [Hall Hc]]]]].
    right. left. exists before, c, after, m. auto.
Qed.

End StitchOutcome.

Lemma Ok_inj {A} (a b : A) : Ok a = Ok b -> a = b.
Proof. intros H. now injection H. Qed.

Section StitchDraws.

Import Offscreen.

Lemma drawImages_calls (cw ov : Z) (images : list LoadedImage) :
  forall i y ctx,
    0 <= i ->
    globalAlpha ctx = 1%Q ->
    let out := drawImages cw ov images i y ctx in
    exists new,
      calls (fst out) = calls ctx ++ new /\
      globalAlpha (fst out) = 1%Q /\
      Forall (plainCopy cw) new /\
      tiled y new (snd out) /\
      Z.of_nat (List.length new) =
        (if i =? 0 then Z.max 0 (2 * Z.of_nat (List.length images) - 1)
         else 2 * Z.of_nat (List.length images)).
Proof.
  induction images as [|im images IH]; intros i y ctx Hi Halpha out; subst out.
  - exists []. cbn [drawImages fst snd]. rewrite app_nil_r.
    split; [reflexivity|]. split; [exact Halpha|]. split; [constructor|].
    split; [reflexivity|]. cbn. destruct (i =? 0); reflexivity.
  - cbn [drawImages].
    match goal with
    | |- context [drawImages _ _ _ ?i' ?y' ?c'] =>
        destruct (IH i' y' c') as [new [Hc [Ha [Hp [Ht Hl]]]]]
    end.
    { lia. }
    { destruct (i >? 0); [reflexivity | exact Halpha]. }
    rewrite Hc, Ha.
    destruct (i =? 0) eqn:E0.
    + assert (i = 0) by lia. subst i. cbn [Z.gtb Z.compare] in *.
      eexists. split; [cbn [calls drawImage]; rewrite <- app_assoc; reflexivity|].
      split; [reflexivity|].
      split.
      { constructor; [|exact Hp]. unfold plainCopy. cbn. rewrite Halpha.
        repeat split. now left. }
      split.
      { cbn [tiled app dy dh]. rewrite !Z.sub_0_r, !Z.add_0_r in *.
        split; [reflexivity | exact Ht]. }
      cbn [List.length app]. change (0 + 1 =? 0) with false in Hl.
      rewrite !Nat2Z.inj_succ. lia.
    + assert (Hgt : (i >? 0) = true) by lia. rewrite Hgt in *.
      eexists. split.
      { cbn [calls drawImage setGlobalAlpha]. rewrite <- !app_assoc. reflexivity. }
      split; [reflexivity|].
      split.
      { constructor; [|constructor; [|exact Hp]]; unfold plainCopy; cbn;
          repeat split; auto. }
      split.
      { cbn [tiled app dy dh]. split; [reflexivity|]. split; [reflexivity|].
        replace (y + ov + (height (img im) - ov - ov))
          with (y + (height (img im) - ov)) by lia.
        exact Ht. }
      cbn [List.length app].
      assert (E1 : (i + 1 =? 0) = false) by lia. rewrite E1 in Hl.
      rewrite !Nat2Z.inj_succ. lia.
Qed.

Lemma drawImages_cursor_from (cw ov : Z) (images : list LoadedImage) :
  forall i y ctx,
    0 < i ->
    snd (drawImages cw ov images i y ctx) =
    fold_left (fun totalHeight image =>
                 totalHeight + (height (img image) - ov)) images y.
Proof.
  induction images as [|im images IH]; intros i y ctx Hi; cbn [drawImages fold_left].
  - reflexivity.
  - assert (E0 : (i =? 0) = false) by lia. rewrite E0. apply IH. lia.
Qed.

Lemma drawImages_cursor (cw ov : Z) (first : LoadedImage) (rest : list LoadedImage) :
  forall ctx,
    snd (drawImages cw ov (first :: rest) 0 0 ctx) = totalHeightOf first rest ov.
Proof.
  intros ctx. cbn [drawImages Z.eqb]. unfold totalHeightOf.
  rewrite drawImages_cursor_from by lia. now rewrite Z.add_0_l.
Qed.

(** X15: for any successful stitch of n frames the canvas width and height
    lie in [1, 32767], [globalAlpha] is back at 1, and the context has
    received 2n - 1 draw calls, each an unscaled copy (destination size equal
    to source size) from the left edge of a frame to the left edge of the
    canvas, as wide as frame 0, at opacity 1 or 0.5. *)
Theorem X15_draw_calls_shape
    (decode : string -> Result Image) (captures : list Capture)
    (overlapHeight : Z) (canvas : Canvas) (first : LoadedImage)
    (rest : list LoadedImage) :
  loadImages decode captures = Ok (first :: rest) ->
  stitchCapturedViewports decode captures overlapHeight = Ok canvas ->
  1 <= canvasWidth canvas <= 32767 /\
  1 <= canvasHeight canvas <= 32767 /\
  globalAlpha canvas = 1%Q /\
  Z.of_nat (List.length (calls canvas)) = 2 * Z.of_nat (List.length captures) - 1 /\
  Forall (plainCopy (width (img first))) (calls canvas).
Proof.
  intros Hload Hrun. unfold stitchCapturedViewports in Hrun.
  pose proof (loadImages_outcome decode captures) as Hlen.
  rewrite Hload in Hrun, Hlen. destruct Hlen as [Hlen _].
  destruct captures as [|c0 cs]; [discriminate Hlen|].
  match type of Hrun with
  | context [drawImages ?a ?b ?l ?i ?y ?c'] =>
      destruct (drawImages_size a b l i y c') as [Hw Hh];
      destruct (drawImages_calls a b l i y c' ltac:(lia) eq_refl)
        as [new [Hc [Ha [Hp [_ Hl]]]]];
      remember (drawImages a b l i y c') as out eqn:Eout
  end.
  clear Eout. injection Hrun as <-.
  rewrite Hw, Hh, Ha, Hc. cbn [canvasWidth canvasHeight newCanvas calls app].
  split; [apply sanitize_range; lia|]. split; [apply sanitize_range; lia|].
  split; [reflexivity|]. split; [|exact Hp].
  rewrite Hl. cbn [Z.eqb].
  change (Datatypes.length (c0 :: cs)) with (List.length (c0 :: cs)).
  rewrite <- Hlen. cbn [List.length]. rewrite !Nat2Z.inj_succ. lia.
Qed.

Lemma X15_draw_calls_shape_witness :
  exists canvas,
    stitchCapturedViewports Sample.decoder
      [Sample.captured "frameA" 0; Sample.captured "frameB" 925] 75 = Ok canvas /\
    Z.of_nat (List.length (calls canvas)) = 3 /\
    Forall (plainCopy 800) (calls canvas).
Proof.
  eexists. split; [reflexivity|].
  destruct (X15_draw_calls_shape Sample.decoder
              [Sample.captured "frameA" 0; Sample.captured "frameB" 925] 75
              _
              (mkLoadedImage (Sample.frame 1 800 1000) (Sample.captured "frameA" 0))
              [mkLoadedImage (Sample.frame 2 800 1000) (Sample.captured "frameB" 925)]
              eq_refl eq_refl) as [_ [_ [_ [Hn Hp]]]].
  split; [exact Hn | exact Hp].
Defined.

(** From the second frame on, no draw call has a negative height when the
    overlap is not negative and every frame is at least twice as high as the
    overlap. *)
Lemma drawImages_heights_from (cw ov : Z) (images : list LoadedImage) :
  forall i y ctx,
    0 < i ->
    0 <= ov ->
    Forall (fun im => 2 * ov <= height (img im)) images ->
    Forall (fun c => 0 <= dh c) (calls ctx) ->
    Forall (fun c => 0 <= dh c) (calls (fst (drawImages cw ov images i y ctx))).
Proof.
  induction images as [|im images IH]; intros i y ctx Hi Hov Hall Hctx;
    cbn [drawImages fst]; [exact Hctx|].
  inversion Hall as [|? ? Him Hrest]; subst.
  assert (E0 : (i =? 0) = false) by lia.
  assert (Hgt : (i >? 0) = true) by lia.
  rewrite E0, Hgt. apply IH; [lia | exact Hov | exact Hrest |].
  cbn [calls drawImage setGlobalAlpha].
  apply Forall_app. split; [apply Forall_app; split; [exact Hctx|]|];
    constructor; try constructor; cbn [dh]; lia.
Qed.

(** X16: when the overlap is not negative, frame 0 has a height that is not
    negative and every later frame is at least twice as high as the overlap,
    the destination rectangles of the draw calls tile the canvas from top to
    bottom without gap or overlap: none has a negative height, the first
    starts at row 0, each next one starts at the row where the previous one
    ended, and the last one ends at the height computed for the canvas
    before clamping. *)
Theorem X16_draw_calls_tile_the_canvas
    (decode : string -> Result Image) (captures : list Capture)
    (overlapHeight : Z) (canvas : Canvas) (first : LoadedImage)
    (rest : list LoadedImage) :
  loadImages decode captures = Ok (first :: rest) ->
  stitchCapturedViewports decode captures overlapHeight = Ok canvas ->
  0 <= overlapHeight ->
  0 <= height (img first) ->
  Forall (fun im => 2 * overlapHeight <= height (img im)) rest ->
  Forall (fun c => 0 <= dh c) (calls canvas) /\
  tiled 0 (calls canvas)
        (specCanvasHeight (map (fun i => height (img i)) (first :: rest))
                          overlapHeight).
Proof.
  intros Hload Hrun Hov Hfirst Hrest. unfold stitchCapturedViewports in Hrun.
  rewrite Hload in Hrun.
  destruct captures as [|c0 cs]; [discriminate Hload|].
  apply Ok_inj in Hrun. split.
  - subst canvas. cbn [drawImages Z.eqb Z.gtb Z.compare].
    apply drawImages_heights_from; [lia | exact Hov | exact Hrest |].
    cbn [calls drawImage newCanvas app]. constructor; [|constructor].
    cbn [dh]. lia.
  - match type of Hrun with
    | context [drawImages ?a ?b ?l ?i ?y ?c'] =>
        destruct (drawImages_calls a b l i y c' ltac:(lia) eq_refl)
          as [new [Hc [_ [_ [Ht _]]]]];
        rewrite (drawImages_cursor a b first rest c') in Ht;
        remember (drawImages a b l i y c') as out eqn:Eout
    end.
    clear Eout. subst canvas.
    rewrite Hc. cbn [calls newCanvas app]. rewrite <- totalHeightOf_sum. exact Ht.
Qed.

Lemma X16_draw_calls_tile_the_canvas_witness :
  exists canvas,
    stitchCapturedViewports Sample.decoder
      [Sample.captured "frameA" 0; Sample.captured "frameB" 925] 75 = Ok canvas /\
    Forall (fun c => 0 <= dh c) (calls canvas) /\
    tiled 0 (calls canvas) 1925.
Proof.
  eexists. split; [reflexivity|].
  apply (X16_draw_calls_tile_the_canvas Sample.decoder
           [Sample.captured "frameA" 0; Sample.captured "frameB" 925] 75
           _
           (mkLoadedImage (Sample.frame 1 800 1000) (Sample.captured "frameA" 0))
           [mkLoadedImage (Sample.frame 2 800 1000) (Sample.captured "frameB" 925)]
           eq_refl eq_refl).
  - lia.
  - cbn. lia.
  - constructor; [cbn; lia | constructor].
Defined.

End StitchDraws.

Section StitchPixels.

Import Offscreen.

Lemma drawImage_other_rows (image : Image) (a b c d e f g h : Z) (ctx : Canvas)
                           (x y : Z) :
  inSpan f h y = false ->
  canvasAt (drawImage image a b c d e f g h ctx) x y = canvasAt ctx x y.
Proof.
  intros Hy. cbn [canvasAt drawImage]. rewrite Hy.
  now rewrite !andb_false_r, ?andb_false_l.
Qed.

Lemma inSpan_below (start len v : Z) :
  v < start -> v < start + len -> inSpan start len v = false.
Proof.
  intros H1 H2. unfold inSpan.
  destruct (start <=? v) eqn:E1; [lia|].
  destruct (start + len <=? v) eqn:E2; [lia|]. reflexivity.
Qed.

(** Frames after the first, each at least as high as a non-negative
    overlap, are drawn at or below the cursor: rows above it stay as they
    are. *)
Lemma drawImages_rows_above (cw ov : Z) (images : list LoadedImage) :
  0 <= ov ->
  Forall (fun im => ov <= height (img im)) images ->
  forall i y ctx x row,
    0 < i -> row < y ->
    canvasAt (fst (drawImages cw ov images i y ctx)) x row = canvasAt ctx x row.
Proof.
  intros Hov Hall. induction Hall as [|im images Him _ IH];
    intros i y ctx x row Hi Hrow; cbn [drawImages fst]; [reflexivity|].
  assert (E0 : (i =? 0) = false) by lia.
  assert (Eg : (i >? 0) = true) by lia.
  rewrite E0, Eg. rewrite IH by lia.
  rewrite drawImage_other_rows by (apply inSpan_below; lia).
  cbn [canvasAt setGlobalAlpha].
  rewrite drawImage_other_rows by (apply inSpan_below; lia).
  reflexivity.
Qed.


(** X17: when the overlap is not negative and every later frame is at
    least as high as the overlap, frame 0 appears unchanged at the top of the
    stitched canvas, whatever the number of frames: every canvas pixel that
    lies within frame 0 is frame 0's pixel, fully opaque. *)
Theorem X17_first_frame_kept
    (decode : string -> Result Image) (captures : list Capture)
    (overlapHeight : Z) (canvas : Canvas) (first : LoadedImage)
    (rest : list LoadedImage) :
  loadImages decode captures = Ok (first :: rest) ->
  stitchCapturedViewports decode captures overlapHeight = Ok canvas ->
  0 <= overlapHeight ->
  Forall (fun im => overlapHeight <= height (img im)) rest ->
  forall x y,
    0 <= x < Z.min (width (img first)) (canvasWidth canvas) ->
    0 <= y < Z.min (height (img first)) (canvasHeight canvas) ->
    canvasAt canvas x y = opaque (pixelAt (img first) x y).
Proof.
  intros Hload Hrun Hov Hall x y Hx Hy.
  unfold stitchCapturedViewports in Hrun. rewrite Hload in Hrun.
  destruct captures as [|c0 cs]; [discriminate Hload|].
  match type of Hrun with
  | context [drawImages ?a ?b ?l ?i ?y ?c'] =>
      destruct (drawImages_size a b l i y c') as [Hw Hh]
  end.
  apply Ok_inj in Hrun. subst canvas. rewrite Hw in Hx. rewrite Hh in Hy.
  cbn [canvasWidth canvasHeight newCanvas] in Hx, Hy.
  cbn [drawImages Z.eqb Z.gtb Z.compare fst].
  rewrite drawImages_rows_above by (try assumption; lia).
  cbn [canvasAt drawImage newCanvas canvasWidth canvasHeight globalAlpha].
  rewrite sourceOver_opaque.
  replace (0 + (x - 0)) with x by lia.
  replace (0 + (y - (0 + 0))) with y by lia.
  rewrite !Z.sub_0_r, !Z.add_0_l.
  unfold inside, inSpan.
  repeat match goal with
  | |- context [?a <=? ?b] =>
      let E := fresh in destruct (a <=? b) eqn:E; [|lia]
  | |- context [?a <? ?b] =>
      let E := fresh in destruct (a <? b) eqn:E; [|lia]
  end.
  reflexivity.
Qed.

Lemma X17_first_frame_kept_witness :
  exists canvas,
    stitchCapturedViewports Sample.decoder
      [Sample.captured "frameA" 0; Sample.captured "frameB" 925] 75 = Ok canvas /\
    canvasAt canvas 799 999 = opaque (mkRgb 1 799 999).
Proof.
  eexists. split; [reflexivity|].
  apply (X17_first_frame_kept Sample.decoder
           [Sample.captured "frameA" 0; Sample.captured "frameB" 925] 75
           _
           (mkLoadedImage (Sample.frame 1 800 1000) (Sample.captured "frameA" 0))
           [mkLoadedImage (Sample.frame 2 800 1000) (Sample.captured "frameB" 925)]
           eq_refl eq_refl).
  - lia.
  - repeat constructor. cbn. lia.
  - cbn. lia.
  - cbn. lia.
Defined.

(** X18: with a default within [1, 32767], [sanitizeCanvasDimension]
    always returns an integer within [1, 32767]; a finite number that is at
    least 1 is rounded down and capped at 32767; and sanitising a sanitised
    value changes nothing. *)
Theorem X18_sanitize_dimension (defaultValue : Z) :
  1 <= defaultValue <= 32767 ->
  (forall v, 1 <= sanitizeCanvasDimension v defaultValue <= 32767) /\
  (forall q, (1 <= q)%Q ->
     sanitizeCanvasDimension (Js.Num q) defaultValue = Z.min (Qfloor q) 32767) /\
  (forall v,
     sanitizeCanvasDimension
       (Js.Num (inject_Z (sanitizeCanvasDimension v defaultValue))) defaultValue =
     sanitizeCanvasDimension v defaultValue).
Proof.
  intros Hd. split; [|split].
  - intros v. apply sanitize_range. exact Hd.
  - intros q Hq. unfold sanitizeCanvasDimension.
    assert (1 <= Qfloor q).
    { change 1 with (Qfloor (inject_Z 1)). now apply Qfloor_resp_le. }
    destruct (Qfloor q <? 1) eqn:E1; [lia|].
    destruct (Qfloor q >? 32767) eqn:E2; lia.
  - intros v. pose proof (sanitize_range v defaultValue Hd) as Hr.
    rewrite sanitize_integer by lia.
    destruct (sanitizeCanvasDimension v defaultValue <? 1) eqn:E; lia.
Qed.

Lemma X18_sanitize_dimension_witness :
  sanitizeCanvasDimension (Js.Num (2001 # 2)) 600 = 1000 /\
  sanitizeCanvasDimension (Js.Num (inject_Z 1000)) 600 = 1000.
Proof.
  destruct (X18_sanitize_dimension 600 ltac:(lia)) as [_ [Hfloor _]].
  split.
  - rewrite Hfloor; [reflexivity|]. unfold Qle. cbn. lia.
  - rewrite Hfloor; [reflexivity|]. unfold Qle. cbn. lia.
Defined.

End StitchPixels.

(* ------------------------------------------------------------------ *)
(** ** File names *)

Section FilenameFacts.

Import Filename.

Lemma replaceRuns_Forall (class : Z -> bool) (P : Z -> Prop) (s : JsString) :
  P underscore -> Forall P s -> forall inRun, Forall P (replaceRuns class inRun s).
Proof.
  intros Hu Hs. induction Hs as [|c s Hc _ IH]; intros inRun; cbn [replaceRuns].
  - constructor.
  - destruct (class c); [destruct inRun|]; auto.
Qed.

Lemma replaceRuns_no_class (class : Z -> bool) (s : JsString) :
  class underscore = false ->
  forall inRun, Forall (fun c => class c = false) (replaceRuns class inRun s).
Proof.
  intros Hu. induction s as [|c s IH]; intros inRun; cbn [replaceRuns].
  - constructor.
  - destruct (class c) eqn:E; [destruct inRun|]; auto.
Qed.

Lemma dropTrailingUnderscore_Forall (P : Z -> Prop) (s : JsString) :
  Forall P s -> Forall P (dropTrailingUnderscore s).
Proof.
  induction 1 as [|c s Hc Hs IH]; [constructor|].
  cbn [dropTrailingUnderscore]. destruct s as [|d s].
  - destruct (isUnderscore c); auto.
  - constructor; [exact Hc | exact IH].
Qed.

Lemma trimUnderscores_Forall (P : Z -> Prop) (s : JsString) :
  Forall P s -> Forall P (trimUnderscores s).
Proof.
  intros Hs. unfold trimUnderscores. destruct s as [|c rest]; [constructor|].
  destruct (isUnderscore c).
  - apply dropTrailingUnderscore_Forall. now inversion Hs.
  - now apply dropTrailingUnderscore_Forall.
Qed.

Lemma firstn_Forall (P : Z -> Prop) (n : nat) (s : JsString) :
  Forall P s -> Forall P (firstn n s).
Proof.
  intros Hs. revert n. induction Hs as [|c s Hc _ IH]; intros [|n]; cbn; auto.
Qed.

(** X19: whatever the input and the length limit, the sanitised name
    contains none of the characters that are invalid in a file name (the
    angle brackets, colon, double quote, slash, backslash, bar, question
    mark, asterisk and the control characters) and no white space. *)
Theorem X19_filename_has_only_safe_characters
    (str : option JsString) (maxLength : Z) :
  Forall (fun c => isInvalidChar c = false /\ isWhiteSpace c = false)
         (sanitizeForFilename str maxLength).
Proof.
  unfold sanitizeForFilename.
  destruct str as [[|c0 s]|]; try constructor.
  apply firstn_Forall, trimUnderscores_Forall.
  apply replaceRuns_Forall; [split; reflexivity|].
  set (cleaned := removeAll isInvalidChar (c0 :: s)).
  assert (Hvalid : Forall (fun c => isInvalidChar c = false) cleaned).
  { unfold cleaned, removeAll. apply Forall_forall. intros c Hc.
    apply filter_In in Hc. destruct Hc as [_ Hc].
    now apply negb_true_iff in Hc. }
  pose proof (replaceRuns_Forall isWhiteSpace _ cleaned eq_refl Hvalid false) as H1.
  pose proof (replaceRuns_no_class isWhiteSpace cleaned eq_refl false) as H2.
  rewrite Forall_forall in *. intros c Hc. split; auto.
Qed.

Lemma replaceRuns_head (class : Z -> bool) (s : JsString) :
  forall c rest,
    replaceRuns class true s = c :: rest -> class c = false.
Proof.
  induction s as [|d s IH]; intros c rest H; cbn [replaceRuns] in H;
    [discriminate|].
  destruct (class d) eqn:E.
  - eapply IH. exact H.
  - injection H as <- _. exact E.
Qed.

Lemma collapse_noDouble (s : JsString) :
  forall inRun, noDoubleUnderscore (replaceRuns isUnderscore inRun s).
Proof.
  induction s as [|c s IH]; intros inRun; cbn [replaceRuns]; [exact I|].
  destruct (isUnderscore c) eqn:E.
  - destruct inRun; [apply IH|].
    specialize (IH true).
    destruct (replaceRuns isUnderscore true s) as [|d rest] eqn:Er; [exact I|].
    split; [|exact IH].
    intros [_ Hd]. apply replaceRuns_head in Er. subst d. discriminate Er.
  - specialize (IH false).
    destruct (replaceRuns isUnderscore false s) as [|d rest] eqn:Er; [exact I|].
    split; [|exact IH].
    intros [Hc _]. subst c. discriminate E.
Qed.

Lemma noDouble_tail (c : Z) (s : JsString) :
  noDoubleUnderscore (c :: s) -> noDoubleUnderscore s.
Proof. destruct s; [intros; exact I | intros [_ H]; exact H]. Qed.

Lemma dropTrailing_head (c d : Z) (s rest : JsString) :
  dropTrailingUnderscore (c :: s) = d :: rest -> d = c.
Proof.
  cbn [dropTrailingUnderscore]. destruct s.
  - destruct (isUnderscore c); [discriminate | now intros [= <- _]].
  - now intros [= <- _].
Qed.

Lemma dropTrailing_noDouble (s : JsString) :
  noDoubleUnderscore s -> noDoubleUnderscore (dropTrailingUnderscore s).
Proof.
  induction s as [|c s IH]; intros H; [exact I|].
  destruct s as [|d s].
  - cbn. destruct (isUnderscore c); exact I.
  - destruct H as [Hcd Hrest]. specialize (IH Hrest).
    change (dropTrailingUnderscore (c :: d :: s))
      with (c :: dropTrailingUnderscore (d :: s)).
    destruct (dropTrailingUnderscore (d :: s)) as [|e t] eqn:Ed; [exact I|].
    apply dropTrailing_head in Ed. subst e. split; [exact Hcd | exact IH].
Qed.

Lemma firstn_noDouble (n : nat) (s : JsString) :
  noDoubleUnderscore s -> noDoubleUnderscore (firstn n s).
Proof.
  revert n. induction s as [|c s IH]; intros [|n] H; cbn [firstn]; try exact I.
  specialize (IH n (noDouble_tail _ _ H)).
  destruct s as [|d s]; [destruct n; exact I|].
  destruct n as [|n]; [exact I|]. cbn [firstn] in IH |- *.
  destruct H as [Hcd _]. split; [exact Hcd | exact IH].
Qed.

(** X20: the sanitised name never starts with an underscore, never contains
    two underscores in a row, and is at most [maxLength] characters long
    (empty when [maxLength] is not positive). *)
Theorem X20_filename_shape (str : option JsString) (maxLength : Z) :
  let name := sanitizeForFilename str maxLength in
  noDoubleUnderscore name /\
  (forall c rest, name = c :: rest -> c <> underscore) /\
  Z.of_nat (List.length name) <= Z.max 0 maxLength.
Proof.
  intros name. subst name. unfold sanitizeForFilename.
  destruct str as [[|c0 s]|]; try (repeat split; cbn; try lia; discriminate).
  set (collapsed := replaceRuns isUnderscore false
                      (replaceRuns isWhiteSpace false
                         (removeAll isInvalidChar (c0 :: s)))).
  assert (Hnd : noDoubleUnderscore collapsed) by apply collapse_noDouble.
  assert (Htrim : noDoubleUnderscore (trimUnderscores collapsed) /\
                  forall c rest, trimUnderscores collapsed = c :: rest ->
                                 c <> underscore).
  { unfold trimUnderscores. destruct collapsed as [|c rest]; [split; [exact I|discriminate]|].
    destruct (isUnderscore c) eqn:E.
    - split; [apply dropTrailing_noDouble; eapply noDouble_tail; exact Hnd|].
      intros d rest' Hd. destruct rest as [|e rest]; [discriminate Hd|].
      apply dropTrailing_head in Hd. subst d.
      destruct Hnd as [Hce _]. intros ->. apply Hce.
      unfold isUnderscore in E. split; [lia | reflexivity].
    - split; [now apply dropTrailing_noDouble|].
      intros d rest' Hd. apply dropTrailing_head in Hd. subst d.
      unfold isUnderscore in E. lia. }
  destruct Htrim as [Hnd' Hhead].
  unfold substring0. split; [now apply firstn_noDouble|]. split.
  - intros c rest Hc.
    destruct (trimUnderscores collapsed) as [|d rest'] eqn:Et.
    + rewrite firstn_nil in Hc. discriminate Hc.
    + destruct (Z.to_nat maxLength); [discriminate Hc|].
      cbn [firstn] in Hc. injection Hc as <- _. now apply (Hhead d rest').
  - pose proof (firstn_le_length (Z.to_nat maxLength) (trimUnderscores collapsed)).
    lia.
Qed.

Lemma removeAll_clean (class : Z -> bool) (s : JsString) :
  Forall (fun c => class c = false) s -> removeAll class s = s.
Proof.
  induction 1 as [|c s Hc _ IH]; [reflexivity|].
  unfold removeAll in *. cbn. now rewrite Hc, IH.
Qed.

Lemma replaceRuns_clean (class : Z -> bool) (s : JsString) :
  Forall (fun c => class c = false) s ->
  forall inRun, replaceRuns class inRun s = s.
Proof.
  induction 1 as [|c s Hc _ IH]; intros inRun; [reflexivity|].
  cbn [replaceRuns]. now rewrite Hc, IH.
Qed.

Lemma collapse_clean (s : JsString) :
  noDoubleUnderscore s ->
  forall inRun,
    (inRun = true -> forall c rest, s = c :: rest -> c <> underscore) ->
    replaceRuns isUnderscore inRun s = s.
Proof.
  induction s as [|c s IH]; intros Hnd inRun Hhead; [reflexivity|].
  cbn [replaceRuns]. destruct (isUnderscore c) eqn:E.
  - assert (Hc : c = underscore) by (unfold isUnderscore in E; lia).
    destruct inRun; [exfalso; now apply (Hhead eq_refl c s)|].
    f_equal; [now symmetry|]. apply IH; [eapply noDouble_tail; exact Hnd|].
    intros _ d rest ->. destruct Hnd as [Hcd _]. intros ->. now apply Hcd.
  - f_equal. apply IH; [eapply noDouble_tail; exact Hnd | discriminate].
Qed.

Lemma dropTrailing_clean (s : JsString) :
  List.last s 0 <> underscore -> dropTrailingUnderscore s = s.
Proof.
  induction s as [|c s IH]; intros H; [reflexivity|].
  destruct s as [|d s].
  - cbn in *. destruct (isUnderscore c) eqn:E; [|reflexivity].
    unfold isUnderscore in E. lia.
  - change (dropTrailingUnderscore (c :: d :: s))
      with (c :: dropTrailingUnderscore (d :: s)).
    f_equal. apply IH. exact H.
Qed.

(** X21: a name that is already clean is returned unchanged: with no
    invalid character, no white space, no two underscores in a row, no
    underscore at either end, and a length within the limit,
    [sanitizeForFilename] is the identity. *)
Theorem X21_clean_filename_unchanged (s : JsString) (maxLength : Z) :
  cleanName s ->
  Z.of_nat (List.length s) <= maxLength ->
  sanitizeForFilename (Some s) maxLength = s.
Proof.
  intros [Hchars [Hnd [Hhead Hlast]]] Hlen. unfold sanitizeForFilename.
  destruct s as [|c0 s]; [reflexivity|].
  assert (Hinv : Forall (fun c => isInvalidChar c = false) (c0 :: s)).
  { eapply Forall_impl; [|exact Hchars]. now intros c [H _]. }
  assert (Hws : Forall (fun c => isWhiteSpace c = false) (c0 :: s)).
  { eapply Forall_impl; [|exact Hchars]. now intros c [_ H]. }
  rewrite (removeAll_clean _ _ Hinv), (replaceRuns_clean _ _ Hws).
  rewrite (collapse_clean _ Hnd) by discriminate.
  unfold trimUnderscores.
  destruct (isUnderscore c0) eqn:E.
  { exfalso. apply (Hhead c0 s eq_refl). unfold isUnderscore in E. lia. }
  rewrite (dropTrailing_clean _ Hlast).
  unfold substring0. apply firstn_all2. lia.
Qed.

Lemma X21_clean_filename_unchanged_witness :
  sanitizeForFilename (Some (ofAscii "Pricing_2024-Plans")) 40 =
  ofAscii "Pricing_2024-Plans".
Proof.
  apply X21_clean_filename_unchanged.
  - unfold cleanName. split; [|split; [|split]].
    + repeat constructor.
    + cbn. repeat split; intros [H1 H2]; discriminate.
    + intros c rest H. injection H as <- _. discriminate.
    + cbn. discriminate.
  - cbn. lia.
Defined.

Lemma removeAll_twice (ctrl inv : Z -> bool) (s : JsString) :
  (forall c, ctrl c = true -> inv c = true) ->
  removeAll inv (removeAll ctrl s) = removeAll inv s.
Proof.
  intros Hsub. unfold removeAll. induction s as [|c s IH]; [reflexivity|].
  cbn. destruct (ctrl c) eqn:Ec; cbn.
  - rewrite (Hsub c Ec). cbn. exact IH.
  - destruct (inv c); cbn; now rewrite IH.
Qed.

(** X22: control characters, tab and newline among them, are deleted before
    white space is replaced, so they never produce an underscore: the result
    is that of the string with its control characters left out. *)
Theorem X22_control_characters_deleted (s : JsString) (maxLength : Z) :
  sanitizeForFilename (Some s) maxLength =
  sanitizeForFilename
    (Some (removeAll (fun c => (0 <=? c) && (c <=? 31)) s)) maxLength.
Proof.
  assert (Hpipe : forall t,
            sanitizeForFilename (Some t) maxLength =
            substring0 maxLength
              (trimUnderscores
                 (replaceRuns isUnderscore false
                    (replaceRuns isWhiteSpace false
                       (removeAll isInvalidChar t))))).
  { intros [|c t]; [|reflexivity]. cbn. unfold substring0.
    now rewrite firstn_nil. }
  rewrite !Hpipe. rewrite removeAll_twice; [reflexivity|].
  intros c Hc. unfold isInvalidChar. rewrite Hc.
  now rewrite !orb_true_r.
Qed.

End FilenameFacts.

(* ------------------------------------------------------------------ *)
(** ** Expanding collapsed content *)

Section ExpandFacts.

Import ContentScript.

Lemma expandLoop_count (elements : list Element) :
  forall index clickedCount done,
    0 <= clickedCount ->
    let count := fst (expandLoop elements index clickedCount done) in
    clickedCount <= count <= Z.max clickedCount maxClicks /\
    count <= clickedCount + Z.of_nat (List.length elements).
Proof.
  unfold maxClicks.
  induction elements as [|el rest IH]; intros index count0 done Hpos;
    cbn [expandLoop fst List.length]; unfold maxClicks.
  - lia.
  - destruct (count0 >=? 50) eqn:Elimit; cbn [fst]; [lia|].
    destruct (testAny expandPatterns (elementText el)).
    + destruct (testAny dangerWords (elementText el));
        [|destruct (scrollThrows el); [|destruct (clickThrows el)]];
        match goal with
        | |- context [expandLoop rest ?i ?c ?d] =>
            specialize (IH i c d ltac:(lia)); cbn zeta in IH
        end; lia.
    + specialize (IH (S index) count0 done Hpos). cbn zeta in IH. lia.
Qed.

(** X23: [expandElements] reports between 0 and 50 clicks, and never more
    than there are elements. *)
Theorem X23_expand_click_limit (elements : list Element) :
  0 <= fst (expandElements elements) <= maxClicks /\
  fst (expandElements elements) <= Z.of_nat (List.length elements).
Proof.
  unfold expandElements.
  pose proof (expandLoop_count elements 0 0 [] ltac:(lia)) as H.
  cbn zeta in H. unfold maxClicks in *. lia.
Qed.

Lemma expandLoop_touched (elements : list Element) :
  forall index clickedCount done e i,
    In e (snd (expandLoop elements index clickedCount done)) ->
    touched e = Some i ->
    In e done \/
    exists el,
      nth_error elements (i - index) = Some el /\ (index <= i)%nat /\
      testAny expandPatterns (elementText el) = true /\
      testAny dangerWords (elementText el) = false.
Proof.
  induction elements as [|el rest IH]; intros index count0 done e i Hin Ht;
    cbn [expandLoop snd] in Hin.
  - now left.
  - destruct (count0 >=? maxClicks); cbn [snd] in Hin; [now left|].
    assert (Hnext : forall c d,
              In e (snd (expandLoop rest (S index) c d)) ->
              (forall e', In e' d -> In e' done \/
                 (touched e' = Some index \/ touched e' = None) /\
                 testAny expandPatterns (elementText el) = true /\
                 testAny dangerWords (elementText el) = false) ->
              In e done \/
              exists el0,
                nth_error (el :: rest) (i - index) = Some el0 /\ (index <= i)%nat /\
                testAny expandPatterns (elementText el0) = true /\
                testAny dangerWords (elementText el0) = false).
    { intros c d Hin' Hd.
      destruct (IH (S index) c d e i Hin' Ht) as [Hdone | [el0 [Hn [Hle [Hp Hs]]]]].
      - destruct (Hd e Hdone) as [H | [[Hi | Hi] [Hp Hs]]]; [now left | | congruence].
        right. exists el. rewrite Ht in Hi. injection Hi as ->.
        rewrite Nat.sub_diag. cbn. auto.
      - right. exists el0.
        replace (i - index)%nat with (S (i - S index)) by lia. cbn.
        repeat split; auto. lia. }
    destruct (testAny expandPatterns (elementText el)) eqn:Ep;
      [|apply (Hnext _ _ Hin); intros e' He'; now left].
    destruct (testAny dangerWords (elementText el)) eqn:Ed;
      [apply (Hnext _ _ Hin); intros e' He'; now left|].
    destruct (scrollThrows el); [|destruct (clickThrows el)];
      apply (Hnext _ _ Hin); intros e' He'; apply in_app_or in He';
      (destruct He' as [He' | He']; [now left|]); right;
      (split; [|auto]); cbn in He';
      repeat (destruct He' as [<- | He']; [cbn; auto|]); contradiction.
Qed.

(** X24: every element that [expandElements] scrolls to or clicks has a
    text that contains one of the expand phrases and none of the words save,
    submit, delete, remove, cancel, close and exit. *)
Theorem X24_expand_touches_only_safe_elements
    (elements : list Element) (e : DomEvent) (i : nat) :
  In e (snd (expandElements elements)) ->
  touched e = Some i ->
  exists el,
    nth_error elements i = Some el /\
    testAny expandPatterns (elementText el) = true /\
    testAny dangerWords (elementText el) = false.
Proof.
  intros Hin Ht. unfold expandElements in Hin.
  destruct (expandLoop_touched elements 0 0 [] e i Hin Ht)
    as [[] | [el [Hn [_ [Hp Hd]]]]].
  rewrite Nat.sub_0_r in Hn. eauto.
Qed.

Lemma X24_expand_touches_only_safe_elements_witness :
  let elements :=
    [ mkElement "show more comments" false false;
      mkElement "expand and delete" false false;
      mkElement "home" false false ] in
  snd (expandElements elements) =
    [ScrollIntoView 0; Wait 100; ClickElement 0; Wait 500] /\
  exists el,
    nth_error elements 0 = Some el /\
    testAny expandPatterns (elementText el) = true /\
    testAny dangerWords (elementText el) = false.
Proof.
  intros elements. split; [reflexivity|].
  apply (X24_expand_touches_only_safe_elements elements (ClickElement 0) 0).
  - cbn. auto.
  - reflexivity.
Defined.

End ExpandFacts.

(* ------------------------------------------------------------------ *)
(** ** Installation and messages *)

Section ListenerFacts.

Import Listeners.


(** X26: a [START_CAPTURE] message is always answered with success and the
    session identifier, never with a failure, and nothing is written to the
    storage.  The message path has no check for a capture in progress: the
    session runs whatever the tracker held, and a status query right after
    returns the terminal record of the new session. *)
Theorem X26_start_capture_message
    (env : Env) (stored : Settings) (config : option Config) (w : World) :
  let sid := env_sessionId env in
  let out := onMessage env stored (START_CAPTURE config) w in
  fst (fst out) = CaptureStarted sid /\
  snd out = None /\
  exists cs,
    fst (fst (onMessage env stored GET_CAPTURE_STATUS (snd (fst out)))) =
      CaptureStatus (Some cs) /\
    sessionId cs = sid /\
    (status cs = "completed" \/ status cs = "error").
Proof.
  intros sid out. subst out. unfold onMessage.
  set (cfg := match config with Some c => c | None => DEFAULT_CONFIG end).
  destruct (startCapture_does env cfg w) as [evs [[_ [_ Hst]] Hpost]].
  destruct (Background.startCapture env cfg w) as [r w'] eqn:E.
  cbn [fst snd] in Hst, Hpost.
  destruct Hpost as [-> [k [_ Hcases]]]. cbn [fst snd].
  split; [reflexivity|]. split; [reflexivity|].
  unfold tracks in Hst.
  destruct Hcases as [[_ [_ Hl]] | [msg [_ [_ Hl]]]];
    rewrite Hl in Hst; destruct Hst as [t Hcs]; rewrite Hcs;
    eexists; (split; [reflexivity|]); cbn; auto.
Qed.

End ListenerFacts.

Section OffscreenRoundTrip.

Import Background.

(** What [scrollAndStitchCapture] makes of the answer of the offscreen
    document, once the frames are collected and the document is open. *)
Lemma scrollAndStitchCapture_reply
    (env : Env) (sid : string) (w w1 : World) (captures : list Capture)
    (d : Dims) (r : StitchResponse) :
  env_stitch env captures OVERLAP_HEIGHT = Ok (Some r) ->
  (forall w0, fst (createOffscreenDocument env w0) = Ok tt) ->
  collectCaptures env sid w = (Ok (captures, d), w1) ->
  fst (scrollAndStitchCapture env sid w) =
  match stitch_error r with
  | Some (String c rest) => Throw (String c rest)
  | _ => Ok r
  end.
Proof.
  intros Hstitch Hopen Hcollect.
  unfold scrollAndStitchCapture. unfold bind at 1. rewrite Hcollect.
  unfold bind at 1. unfold updateCaptureState at 1. unfold notifyPopup, modify.
  unfold bind at 1.
  match goal with
  | |- context [createOffscreenDocument env ?w0] =>
      pose proof (Hopen w0) as Hdoc;
      destruct (createOffscreenDocument env w0) as [r0 w2]
  end.
  cbn [fst] in Hdoc. subst r0.
  unfold bind at 1. unfold sendToOffscreen, bind, modify, liftResult.
  rewrite Hstitch. unfold ret.
  cbv beta iota delta [fst tryCatch sendScrollTo].
  destruct (stitch_error r) as [[|c rest]|].
  - match goal with
    | |- context [env_scroll env ?k ?y] => destruct (env_scroll env k y)
    end; reflexivity.
  - reflexivity.
  - match goal with
    | |- context [env_scroll env ?k ?y] => destruct (env_scroll env k y)
    end; reflexivity.
Qed.

(** X27: when the offscreen document answers as its listener does and can
    be opened, a stitching failure comes back to [scrollAndStitchCapture] as
    a thrown error with the stitcher's own message, and a success comes back
    as the blob URL of the stitched canvas. *)
Theorem X27_stitch_reply_round_trip
    (env : Env) (decode : string -> Result Offscreen.Image)
    (createObjectURL : Offscreen.Canvas -> string)
    (sid : string) (w w1 : World) (captures : list Capture) (d : Dims) :
  env_stitch env =
    (fun captures ov =>
       Ok (Some (OffscreenListener.onStitchCaptures decode createObjectURL
                   captures ov))) ->
  (forall w0, fst (createOffscreenDocument env w0) = Ok tt) ->
  collectCaptures env sid w = (Ok (captures, d), w1) ->
  match Offscreen.stitchCapturedViewports decode captures OVERLAP_HEIGHT with
  | Throw msg => fst (scrollAndStitchCapture env sid w) = Throw msg
  | Ok canvas =>
      fst (scrollAndStitchCapture env sid w) =
      Ok (mkStitchResponse true (createObjectURL canvas) None)
  end.
Proof.
  intros Hstitch Hopen Hcollect.
  assert (Hreply := fun r H =>
            scrollAndStitchCapture_reply env sid w w1 captures d r H
              Hopen Hcollect).
  rewrite Hstitch in Hreply.
  unfold OffscreenListener.onStitchCaptures in Hreply.
  assert (Hmsg : forall msg,
            Offscreen.stitchCapturedViewports decode captures OVERLAP_HEIGHT =
              Throw msg -> exists c rest, msg = String c rest).
  { intros msg H. unfold Offscreen.stitchCapturedViewports in H.
    destruct captures as [|c0 cs]; [injection H as <-; cbn; eauto|].
    destruct (Offscreen.loadImages decode (c0 :: cs)) as [[|f r]|m];
      try discriminate H; injection H as <-; cbn; eauto. }
  destruct (Offscreen.stitchCapturedViewports decode captures OVERLAP_HEIGHT)
    as [canvas|msg] eqn:E.
  - rewrite (Hreply _ eq_refl). reflexivity.
  - destruct (Hmsg msg eq_refl) as [c [rest ->]].
    rewrite (Hreply _ eq_refl). reflexivity.
Qed.

Lemma X27_stitch_reply_round_trip_witness :
  let url := fun _ : Offscreen.Canvas => "blob:stitched" in
  let env :=
    mkEnv "k3x9q" [Sample.tab] true (Ok tt) (Ok (Sample.page 1000 1000))
          (fun _ y => Ok (mkScrollResult true y))
          (fun _ => Ok "frameA") true (Ok tt)
          (fun captures ov =>
             Ok (Some (OffscreenListener.onStitchCaptures Sample.decoder url
                         captures ov)))
          (Ok tt) DEFAULT_CONFIG in
  exists canvas,
    Offscreen.stitchCapturedViewports Sample.decoder
      [mkCapture "frameA" 0 1000 1280 true] OVERLAP_HEIGHT = Ok canvas /\
    fst (scrollAndStitchCapture env "s" initialWorld) =
    Ok (mkStitchResponse true "blob:stitched" None).
Proof.
  intros url env. eexists. split; [reflexivity|].
  pose proof (X27_stitch_reply_round_trip env Sample.decoder url "s" initialWorld
                (snd (collectCaptures env "s" initialWorld))
                [mkCapture "frameA" 0 1000 1280 true] (Sample.page 1000 1000)
                eq_refl (fun _ => eq_refl) ltac:(vm_compute; reflexivity)) as H.
  exact H.
Defined.

End OffscreenRoundTrip.
